(** * GPU non-bonded module (HIP flavour): shallow embedding and properties

    The development follows the sources file by file:
    - [Float32]  : the single-precision values the device code computes with;
    - [VecOps]   : gromacs/gpu_utils/vectype_ops.hpp;
    - [DataMgmt] : gromacs/nbnxm/nbnxm_gpu_data_mgmt.cpp;
    - [Kernel]   : gromacs/nbnxm/hip/nbnxm_hip_kernel.hpp.

    Device and host code is single precision throughout, so [float] is
    IEEE-754 binary32 (24 bits of precision, exponent bound 128), with
    infinities, signed zeros and a NaN, as specified by [SpecFloat]. *)

From Stdlib Require Import ZArith Bool Lia SpecFloat.
From stdpp Require Import base option list gmap strings pretty.

Local Open Scope Z_scope.

(* ===================================================================== *)
(** * Single-precision floating point                                      *)
(* ===================================================================== *)

Module Float32.

Definition prec : Z := 24.
Definition emax : Z := 128.

Definition float : Type := spec_float.

Definition fadd : float -> float -> float := SFadd prec emax.
Definition fsub : float -> float -> float := SFsub prec emax.
Definition fmul : float -> float -> float := SFmul prec emax.
Definition fdiv : float -> float -> float := SFdiv prec emax.
Definition fsqrt : float -> float := SFsqrt prec emax.
Definition fneg : float -> float := SFopp.

(** C comparison operators: every comparison with a NaN is false,
    except [!=], which is then true. *)
Definition flt (x y : float) : bool := SFltb x y.
Definition fgt (x y : float) : bool := SFltb y x.
Definition fle (x y : float) : bool := SFleb x y.
Definition feq (x y : float) : bool := SFeqb x y.
Definition fne (x y : float) : bool := negb (SFeqb x y).

Definition is_nan (x : float) : bool :=
  match x with S754_nan => true | _ => false end.

Definition is_zero (x : float) : bool :=
  match x with S754_zero _ => true | _ => false end.

(** [0.0F], [1.0F], [-1.0F], [0.5F] and [2.0F]. *)
Definition f0 : float := S754_zero false.
Definition f1 : float := S754_finite false 8388608 (-23).
Definition fm1 : float := S754_finite true 8388608 (-23).
Definition fhalf : float := S754_finite false 8388608 (-24).
Definition f2 : float := S754_finite false 8388608 (-22).

(** The positive power of two [2^k], for [-126 <= k <= 127]. *)
Definition pow2 (k : Z) : float := S754_finite false 8388608 (k - 23).

(** Conversion of an integer that is 0 or 1 (a mask bit, a C [bool])
    to float. *)
Definition of_bit (b : bool) : float := if b then f1 else f0.

(** C truth value of a float used as a condition: non-zero, so also
    true for a NaN. *)
Definition truthy (x : float) : bool := negb (is_zero x).

(** [fmax] of the C library (IEEE maxNum): a NaN argument is ignored
    when the other argument is a number. *)
Definition fmax (x y : float) : float :=
  match x, y with
  | S754_nan, _ => y
  | _, S754_nan => x
  | _, _ => if flt x y then y else x
  end.

(** Two floats denote the same value for the arithmetic: identical, or
    zeros of either sign. *)
Definition same_value (x y : float) : Prop :=
  x = y \/ (is_zero x = true /\ is_zero y = true).

(** [+0] for a zero of either sign, the argument otherwise; this is what
    adding [+0] to a float gives. *)
Definition unsigned_zero (x : float) : float :=
  match x with S754_zero _ => f0 | _ => x end.

End Float32.

Declare Scope f32_scope.
Delimit Scope f32_scope with f32.
Infix "+" := Float32.fadd : f32_scope.
Infix "-" := Float32.fsub : f32_scope.
Infix "*" := Float32.fmul : f32_scope.
Infix "/" := Float32.fdiv : f32_scope.
Notation "- x" := (Float32.fneg x) : f32_scope.
Infix "<?" := Float32.flt : f32_scope.
Infix ">?" := Float32.fgt : f32_scope.

Import Float32.

(* ===================================================================== *)
(** * gromacs/gpu_utils/vectype_ops.hpp                                    *)
(* ===================================================================== *)

Module VecOps.

(** HIP's [float3] and [float4]: structs of scalar fields. *)
Record float3 : Type := make_float3 { f3_x : float; f3_y : float; f3_z : float }.
Record float4 : Type :=
  make_float4 { f4_x : float; f4_y : float; f4_z : float; f4_w : float }.
Record float2 : Type := make_float2 { f2_x : float; f2_y : float }.

(** [make_float3(float s)] and [make_float3(float4 a)]. *)
Definition make_float3_s (s : float) : float3 := make_float3 s s s.
Definition make_float3_4 (a : float4) : float3 :=
  make_float3 (f4_x a) (f4_y a) (f4_z a).

(** [norm2(float3)]; C's [+] associates to the left. *)
Definition norm2 (a : float3) : float :=
  ((f3_x a * f3_x a + f3_y a * f3_y a) + f3_z a * f3_z a)%f32.

(** [iprod]. *)
Definition iprod (a b : float3) : float :=
  ((f3_x a * f3_x b + f3_y a * f3_y b) + f3_z a * f3_z b)%f32.

(** [cprod]. *)
Definition cprod (a b : float3) : float3 :=
  make_float3 (f3_y a * f3_z b - f3_z a * f3_y b)%f32
              (f3_z a * f3_x b - f3_x a * f3_z b)%f32
              (f3_x a * f3_y b - f3_y a * f3_x b)%f32.

Section CosAngle.
(** The device intrinsic [__frsqrt_rn] (reciprocal square root) is
    part of the HIP runtime, not of this repository. *)
Variable __frsqrt_rn : float -> float.

(** [cos_angle]. *)
Definition cos_angle (a b : float3) : float :=
  let ipa := norm2 a in
  let ipb := norm2 b in
  let ip := iprod a b in
  let ipab := (ipa * ipb)%f32 in
  let cosval := if (ipab >? f0)%f32 then (ip * __frsqrt_rn ipab)%f32 else f1 in
  if (cosval >? f1)%f32 then f1
  else if (cosval <? fm1)%f32 then fm1
  else cosval.
End CosAngle.

(** ** [fast_float3]

    A union of [{ Native_float2_ dxy; float dz }] and [{ float x, y, z }]:
    [x] and [y] alias the two lanes of [dxy], [z] aliases [dz]. *)
Definition Native_float2_ : Type := (float * float)%type.

(** Clang's ext_vector_type arithmetic is lane-wise; a scalar operand
    is splat over the lanes. *)
Definition v2_mul (p q : Native_float2_) : Native_float2_ :=
  ((p.1 * q.1)%f32, (p.2 * q.2)%f32).
Definition v2_add (p q : Native_float2_) : Native_float2_ :=
  ((p.1 + q.1)%f32, (p.2 + q.2)%f32).
Definition v2_sub (p q : Native_float2_) : Native_float2_ :=
  ((p.1 - q.1)%f32, (p.2 - q.2)%f32).
Definition v2_splat (s : float) : Native_float2_ := (s, s).

Record fast_float3 : Type := fast_float3_xy_z { dxy : Native_float2_; dz : float }.

(** The second view of the union. *)
Definition ff_x (v : fast_float3) : float := (dxy v).1.
Definition ff_y (v : fast_float3) : float := (dxy v).2.
Definition ff_z (v : fast_float3) : float := dz v.

(** [fast_float3(float x_, float y_, float z_)]. *)
Definition fast_float3_xyz (x_ y_ z_ : float) : fast_float3 :=
  fast_float3_xy_z (x_, y_) z_.

(** [operator float3()]. *)
Definition to_float3 (v : fast_float3) : float3 :=
  make_float3 (ff_x v) (ff_y v) (ff_z v).

(** [operator*(fast_float3, fast_float3)]. *)
Definition ff_mul (x y : fast_float3) : fast_float3 :=
  fast_float3_xy_z (v2_mul (dxy x) (dxy y)) (dz x * dz y)%f32.

(** [operator*(fast_float3, float)]. *)
Definition ff_mul_s (x : fast_float3) (y : float) : fast_float3 :=
  fast_float3_xy_z (v2_mul (dxy x) (v2_splat y)) (dz x * y)%f32.

(** [operator*(float, fast_float3)]. *)
Definition ff_s_mul (x : float) (y : fast_float3) : fast_float3 :=
  fast_float3_xy_z (v2_mul (v2_splat x) (dxy y)) (x * dz y)%f32.

(** [operator+(fast_float3, fast_float3)]. *)
Definition ff_add (x y : fast_float3) : fast_float3 :=
  fast_float3_xy_z (v2_add (dxy x) (dxy y)) (dz x + dz y)%f32.

(** [operator-(fast_float3, fast_float3)]. *)
Definition ff_sub (x y : fast_float3) : fast_float3 :=
  fast_float3_xy_z (v2_sub (dxy x) (dxy y)) (dz x - dz y)%f32.

(** [make_fast_float3(float)] and [make_fast_float3(float4)]. *)
Definition make_fast_float3 (x : float) : fast_float3 := fast_float3_xyz x x x.
Definition make_fast_float3_4 (x : float4) : fast_float3 :=
  fast_float3_xyz (f4_x x) (f4_y x) (f4_z x).

(** [norm2(fast_float3)]. *)
Definition ff_norm2 (a : fast_float3) : float :=
  let b := ff_mul a a in
  ((ff_x b + ff_y b) + ff_z b)%f32.

(** ** The plain [float3] operations the packed ones stand for

    Written from the wording "componentwise float3 operations": each
    component of the result is the scalar operation on the matching
    components. *)
Module Plain.
Definition add (a b : float3) : float3 :=
  make_float3 (f3_x a + f3_x b)%f32 (f3_y a + f3_y b)%f32 (f3_z a + f3_z b)%f32.
Definition sub (a b : float3) : float3 :=
  make_float3 (f3_x a - f3_x b)%f32 (f3_y a - f3_y b)%f32 (f3_z a - f3_z b)%f32.
Definition mul (a b : float3) : float3 :=
  make_float3 (f3_x a * f3_x b)%f32 (f3_y a * f3_y b)%f32 (f3_z a * f3_z b)%f32.
Definition scale_r (a : float3) (s : float) : float3 :=
  make_float3 (f3_x a * s)%f32 (f3_y a * s)%f32 (f3_z a * s)%f32.
Definition scale_l (s : float) (a : float3) : float3 :=
  make_float3 (s * f3_x a)%f32 (s * f3_y a)%f32 (s * f3_z a)%f32.
End Plain.

End VecOps.

Import VecOps.

(* ===================================================================== *)
(** * gromacs/nbnxm/nbnxm_gpu_data_mgmt.cpp                                *)
(* ===================================================================== *)

Module DataMgmt.

(** ** How a host call ends

    [gmx_incons], [GMX_THROW] and [GMX_RELEASE_ASSERT] end the run with a
    message; dereferencing a null pointer or addressing a device buffer
    outside its allocation has no defined behaviour. *)
Inductive outcome (A : Type) : Type :=
| Done (a : A)
| Fatal (msg : string)
| Undefined.
Arguments Done {A} a.
Arguments Fatal {A} msg.
Arguments Undefined {A}.

Definition bind {A B : Type} (m : outcome A) (k : A -> outcome B) : outcome B :=
  match m with
  | Done a => k a
  | Fatal msg => Fatal msg
  | Undefined => Undefined
  end.

#[global] Instance outcome_bind : MBind outcome := fun A B k m => bind m k.
#[global] Instance outcome_ret : MRet outcome := fun A a => Done a.

Definition is_fatal {A : Type} (m : outcome A) : bool :=
  match m with Fatal _ => true | _ => false end.

(** ** Device buffers

    A [DeviceBuffer] is a device pointer: null ([None]) or an allocation,
    a sequence of cells.  A cell that was never written since its allocation
    holds no defined value ([None]).  Operations enqueued in a stream take
    effect in the order of issue; the embedding applies them at once. *)
Definition DeviceBuffer (A : Type) : Type := option (list (option A)).

Section DeviceBufferOps.
Context {A : Type}.

(** Modelled from the spec: [allocateDeviceBuffer] of devicebuffer.h,
    which is not among the sources; a fresh allocation of [n] cells,
    none of them written. *)
Definition allocateDeviceBuffer (n : Z) : DeviceBuffer A :=
  Some (replicate (Z.to_nat n) None).

(** Modelled from the spec: [freeDeviceBuffer]; the pointer is null
    afterwards. *)
Definition freeDeviceBuffer (_ : DeviceBuffer A) : DeviceBuffer A := None.

(** Cells [start .. start + length vs - 1] of [cells] overwritten by [vs]. *)
Definition write_range (cells : list (option A)) (start : nat) (vs : list A)
  : list (option A) :=
  take start cells ++ (Some <$> vs) ++ drop (start + length vs) cells.

Definition in_range (cells : list (option A)) (start n : Z) : bool :=
  (0 <=? start) && (0 <=? n) && (start + n <=? Z.of_nat (length cells)).

(** Modelled from the spec: [copyToDeviceBuffer] ("upload-from-host
    (range)"): [n] values read from the host array go to cells
    [start .. start + n - 1].  A transfer of no value is skipped. *)
Definition copyToDeviceBuffer (buf : DeviceBuffer A) (host : list A) (start n : Z)
  : outcome (DeviceBuffer A) :=
  if n =? 0 then Done buf
  else match buf with
       | None => Undefined
       | Some cells =>
           if in_range cells start n && (n <=? Z.of_nat (length host))
           then Done (Some (write_range cells (Z.to_nat start)
                                        (take (Z.to_nat n) host)))
           else Undefined
       end.

(** Modelled from the spec: [clearDeviceBufferAsync] ("zero-fill
    (range)"), with [zero] the all-zero-bytes value of the element type. *)
Definition clearDeviceBufferAsync (zero : A) (buf : DeviceBuffer A) (start n : Z)
  : outcome (DeviceBuffer A) :=
  if n =? 0 then Done buf
  else match buf with
       | None => Undefined
       | Some cells =>
           if in_range cells start n
           then Done (Some (write_range cells (Z.to_nat start)
                                        (replicate (Z.to_nat n) zero)))
           else Undefined
       end.

(** Modelled from the spec: [copyFromDeviceBuffer] (download): the host
    cells [hstart .. hstart + n - 1] receive what the device cells
    [start .. start + n - 1] hold, defined or not. *)
Definition copyFromDeviceBuffer (host : list (option A)) (hstart : Z)
           (buf : DeviceBuffer A) (start n : Z) : outcome (list (option A)) :=
  if n =? 0 then Done host
  else match buf with
       | None => Undefined
       | Some cells =>
           if in_range cells start n && in_range host hstart n
           then Done (take (Z.to_nat hstart) host
                      ++ take (Z.to_nat n) (drop (Z.to_nat start) cells)
                      ++ drop (Z.to_nat hstart + Z.to_nat n) host)
           else Undefined
       end.

Section Realloc.
(** The growth policy [over_alloc_large] of smalloc.h is not among the
    sources. *)
Variable over_alloc_large : Z -> Z.

(** Modelled from the spec: [reallocateDeviceBuffer]
    ("reallocate-to-at-least(n)", with the logical size and the allocated
    capacity tracked next to the pointer): the buffer is replaced only
    when [numValues] exceeds the capacity, and the logical size becomes
    [numValues].  Returns (buffer, logical size, capacity). *)
Definition reallocateDeviceBuffer (buf : DeviceBuffer A) (numValues : Z)
           (currentNumValues currentMaxNumValues : Z)
  : DeviceBuffer A * Z * Z :=
  if currentMaxNumValues <? numValues
  then let newMax := over_alloc_large numValues in
       (allocateDeviceBuffer newMax, numValues, newMax)
  else (buf, numValues, currentMaxNumValues).
End Realloc.
End DeviceBufferOps.

(** ** Enumerations and parameter blocks *)

Module InteractionLocality.
Inductive t : Type := Local | NonLocal.
End InteractionLocality.

Module AtomLocality.
Inductive t : Type := Local | NonLocal | All.
End AtomLocality.

Module ElecType.
Inductive t : Type := Cut | RF | EwaldTab | EwaldTabTwin | EwaldAna | EwaldAnaTwin.
End ElecType.

Module VdwType.
Inductive t : Type :=
  Cut | CutCombGeom | CutCombLB | FSwitch | PSwitch | EwaldGeom | EwaldLB.
End VdwType.

(** [gmx::EnumerationArray<InteractionLocality, A>]. *)
Record EnumerationArray (A : Type) : Type :=
  { atLocal : A; atNonLocal : A }.
Arguments atLocal {A} _.
Arguments atNonLocal {A} _.

Definition ea_get {A : Type} (a : EnumerationArray A) (i : InteractionLocality.t) : A :=
  match i with
  | InteractionLocality.Local => atLocal a
  | InteractionLocality.NonLocal => atNonLocal a
  end.

Definition ea_set {A : Type} (a : EnumerationArray A) (i : InteractionLocality.t) (v : A)
  : EnumerationArray A :=
  match i with
  | InteractionLocality.Local => {| atLocal := v; atNonLocal := atNonLocal a |}
  | InteractionLocality.NonLocal => {| atLocal := atLocal a; atNonLocal := v |}
  end.

(** The fields of [interaction_const_t] the Ewald selection reads
    ([real] is [float] in this build). *)
Record interaction_const_t : Type := { rcoulomb : float; rvdw : float }.

(** Which of the [GMX_GPU_*] configuration macros the file is compiled
    with; [deviceInfo.prop] is read under [GMX_GPU_CUDA] only. *)
Inductive GpuBackend : Type := GMX_GPU_CUDA | GMX_GPU_HIP | GMX_GPU_OTHER.
Record DeviceInformation : Type := { prop_major : Z; prop_minor : Z }.

(** The process environment, and [getenv(name) != nullptr]. *)
Definition Environment : Type := gmap string string.
Definition getenv_set (env : Environment) (name : string) : bool :=
  match env !! name with Some _ => true | None => false end.

(** [nbnxn_gpu_pick_ewald_kernel_type].  The [fprintf(debug, ...)] calls
    only log. *)
Definition nbnxn_gpu_pick_ewald_kernel_type
           (backend : GpuBackend) (env : Environment)
           (ic : interaction_const_t) (deviceInfo : DeviceInformation)
  : outcome ElecType.t :=
  let bTwinCut := fne (rcoulomb ic) (rvdw ic) in
  let forceAnalyticalEwald := getenv_set env "GMX_GPU_NB_ANA_EWALD" in
  let forceTabulatedEwald := getenv_set env "GMX_GPU_NB_TAB_EWALD" in
  let forceTwinCutoffEwald := getenv_set env "GMX_GPU_NB_EWALD_TWINCUT" in
  if forceAnalyticalEwald && forceTabulatedEwald
  then Fatal ("Both analytical and tabulated Ewald GPU non-bonded kernels "
              +:+ "requested through environment variables.")
  else
    let c_useTabulatedEwaldDefault :=
      match backend with
      | GMX_GPU_CUDA =>
          ((prop_major deviceInfo =? 7) && (prop_minor deviceInfo =? 0))
          || ((prop_major deviceInfo =? 8) && (prop_minor deviceInfo =? 0))
      | GMX_GPU_HIP => true
      | GMX_GPU_OTHER => false
      end in
    let bUseAnalyticalEwald :=
      if forceAnalyticalEwald then true
      else if forceTabulatedEwald then false
      else negb c_useTabulatedEwaldDefault in
    if negb bTwinCut && negb forceTwinCutoffEwald
    then Done (if bUseAnalyticalEwald then ElecType.EwaldAna else ElecType.EwaldTab)
    else Done (if bUseAnalyticalEwald then ElecType.EwaldAnaTwin
               else ElecType.EwaldTabTwin).

(** ** Pair lists

    The entry types are declared in pairlist.h, which is not among the
    sources; the fields are those the kernel and the upload read. *)
Record nbnxn_sci_t : Type :=
  { sci : Z; shift : Z; cj4_ind_start : Z; cj4_length : Z }.
Record nbnxn_im_ei_t : Type := { imask : Z; excl_ind : Z }.
Record nbnxn_cj4_t : Type := { cj : list Z; imei : list nbnxn_im_ei_t }.
Record nbnxn_excl_t : Type := { pair : list Z }.

(** The host pair list [NbnxnPairlistGpu]. *)
Record NbnxnPairlistGpu : Type :=
  { na_ci : Z;
    h_sci : list nbnxn_sci_t;
    h_cj4 : list nbnxn_cj4_t;
    h_excl : list nbnxn_excl_t }.

(** The device pair list [gpu_plist]. *)
Record gpu_plist : Type :=
  { na_c : Z;
    nsci : Z; sci_nalloc : Z; d_sci : DeviceBuffer nbnxn_sci_t;
    sci_sorted : DeviceBuffer nbnxn_sci_t;
    ncj4 : Z; cj4_nalloc : Z; d_cj4 : DeviceBuffer nbnxn_cj4_t;
    nimask : Z; imask_nalloc : Z; d_imask : DeviceBuffer Z;
    nexcl : Z; excl_nalloc : Z; d_excl : DeviceBuffer nbnxn_excl_t;
    haveFreshList : bool;
    rollingPruningNumParts : Z;
    rollingPruningPart : Z }.

(** [init_plist]: every field it assigns; [sci_sorted] is left as it was. *)
Definition init_plist (pl : gpu_plist) : gpu_plist :=
  {| na_c := -1;
     nsci := -1; sci_nalloc := -1; d_sci := None;
     sci_sorted := sci_sorted pl;
     ncj4 := -1; cj4_nalloc := -1; d_cj4 := None;
     nimask := -1; imask_nalloc := -1; d_imask := None;
     nexcl := -1; excl_nalloc := -1; d_excl := None;
     haveFreshList := false;
     rollingPruningNumParts := 0;
     rollingPruningPart := 0 |}.

Definition set_na_c (pl : gpu_plist) (v : Z) : gpu_plist :=
  {| na_c := v;
     nsci := nsci pl; sci_nalloc := sci_nalloc pl; d_sci := d_sci pl;
     sci_sorted := sci_sorted pl;
     ncj4 := ncj4 pl; cj4_nalloc := cj4_nalloc pl; d_cj4 := d_cj4 pl;
     nimask := nimask pl; imask_nalloc := imask_nalloc pl; d_imask := d_imask pl;
     nexcl := nexcl pl; excl_nalloc := excl_nalloc pl; d_excl := d_excl pl;
     haveFreshList := haveFreshList pl;
     rollingPruningNumParts := rollingPruningNumParts pl;
     rollingPruningPart := rollingPruningPart pl |}.

(** ** Atom data, staging area and the top-level handle *)

(** [Float3] is [gmx::RVec], three floats; [Float2] and [Float4] are the
    HIP vector types. *)
Definition Float3 : Type := float3.
Definition Float2 : Type := float2.
Definition Float4 : Type := float4.

Definition zero_Float3 : Float3 := make_float3 f0 f0 f0.

(** [NBAtomDataGpu] (gpu_types_common.h): the fields this file touches. *)
Record NBAtomDataGpu : Type :=
  { numTypes : Z;
    numAtoms : Z;
    numAtomsLocal : Z;
    numAtomsAlloc : Z;
    xq : DeviceBuffer Float4;
    f : DeviceBuffer Float3;
    atomTypes : DeviceBuffer Z;
    ljComb : DeviceBuffer Float2;
    shiftVec : DeviceBuffer Float3;
    shiftVecUploaded : bool;
    fShift : DeviceBuffer Float3;
    eLJ : DeviceBuffer float;
    eElec : DeviceBuffer float }.

(** [NBStagingData]: pinned host memory the outputs are downloaded to. *)
Record NBStagingData : Type :=
  { st_eLJ : list (option float);
    st_eElec : list (option float);
    st_fShift : list (option Float3) }.

(** [NbnxmGpu] (nbnxm_hip_types.h).  The pair lists are held by pointer,
    null for a locality that is not in use.  Streams, events and timers carry
    no data; of the timers only the flag [didPairlistH2D] is kept. *)
Record NbnxmGpu : Type :=
  { bUseTwoStreams : bool;
    bNonLocalStreamDoneMarked : bool;
    atdat : NBAtomDataGpu;
    vdwType : VdwType.t;
    elecType : ElecType.t;
    plist : EnumerationArray (option gpu_plist);
    nbst : NBStagingData;
    haveWork : EnumerationArray bool;
    bDoTime : bool;
    didPairlistH2D : EnumerationArray bool }.

Definition set_plist (nb : NbnxmGpu) (v : EnumerationArray (option gpu_plist))
           (h2d : EnumerationArray bool) : NbnxmGpu :=
  {| bUseTwoStreams := bUseTwoStreams nb;
     bNonLocalStreamDoneMarked := bNonLocalStreamDoneMarked nb;
     atdat := atdat nb; vdwType := vdwType nb; elecType := elecType nb;
     plist := v; nbst := nbst nb; haveWork := haveWork nb;
     bDoTime := bDoTime nb; didPairlistH2D := h2d |}.

Definition set_haveWork (nb : NbnxmGpu) (v : EnumerationArray bool) : NbnxmGpu :=
  {| bUseTwoStreams := bUseTwoStreams nb;
     bNonLocalStreamDoneMarked := bNonLocalStreamDoneMarked nb;
     atdat := atdat nb; vdwType := vdwType nb; elecType := elecType nb;
     plist := plist nb; nbst := nbst nb; haveWork := v;
     bDoTime := bDoTime nb; didPairlistH2D := didPairlistH2D nb |}.

Definition set_atdat (nb : NbnxmGpu) (v : NBAtomDataGpu) : NbnxmGpu :=
  {| bUseTwoStreams := bUseTwoStreams nb;
     bNonLocalStreamDoneMarked := bNonLocalStreamDoneMarked nb;
     atdat := v; vdwType := vdwType nb; elecType := elecType nb;
     plist := plist nb; nbst := nbst nb; haveWork := haveWork nb;
     bDoTime := bDoTime nb; didPairlistH2D := didPairlistH2D nb |}.

Definition set_download (nb : NbnxmGpu) (marked : bool) (st : NBStagingData) : NbnxmGpu :=
  {| bUseTwoStreams := bUseTwoStreams nb;
     bNonLocalStreamDoneMarked := marked;
     atdat := atdat nb; vdwType := vdwType nb; elecType := elecType nb;
     plist := plist nb; nbst := st; haveWork := haveWork nb;
     bDoTime := bDoTime nb; didPairlistH2D := didPairlistH2D nb |}.

Definition len {A : Type} (l : list A) : Z := Z.of_nat (length l).

Definition is_empty {A : Type} (l : list A) : bool :=
  match l with [] => true | _ :: _ => false end.

(** The bonded-forces collaborator [gmx::ListedForcesGpu], of which only
    [haveInteractions()] is asked. *)
Record ListedForcesGpu : Type := { haveInteractions : bool }.

Section PairlistOps.
(** Declared outside the sources: the growth policy of smalloc.h and the
    constant [c_nbnxnGpuClusterpairSplit] of pairlist.h. *)
Variable over_alloc_large : Z -> Z.
Variable c_nbnxnGpuClusterpairSplit : Z.

(** [gpu_init_pairlist].  Timing regions only bracket the transfers. *)
Definition gpu_init_pairlist (nb : NbnxmGpu) (h_plist : NbnxnPairlistGpu)
           (iloc : InteractionLocality.t) : outcome NbnxmGpu :=
  let bDoTime := bDoTime nb && negb (is_empty (h_sci h_plist)) in
  match ea_get (plist nb) iloc with
  | None => Undefined
  | Some d_plist =>
      d1 ← (if na_c d_plist <? 0
            then Done (set_na_c d_plist (na_ci h_plist))
            else if negb (na_c d_plist =? na_ci h_plist)
                 then Fatal ("In init_plist: the #atoms per cell has changed (from "
                             +:+ pretty (na_c d_plist) +:+ " to "
                             +:+ pretty (na_ci h_plist) +:+ ")")
                 else Done d_plist);
      let h2d := if bDoTime then ea_set (didPairlistH2D nb) iloc true
                 else didPairlistH2D nb in
      let '(sci0, nsci', sci_nalloc') :=
        reallocateDeviceBuffer over_alloc_large (d_sci d1) (len (h_sci h_plist))
                               (nsci d1) (sci_nalloc d1) in
      sci1 ← copyToDeviceBuffer sci0 (h_sci h_plist) 0 (len (h_sci h_plist));
      let '(cj40, ncj4', cj4_nalloc') :=
        reallocateDeviceBuffer over_alloc_large (d_cj4 d1) (len (h_cj4 h_plist))
                               (ncj4 d1) (cj4_nalloc d1) in
      cj41 ← copyToDeviceBuffer cj40 (h_cj4 h_plist) 0 (len (h_cj4 h_plist));
      let '(imask0, nimask', imask_nalloc') :=
        reallocateDeviceBuffer over_alloc_large (d_imask d1)
                               (len (h_cj4 h_plist) * c_nbnxnGpuClusterpairSplit)
                               (nimask d1) (imask_nalloc d1) in
      let '(excl0, nexcl', excl_nalloc') :=
        reallocateDeviceBuffer over_alloc_large (d_excl d1) (len (h_excl h_plist))
                               (nexcl d1) (excl_nalloc d1) in
      excl1 ← copyToDeviceBuffer excl0 (h_excl h_plist) 0 (len (h_excl h_plist));
      let d2 :=
        {| na_c := na_c d1;
           nsci := nsci'; sci_nalloc := sci_nalloc'; d_sci := sci1;
           sci_sorted := sci_sorted d1;
           ncj4 := ncj4'; cj4_nalloc := cj4_nalloc'; d_cj4 := cj41;
           nimask := nimask'; imask_nalloc := imask_nalloc'; d_imask := imask0;
           nexcl := nexcl'; excl_nalloc := excl_nalloc'; d_excl := excl1;
           haveFreshList := true;
           rollingPruningNumParts := rollingPruningNumParts d1;
           rollingPruningPart := rollingPruningPart d1 |} in
      Done (set_plist nb (ea_set (plist nb) iloc (Some d2)) h2d)
  end.
End PairlistOps.

(** [setupGpuShortRangeWork]; [listedForcesGpu] may be null. *)
Definition setupGpuShortRangeWork (nb : NbnxmGpu)
           (listedForcesGpu : option ListedForcesGpu)
           (iLocality : InteractionLocality.t) : outcome NbnxmGpu :=
  match ea_get (plist nb) iLocality with
  | None => Undefined
  | Some pl =>
      let work :=
        negb (nsci pl =? 0)
        || match listedForcesGpu with
           | Some lf => haveInteractions lf
           | None => false
           end in
      Done (set_haveWork nb (ea_set (haveWork nb) iLocality work))
  end.

(** [haveGpuShortRangeWork]. *)
Definition haveGpuShortRangeWork (nb : NbnxmGpu)
           (interactionLocality : InteractionLocality.t) : bool :=
  ea_get (haveWork nb) interactionLocality.

(** ** Atom data *)

(** The host atom data [nbnxn_atomdata_t]: [numAtoms()], [natoms_local],
    [params().lj_comb] (two floats per atom), [params().type] and the force
    output [out[0].f] seen as an array of [Float3]. *)
Record nbnxn_atomdata_t : Type :=
  { nbat_numAtoms : Z;
    natoms_local : Z;
    params_lj_comb : list float;
    params_type : list Z;
    out_f : list (option Float3) }.

(** [reinterpret_cast<const Float2*>] of an array of floats. *)
Fixpoint asFloat2 (l : list float) : list Float2 :=
  match l with
  | a :: b :: rest => make_float2 a b :: asFloat2 rest
  | _ => []
  end.

(** nbnxm_hip_types.h: the sizes of the energy and shift-force
    accumulators, with [mm] telling whether [GMX_ENABLE_MEMORY_MULTIPLIER] is
    defined (it is, in the header as it stands). *)
Definition c_clEnergyMemoryMultiplier (mm : bool) : Z := if mm then 64 else 1.
Definition c_clShiftMemoryMultiplier (mm : bool) : Z := if mm then 64 else 1.
Definition c_clEnergyMemorySize (mm : bool) : Z :=
  if c_clEnergyMemoryMultiplier mm =? 1 then 1 else c_clEnergyMemoryMultiplier mm + 1.
Definition c_clShiftMemorySize (mm : bool) : Z :=
  if c_clShiftMemoryMultiplier mm =? 1 then 1 else c_clShiftMemoryMultiplier mm + 1.

Section AtomDataOps.
(** Declared outside the sources: [over_alloc_small] (smalloc.h),
    [useLjCombRule] (gpu_types_common.h), [gmx::c_numShiftVectors]
    (ishift.h), and the configuration macro above. *)
Variable over_alloc_small : Z -> Z.
Variable useLjCombRule : VdwType.t -> bool.
Variable c_numShiftVectors : Z.
Variable mm : bool.

(** [initAtomdataFirst]. *)
Definition initAtomdataFirst (atomdata : NBAtomDataGpu) (numTypes' : Z)
  : outcome NBAtomDataGpu :=
  let shiftVec' : DeviceBuffer Float3 := allocateDeviceBuffer c_numShiftVectors in
  fShift' ← clearDeviceBufferAsync zero_Float3
             (allocateDeviceBuffer (c_clShiftMemorySize mm * c_numShiftVectors))
             0 (c_clShiftMemorySize mm * c_numShiftVectors);
  eElec' ← clearDeviceBufferAsync f0 (allocateDeviceBuffer (c_clEnergyMemorySize mm))
            0 (c_clEnergyMemorySize mm);
  eLJ' ← clearDeviceBufferAsync f0 (allocateDeviceBuffer (c_clEnergyMemorySize mm))
          0 (c_clEnergyMemorySize mm);
  Done {| numTypes := numTypes';
          numAtoms := -1;
          numAtomsLocal := numAtomsLocal atomdata;
          numAtomsAlloc := -1;
          xq := None;
          f := None;
          atomTypes := atomTypes atomdata;
          ljComb := ljComb atomdata;
          shiftVec := shiftVec';
          shiftVecUploaded := false;
          fShift := fShift';
          eLJ := eLJ';
          eElec := eElec' |}.

(** The reallocation block of [gpu_init_atomdata]: the buffers
    [(f, xq, ljComb, atomTypes)], the capacity and [realloced]. *)
Definition realloc_atomdata (vdw : VdwType.t) (a : NBAtomDataGpu) (numAtoms' : Z)
  : DeviceBuffer Float3 * DeviceBuffer Float4 * DeviceBuffer Float2 * DeviceBuffer Z
    * Z * bool :=
  if numAtomsAlloc a <? numAtoms'
  then
    let numAlloc := over_alloc_small numAtoms' in
    (* free up first if the arrays have already been initialized *)
    let '(f1, xq1, lj1, ty1) :=
      if negb (numAtomsAlloc a =? -1)
      then (freeDeviceBuffer (f a), freeDeviceBuffer (xq a),
            (if useLjCombRule vdw then freeDeviceBuffer (ljComb a) else ljComb a),
            (if useLjCombRule vdw then atomTypes a else freeDeviceBuffer (atomTypes a)))
      else (f a, xq a, ljComb a, atomTypes a) in
    let f2 : DeviceBuffer Float3 := allocateDeviceBuffer numAlloc in
    let xq2 : DeviceBuffer Float4 := allocateDeviceBuffer numAlloc in
    let lj2 := if useLjCombRule vdw then allocateDeviceBuffer numAlloc else lj1 in
    let ty2 := if useLjCombRule vdw then ty1 else allocateDeviceBuffer numAlloc in
    (f2, xq2, lj2, ty2, numAlloc, true)
  else (f a, xq a, ljComb a, atomTypes a, numAtomsAlloc a, false).

(** [gpu_init_atomdata]. *)
Definition gpu_init_atomdata (nb : NbnxmGpu) (nbat : nbnxn_atomdata_t)
  : outcome NbnxmGpu :=
  let a := atdat nb in
  let numAtoms' := nbat_numAtoms nbat in
  let '(f1, xq1, lj1, ty1, numAlloc, realloced) :=
    realloc_atomdata (vdwType nb) a numAtoms' in
  (* need to clear GPU f output if realloc happened *)
  f2 ← (if realloced then clearDeviceBufferAsync zero_Float3 f1 0 numAlloc
        else Done f1);
  lj2 ← (if useLjCombRule (vdwType nb)
         then copyToDeviceBuffer lj1 (asFloat2 (params_lj_comb nbat)) 0 numAtoms'
         else Done lj1);
  ty2 ← (if useLjCombRule (vdwType nb)
         then Done ty1
         else copyToDeviceBuffer ty1 (params_type nbat) 0 numAtoms');
  Done (set_atdat nb
          {| numTypes := numTypes a;
             numAtoms := numAtoms';
             numAtomsLocal := natoms_local nbat;
             numAtomsAlloc := numAlloc;
             xq := xq1;
             f := f2;
             atomTypes := ty2;
             ljComb := lj2;
             shiftVec := shiftVec a;
             shiftVecUploaded := shiftVecUploaded a;
             fShift := fShift a;
             eLJ := eLJ a;
             eElec := eElec a |}).

(** [gpu_clear_outputs]. *)
Definition gpu_clear_outputs (nb : NbnxmGpu) (computeVirial : bool) : outcome NbnxmGpu :=
  let a := atdat nb in
  f' ← clearDeviceBufferAsync zero_Float3 (f a) 0 (numAtoms a);
  '(fShift', eLJ', eElec') ←
    (if computeVirial
     then fs ← clearDeviceBufferAsync zero_Float3 (fShift a) 0
                (c_clShiftMemorySize mm * c_numShiftVectors);
          el ← clearDeviceBufferAsync f0 (eLJ a) 0 (c_clEnergyMemorySize mm);
          ee ← clearDeviceBufferAsync f0 (eElec a) 0 (c_clEnergyMemorySize mm);
          Done (fs, el, ee)
     else Done (fShift a, eLJ a, eElec a));
  Done (set_atdat nb
          {| numTypes := numTypes a;
             numAtoms := numAtoms a;
             numAtomsLocal := numAtomsLocal a;
             numAtomsAlloc := numAtomsAlloc a;
             xq := xq a;
             f := f';
             atomTypes := atomTypes a;
             ljComb := ljComb a;
             shiftVec := shiftVec a;
             shiftVecUploaded := shiftVecUploaded a;
             fShift := fShift';
             eLJ := eLJ';
             eElec := eElec' |}).
End AtomDataOps.

(** ** Download of the results *)

(** The flags of [gmx::StepWorkload] read here. *)
Record StepWorkload : Type :=
  { computeEnergy : bool; computeVirial : bool; useGpuFBufferOps : bool }.

Definition locality_eqb (a b : InteractionLocality.t) : bool :=
  match a, b with
  | InteractionLocality.Local, InteractionLocality.Local => true
  | InteractionLocality.NonLocal, InteractionLocality.NonLocal => true
  | _, _ => false
  end.

Section Download.
(** Declared outside the sources: [atomToInteractionLocality]
    (locality.h), [getGpuAtomRange] (gpu_common_utils.h; the range as
    (begin, size)) and [gmx::c_numShiftVectors]. *)
Variable atomToInteractionLocality : AtomLocality.t -> InteractionLocality.t.
Variable getGpuAtomRange : NBAtomDataGpu -> AtomLocality.t -> Z * Z.
Variable c_numShiftVectors : Z.

(** [gpu_launch_cpyback].  The sum-up kernel launch that precedes the
    transfers of the local stream is commented out in the source, so nothing
    of it is executed.  Returns the handle and the host force output. *)
Definition gpu_launch_cpyback (nb : NbnxmGpu) (nbatom : nbnxn_atomdata_t)
           (stepWork : StepWorkload) (atomLocality : AtomLocality.t)
  : outcome (NbnxmGpu * list (option Float3)) :=
  let iloc := atomToInteractionLocality atomLocality in
  let adat := atdat nb in
  (* don't launch non-local copy-back if there was no non-local work to do *)
  if locality_eqb iloc InteractionLocality.NonLocal
     && negb (haveGpuShortRangeWork nb iloc)
  then Done (set_download nb false (nbst nb), out_f nbatom)
  else
    let '(range_begin, range_size) := getGpuAtomRange adat atomLocality in
    (* the local D2H waits for the non-local one *)
    let marked1 :=
      if locality_eqb iloc InteractionLocality.Local && bNonLocalStreamDoneMarked nb
      then false else bNonLocalStreamDoneMarked nb in
    (* DtoH f *)
    out' ← (if negb (useGpuFBufferOps stepWork)
            then copyFromDeviceBuffer (out_f nbatom) range_begin (f adat)
                                      range_begin range_size
            else Done (out_f nbatom));
    let marked2 :=
      if locality_eqb iloc InteractionLocality.NonLocal then true else marked1 in
    (* only transfer energies in the local stream *)
    if locality_eqb iloc InteractionLocality.Local
    then
      (* DtoH fshift when virial is needed *)
      fs ← (if computeVirial stepWork
            then copyFromDeviceBuffer (st_fShift (nbst nb)) 0 (fShift adat)
                                      0 c_numShiftVectors
            else Done (st_fShift (nbst nb)));
      (* DtoH energies *)
      '(el, ee) ←
        (if computeEnergy stepWork
         then el ← copyFromDeviceBuffer (st_eLJ (nbst nb)) 0 (eLJ adat) 0 1;
              ee ← copyFromDeviceBuffer (st_eElec (nbst nb)) 0 (eElec adat) 0 1;
              Done (el, ee)
         else Done (st_eLJ (nbst nb), st_eElec (nbst nb)));
      Done (set_download nb marked2
              {| st_eLJ := el; st_eElec := ee; st_fShift := fs |}, out')
    else Done (set_download nb marked2 (nbst nb), out').
End Download.


(** ** Selection of the kernel types

    The enumerations of md_enums.h and of the atom data are not among the
    sources; each is given with the enumerators this file names and one
    constructor for all the others. *)
Module VanDerWaalsType.
Inductive t : Type := Cut | Pme | Other (name : string).
End VanDerWaalsType.

Module InteractionModifiers.
Inductive t : Type := None | PotShift | ForceSwitch | PotSwitch | Other (name : string).
End InteractionModifiers.

Module LJCombinationRule.
Inductive t : Type := None | Geometric | LorentzBerthelot | Other (name : string).
End LJCombinationRule.

Module LongRangeVdW.
Inductive t : Type := Geom | Other (name : string).
End LongRangeVdW.

Module CoulombInteractionType.
Inductive t : Type := Cut | Ewald | Other (name : string).
End CoulombInteractionType.

(** The fields of [interaction_const_t] the selection of the kernel types
    reads, next to the cut-offs: the interaction types, the modifier, the
    LJ-PME combination rule and whether [coulombEwaldTables] is set. *)
Record interaction_const_types : Type :=
  { ic_cutoffs : interaction_const_t;
    eeltype : CoulombInteractionType.t;
    vdwtype : VanDerWaalsType.t;
    vdw_modifier : InteractionModifiers.t;
    ljpme_comb_rule : LongRangeVdW.t;
    coulombEwaldTables : bool }.

(** [nbnxmGpuPickVdwKernelType].  [GMX_THROW] and [GMX_RELEASE_ASSERT] end
    the call with a message; the messages are given without the enumerator
    name that [enumValueToString] inserts. *)
Definition nbnxmGpuPickVdwKernelType (ic : interaction_const_types)
           (ljCombinationRule : LJCombinationRule.t) : outcome VdwType.t :=
  match vdwtype ic with
  | VanDerWaalsType.Cut =>
      match vdw_modifier ic with
      | InteractionModifiers.None | InteractionModifiers.PotShift =>
          match ljCombinationRule with
          | LJCombinationRule.None => Done VdwType.Cut
          | LJCombinationRule.Geometric => Done VdwType.CutCombGeom
          | LJCombinationRule.LorentzBerthelot => Done VdwType.CutCombLB
          | LJCombinationRule.Other _ =>
              Fatal ("The requested LJ combination rule is not implemented in "
                     +:+ "the GPU accelerated kernels!")
          end
      | InteractionModifiers.ForceSwitch => Done VdwType.FSwitch
      | InteractionModifiers.PotSwitch => Done VdwType.PSwitch
      | InteractionModifiers.Other _ =>
          Fatal ("The requested VdW interaction modifier is not "
                 +:+ "implemented in the GPU accelerated kernels!")
      end
  | VanDerWaalsType.Pme =>
      match ljpme_comb_rule ic with
      | LongRangeVdW.Geom =>
          match ljCombinationRule with
          | LJCombinationRule.Geometric => Done VdwType.EwaldGeom
          | _ => Fatal ("Combination rules for long- and short-range interactions "
                        +:+ "should match.")
          end
      | LongRangeVdW.Other _ =>
          match ljCombinationRule with
          | LJCombinationRule.LorentzBerthelot => Done VdwType.EwaldLB
          | _ => Fatal ("Combination rules for long- and short-range interactions "
                        +:+ "should match.")
          end
      end
  | VanDerWaalsType.Other _ =>
      Fatal "The requested VdW type is not implemented in the GPU accelerated kernels!"
  end.

Section ElectrostaticsKernelType.
(** The macros [EEL_RF] and [EEL_PME] of md_enums.h are not among the
    sources. *)
Variable EEL_RF : CoulombInteractionType.t -> bool.
Variable EEL_PME : CoulombInteractionType.t -> bool.

(** [nbnxmGpuPickElectrostaticsKernelType]. *)
Definition nbnxmGpuPickElectrostaticsKernelType
           (backend : GpuBackend) (env : Environment)
           (ic : interaction_const_types) (deviceInfo : DeviceInformation)
  : outcome ElecType.t :=
  match eeltype ic with
  | CoulombInteractionType.Cut => Done ElecType.Cut
  | e =>
      if EEL_RF e then Done ElecType.RF
      else if EEL_PME e
              || match e with CoulombInteractionType.Ewald => true | _ => false end
           then nbnxn_gpu_pick_ewald_kernel_type backend env (ic_cutoffs ic) deviceInfo
           else Fatal ("The requested electrostatics type is not implemented in "
                       +:+ "the GPU accelerated kernels!")
  end.
End ElectrostaticsKernelType.

(** [gpu_is_kernel_ewald_analytical]; [nb->nbparam->elecType] is the field
    [elecType] of the handle. *)
Definition gpu_is_kernel_ewald_analytical (nb : NbnxmGpu) : bool :=
  match elecType nb with
  | ElecType.EwaldAna | ElecType.EwaldAnaTwin => true
  | _ => false
  end.

(** ** Uploads of the shift vectors and of the coordinates *)

(** The fields of [nbnxn_atomdata_t] these uploads read: [bDynamicBox],
    [shift_vec] and the coordinates [x()] in the format [nbatXYZQ], seen as
    an array of [Float4]. *)
Record nbnxn_atomdata_xq : Type :=
  { bDynamicBox : bool;
    shift_vec : list Float3;
    x_xyzq : list Float4 }.

Definition set_shiftVec (a : NBAtomDataGpu) (v : DeviceBuffer Float3) (uploaded : bool)
  : NBAtomDataGpu :=
  {| numTypes := numTypes a; numAtoms := numAtoms a;
     numAtomsLocal := numAtomsLocal a; numAtomsAlloc := numAtomsAlloc a;
     xq := xq a; f := f a; atomTypes := atomTypes a; ljComb := ljComb a;
     shiftVec := v; shiftVecUploaded := uploaded;
     fShift := fShift a; eLJ := eLJ a; eElec := eElec a |}.

Definition set_xq (a : NBAtomDataGpu) (v : DeviceBuffer Float4) : NBAtomDataGpu :=
  {| numTypes := numTypes a; numAtoms := numAtoms a;
     numAtomsLocal := numAtomsLocal a; numAtomsAlloc := numAtomsAlloc a;
     xq := v; f := f a; atomTypes := atomTypes a; ljComb := ljComb a;
     shiftVec := shiftVec a; shiftVecUploaded := shiftVecUploaded a;
     fShift := fShift a; eLJ := eLJ a; eElec := eElec a |}.

Definition set_haveFreshList (pl : gpu_plist) (v : bool) : gpu_plist :=
  {| na_c := na_c pl;
     nsci := nsci pl; sci_nalloc := sci_nalloc pl; d_sci := d_sci pl;
     sci_sorted := sci_sorted pl;
     ncj4 := ncj4 pl; cj4_nalloc := cj4_nalloc pl; d_cj4 := d_cj4 pl;
     nimask := nimask pl; imask_nalloc := imask_nalloc pl; d_imask := d_imask pl;
     nexcl := nexcl pl; excl_nalloc := excl_nalloc pl; d_excl := d_excl pl;
     haveFreshList := v;
     rollingPruningNumParts := rollingPruningNumParts pl;
     rollingPruningPart := rollingPruningPart pl |}.

Section Uploads.
(** Declared outside the sources, as for the download. *)
Variable atomToInteractionLocality : AtomLocality.t -> InteractionLocality.t.
Variable getGpuAtomRange : NBAtomDataGpu -> AtomLocality.t -> Z * Z.
Variable c_numShiftVectors : Z.

(** [gpu_upload_shiftvec]. *)
Definition gpu_upload_shiftvec (nb : NbnxmGpu) (nbatom : nbnxn_atomdata_xq)
  : outcome NbnxmGpu :=
  let adat := atdat nb in
  (* only if we have a dynamic box *)
  if bDynamicBox nbatom || negb (shiftVecUploaded adat)
  then sv ← copyToDeviceBuffer (shiftVec adat) (shift_vec nbatom) 0 c_numShiftVectors;
       Done (set_atdat nb (set_shiftVec adat sv true))
  else Done nb.

(** [gpu_copy_xq_to_gpu].  [nbnxnInsertNonlocalGpuDependency], called
    last, only marks an event or waits for it; the events carry no data. *)
Definition gpu_copy_xq_to_gpu (nb : NbnxmGpu) (nbatom : nbnxn_atomdata_xq)
           (atomLocality : AtomLocality.t) : outcome NbnxmGpu :=
  let iloc := atomToInteractionLocality atomLocality in
  let adat := atdat nb in
  (* Don't launch the non-local H2D copy if there is no dependent work to do *)
  if locality_eqb iloc InteractionLocality.NonLocal
     && negb (haveGpuShortRangeWork nb iloc)
  then match ea_get (plist nb) iloc with
       | None => Undefined
       | Some pl =>
           Done (set_plist nb (ea_set (plist nb) iloc (Some (set_haveFreshList pl false)))
                           (didPairlistH2D nb))
       end
  else
    let '(range_begin, range_size) := getGpuAtomRange adat atomLocality in
    (* HtoD x, q *)
    xq' ← copyToDeviceBuffer (xq adat) (drop (Z.to_nat range_begin) (x_xyzq nbatom))
                             range_begin range_size;
    Done (set_atdat nb (set_xq adat xq')).
End Uploads.

End DataMgmt.

Import DataMgmt.

(* ===================================================================== *)
(** * gromacs/nbnxm/hip/nbnxm_hip_kernel.hpp                               *)
(* ===================================================================== *)

Module Kernel.

(** ** Kernel flavours

    The file is included once per combination of preprocessor macros.  One
    electrostatics macro and at most one Lennard-Jones macro are defined per
    inclusion. *)
Inductive ElMacro : Type := EL_CUTOFF | EL_RF | EL_EWALD_ANA | EL_EWALD_TAB.
Inductive LjMacro : Type :=
| LJ_NONE | LJ_COMB_GEOM | LJ_COMB_LB | LJ_FORCE_SWITCH | LJ_POT_SWITCH
| LJ_EWALD_COMB_GEOM | LJ_EWALD_COMB_LB.

Record Flavor : Type :=
  { CALC_ENERGIES : bool;
    PRUNE_NBL : bool;
    VDW_CUTOFF_CHECK : bool;
    el : ElMacro;
    lj : LjMacro }.

Definition EL_EWALD_ANY (fl : Flavor) : bool :=
  match el fl with EL_EWALD_ANA | EL_EWALD_TAB => true | _ => false end.
Definition LJ_EWALD (fl : Flavor) : bool :=
  match lj fl with LJ_EWALD_COMB_GEOM | LJ_EWALD_COMB_LB => true | _ => false end.
Definition is_EL_RF (fl : Flavor) : bool :=
  match el fl with EL_RF => true | _ => false end.
Definition is_EL_CUTOFF (fl : Flavor) : bool :=
  match el fl with EL_CUTOFF => true | _ => false end.
Definition EXCLUSION_FORCES (fl : Flavor) : bool :=
  EL_EWALD_ANY fl || is_EL_RF fl || LJ_EWALD fl
  || (is_EL_CUTOFF fl && CALC_ENERGIES fl).
Definition LJ_COMB (fl : Flavor) : bool :=
  match lj fl with LJ_COMB_GEOM | LJ_COMB_LB => true | _ => false end.
Definition is_LJ_COMB_LB (fl : Flavor) : bool :=
  match lj fl with LJ_COMB_LB => true | _ => false end.
Definition is_LJ_POT_SWITCH (fl : Flavor) : bool :=
  match lj fl with LJ_POT_SWITCH => true | _ => false end.

(** ** Sizes

    Modelled from the spec: the cluster geometry of pairlist.h, which is
    not among the sources: 8 clusters per super-cluster, 8 atoms per cluster
    (64 threads, one wavefront, per block), j-clusters in groups of 4, and no
    splitting of a cluster pair over wavefronts. *)
Definition c_nbnxnGpuNumClusterPerSupercluster : Z := 8.
Definition c_clSize : Z := 8.
Definition c_nbnxnGpuJgroupSize : Z := 4.
Definition c_nbnxnGpuClusterpairSplit : Z := 1.
Definition warpSize : Z := 64.
Definition c_subWarp : Z := warpSize / c_nbnxnGpuClusterpairSplit.
Definition NTHREAD_Z : Z := 1.

(** [unsigned int] arithmetic wraps modulo [2^32]. *)
Definition u32 (x : Z) : Z := x mod 2 ^ 32.
Definition u32_not (x : Z) : Z := Z.lxor (u32 x) (2 ^ 32 - 1).

Definition superClInteractionMask : Z :=
  u32 (Z.shiftl 1 c_nbnxnGpuNumClusterPerSupercluster - 1).

(** The parameters the kernel reads from [NBParamGpu]; the lookup tables
    in it are reached through the helpers below. *)
Record NBParamGpu : Type :=
  { epsfac : float;
    rcoulomb_sq : float;
    rvdw_sq : float;
    rlistOuter_sq : float;
    two_k_rf : float;
    c_rf : float;
    ewald_beta : float;
    sh_ewald : float;
    ewaldcoeff_lj : float;
    repulsion_shift_cpot : float;
    dispersion_shift_cpot : float }.

(** What the kernel is given: device arrays as maps from index to element
    (the kernel only reads the indices the pair list names), and the launch
    arguments. *)
Record KernelArgs : Type :=
  { k_xq : Z -> float4;
    k_atomTypes : Z -> Z;
    k_ljComb : Z -> float2;
    k_shiftVec : Z -> float3;
    k_numTypes : Z;
    nbparam : NBParamGpu;
    pl_sci : Z -> nbnxn_sci_t;
    pl_excl : Z -> nbnxn_excl_t;
    pl_cj4 : Z -> nbnxn_cj4_t;
    bCalcFshift : bool }.

(** A thread of the block: [threadIdx.x] and [threadIdx.y]. *)
Record Thread : Type := { tidxi : Z; tidxj : Z }.

Definition tidx (t : Thread) : Z := tidxj t * c_clSize + tidxi t.

(** [widx]: the block is one wavefront. *)
Definition widx (t : Thread) : Z :=
  if c_clSize * c_clSize =? warpSize then 0 else tidx t / c_subWarp.

(** ** Device helpers

    The intrinsics of the HIP runtime, the helpers of
    nbnxm_hip_kernel_utils.hpp and the constants of the math and pair-list
    headers: none of them is among the sources, so the kernel is written over
    an arbitrary implementation of them.  A helper that writes through
    [float*] arguments returns the values written. *)
Record DeviceLib : Type :=
  { __frsqrt_rn : float -> float;
    erff : float -> float;
    pmecorrF : float -> float;
    interpolate_coulomb_force_r : NBParamGpu -> float -> float;
    fetch_nbfp_c6_c12 : NBParamGpu -> Z -> float2;
    fetch_nbfp_c6 : NBParamGpu -> Z -> float;
    convert_sigma_epsilon_to_c6_c12 : float -> float -> float2;
    calculate_force_switch_F :
      NBParamGpu -> float2 -> float -> float -> float -> float;
    calculate_force_switch_F_E :
      NBParamGpu -> float2 -> float -> float -> float -> float -> float * float;
    calculate_lj_ewald_comb_geom_F :
      NBParamGpu -> Z -> Z -> float -> float -> float -> float -> float -> float;
    calculate_lj_ewald_comb_geom_F_E :
      NBParamGpu -> Z -> Z -> float -> float -> float -> float -> float
      -> float -> float -> float * float;
    calculate_lj_ewald_comb_LB_F_E :
      NBParamGpu -> Z -> Z -> float -> float -> float -> float -> float
      -> float -> option float -> float * option float;
    calculate_potential_switch_F :
      NBParamGpu -> float -> float -> float -> float -> float * float;
    calculate_potential_switch_F_E :
      NBParamGpu -> float -> float -> float -> float -> float * float;
    c_nbnxnMinDistanceSquared : float;
    c_oneSixth : float;
    c_oneTwelveth : float;
    M_FLOAT_1_SQRTPI : float;
    c_centralShiftIndex : Z;
    c_numShiftVectors : Z }.

(** HIP's [operator*(float2, float2)]. *)
Definition float2_mul (a b : float2) : float2 :=
  make_float2 (f2_x a * f2_x b)%f32 (f2_y a * f2_y b)%f32.

Section PairInteraction.
Variable D : DeviceLib.
Variable fl : Flavor.
Variable nbp : NBParamGpu.

(** The argument the kernel passes to [__frsqrt_rn]. *)
Definition rsqrt_argument (r2 : float) : float :=
  fmax r2 (c_nbnxnMinDistanceSquared D).

(** The Lennard-Jones parameters of the pair: [c6c12], [sigma] and
    [epsilon].  A variable the flavour leaves unassigned is not read
    afterwards; it is given the value zero here. *)
Definition lj_parameters (ntypes typei typej : Z) (ljcp_i ljcp_j : float2)
  : float2 * float * float :=
  let unset := make_float2 f0 f0 in
  if negb (LJ_COMB fl)
  then (fetch_nbfp_c6_c12 D nbp (ntypes * typei + typej), f0, f0)
  else match lj fl with
       | LJ_COMB_GEOM => (float2_mul ljcp_i ljcp_j, f0, f0)
       | _ =>
           let sigma := (f2_x ljcp_i + f2_x ljcp_j)%f32 in
           let epsilon := (f2_y ljcp_i * f2_y ljcp_j)%f32 in
           ((if CALC_ENERGIES fl
                || match lj fl with LJ_FORCE_SWITCH | LJ_POT_SWITCH => true
                                  | _ => false end
             then convert_sigma_epsilon_to_c6_c12 D sigma epsilon
             else unset),
            sigma, epsilon)
       end.

(** The body of the cutoff test: from the squared distance [r2], the
    exclusion bit [int_bit], the charges and the Lennard-Jones data of the two
    atoms, the scalar [F_invr] and the two terms the body adds to the energy
    sums, [E_lj += E_lj_p] and [E_el += E_el_p] (both under
    [CALC_ENERGIES]). *)
Definition pair_interaction
           (ntypes : Z) (lje_coeff2 lje_coeff6_6 : float)
           (r2_in int_bit qi qj_f : float)
           (typei typej : Z) (ljcp_i ljcp_j : float2)
  : float * float * float :=
  let '(c6c12, sigma, epsilon) := lj_parameters ntypes typei typej ljcp_i ljcp_j in
  (* Ensure distance do not become so small that r^-12 overflows *)
  let r2 := rsqrt_argument r2_in in
  let inv_r := __frsqrt_rn D r2 in
  let inv_r2 := (inv_r * inv_r)%f32 in
  let '(F_invr, E_lj_p) :=
    if negb (is_LJ_COMB_LB fl) || CALC_ENERGIES fl
    then
      let inv_r6 := (inv_r2 * inv_r2 * inv_r2)%f32 in
      let inv_r6 := if EXCLUSION_FORCES fl then (inv_r6 * int_bit)%f32 else inv_r6 in
      let F := (inv_r6 * (f2_y c6c12 * inv_r6 - f2_x c6c12) * inv_r2)%f32 in
      let E :=
        if CALC_ENERGIES fl || is_LJ_POT_SWITCH fl
        then (int_bit
              * (f2_y c6c12 * (inv_r6 * inv_r6 + repulsion_shift_cpot nbp)
                 * c_oneTwelveth D
                 - f2_x c6c12 * (inv_r6 + dispersion_shift_cpot nbp)
                   * c_oneSixth D))%f32
        else f0 in
      (F, E)
    else
      let sig_r := (sigma * inv_r)%f32 in
      let sig_r2 := (sig_r * sig_r)%f32 in
      let sig_r6 := (sig_r2 * sig_r2 * sig_r2)%f32 in
      let sig_r6 := if EXCLUSION_FORCES fl then (sig_r6 * int_bit)%f32 else sig_r6 in
      ((epsilon * sig_r6 * (sig_r6 - f1) * inv_r2)%f32, f0) in
  let '(F_invr, E_lj_p) :=
    match lj fl with
    | LJ_FORCE_SWITCH =>
        if CALC_ENERGIES fl
        then calculate_force_switch_F_E D nbp c6c12 inv_r r2 F_invr E_lj_p
        else (calculate_force_switch_F D nbp c6c12 inv_r r2 F_invr, E_lj_p)
    | LJ_EWALD_COMB_GEOM =>
        if CALC_ENERGIES fl
        then calculate_lj_ewald_comb_geom_F_E D nbp typei typej r2 inv_r2
               lje_coeff2 lje_coeff6_6 int_bit F_invr E_lj_p
        else (calculate_lj_ewald_comb_geom_F D nbp typei typej r2 inv_r2
                lje_coeff2 lje_coeff6_6 F_invr, E_lj_p)
    | LJ_EWALD_COMB_LB =>
        if CALC_ENERGIES fl
        then let '(F, E) := calculate_lj_ewald_comb_LB_F_E D nbp typei typej r2 inv_r2
                              lje_coeff2 lje_coeff6_6 int_bit F_invr (Some E_lj_p) in
             (F, default E_lj_p E)
        else (fst (calculate_lj_ewald_comb_LB_F_E D nbp typei typej r2 inv_r2
                     lje_coeff2 lje_coeff6_6 f0 F_invr None), E_lj_p)
    | LJ_POT_SWITCH =>
        if CALC_ENERGIES fl
        then calculate_potential_switch_F_E D nbp inv_r r2 F_invr E_lj_p
        else calculate_potential_switch_F D nbp inv_r r2 F_invr E_lj_p
    | _ => (F_invr, E_lj_p)
    end in
  let '(F_invr, E_lj_p) :=
    if VDW_CUTOFF_CHECK fl
    then let vdw_in_range := if (r2 <? rvdw_sq nbp)%f32 then f1 else f0 in
         ((F_invr * vdw_in_range)%f32,
          if CALC_ENERGIES fl then (E_lj_p * vdw_in_range)%f32 else E_lj_p)
    else (F_invr, E_lj_p) in
  let F_invr :=
    match el fl with
    | EL_CUTOFF =>
        if EXCLUSION_FORCES fl
        then (F_invr + qi * qj_f * int_bit * inv_r2 * inv_r)%f32
        else (F_invr + qi * qj_f * inv_r2 * inv_r)%f32
    | EL_RF => (F_invr + qi * qj_f * (int_bit * inv_r2 * inv_r - two_k_rf nbp))%f32
    | EL_EWALD_ANA =>
        let beta2 := (ewald_beta nbp * ewald_beta nbp)%f32 in
        let beta3 := (ewald_beta nbp * ewald_beta nbp * ewald_beta nbp)%f32 in
        (F_invr + qi * qj_f
                  * (int_bit * inv_r2 * inv_r + pmecorrF D (beta2 * r2) * beta3))%f32
    | EL_EWALD_TAB =>
        (F_invr + qi * qj_f
                  * (int_bit * inv_r2
                     - interpolate_coulomb_force_r D nbp (r2 * inv_r))
                  * inv_r)%f32
    end in
  let E_el_p :=
    match el fl with
    | EL_CUTOFF => (qi * qj_f * (int_bit * inv_r - c_rf nbp))%f32
    | EL_RF =>
        (qi * qj_f * (int_bit * inv_r + fhalf * two_k_rf nbp * r2 - c_rf nbp))%f32
    | _ =>
        (qi * qj_f
         * (inv_r * (int_bit - erff D (r2 * inv_r * ewald_beta nbp))
            - int_bit * sh_ewald nbp))%f32
    end in
  (F_invr, E_lj_p, E_el_p).
End PairInteraction.

(** ** One thread of the block *)

#[global] Instance fast_float3_inhabited : Inhabited fast_float3 :=
  populate (make_fast_float3 f0).

(** The registers that live across the loops. *)
Record Regs : Type :=
  { r_imask : Z;
    fcj_buf : fast_float3;
    fci_buf : list fast_float3;
    E_lj : float;
    E_el : float }.

(** The shared-memory arrays filled by the pre-load. *)
Record Shmem : Type :=
  { xqib : Z -> float4;
    atib : Z -> Z;
    ljcpib : Z -> float2 }.

(** [(wexcl >> n) & 1], then converted to [float]. *)
Definition excl_bit (wexcl n : Z) : float :=
  if Z.land (Z.shiftr wexcl n) 1 =? 0 then f0 else f1.

Section Thread.
Variable D : DeviceLib.
Variable fl : Flavor.
Variable args : KernelArgs.
Variable bidx : Z.
Variable t : Thread.

(** [__nb_any(r2 < rlist_sq, widx)] at the cluster pair [(j4, jm, i)]: a
    vote over the wavefront, which a single thread cannot compute. *)
Variable nb_any : Z -> Z -> Z -> bool.

Definition nb_sci : nbnxn_sci_t := pl_sci args bidx.
Definition cij4_start : Z := cj4_ind_start nb_sci.
Definition cij4_end : Z := cj4_ind_start nb_sci + cj4_length nb_sci.

(** The pre-load of the i-atoms: thread [(tidxi, tidxj)] stores at
    [tidxj * c_clSize + tidxi]; after the barrier all of it is visible. *)
Definition preload_xq (k : Z) : float4 :=
  let ci := sci nb_sci * c_nbnxnGpuNumClusterPerSupercluster + k / c_clSize in
  let ai := ci * c_clSize + k mod c_clSize in
  let shift_v := k_shiftVec args (shift nb_sci) in
  let xqbuf := k_xq args ai in
  make_float4 (- (f4_x xqbuf + f3_x shift_v))%f32
              (- (f4_y xqbuf + f3_y shift_v))%f32
              (- (f4_z xqbuf + f3_z shift_v))%f32
              (f4_w xqbuf * epsfac (nbparam args))%f32.

Definition preload : Shmem :=
  let ai k := (sci nb_sci * c_nbnxnGpuNumClusterPerSupercluster + k / c_clSize)
              * c_clSize + k mod c_clSize in
  {| xqib := preload_xq;
     atib := fun k => k_atomTypes args (ai k);
     ljcpib := fun k => k_ljComb args (ai k) |}.

Definition lje_coeff2 : float :=
  (ewaldcoeff_lj (nbparam args) * ewaldcoeff_lj (nbparam args))%f32.
Definition lje_coeff6_6 : float :=
  (lje_coeff2 * lje_coeff2 * lje_coeff2 * c_oneSixth D)%f32.

Definition nonSelfInteraction : bool :=
  negb ((shift nb_sci =? c_centralShiftIndex D) && (tidxj t <=? tidxi t)).

(** The vector between the atoms and its squared length. *)
Definition pair_rv (sh : Shmem) (i : Z) (xj : fast_float3) : fast_float3 :=
  ff_add (make_fast_float3_4 (xqib sh (i * c_clSize + tidxi t))) xj.

(** "cutoff & exclusion check". *)
Definition cutoff_exclusion_check (r2 int_bit : float) (ci cj_ : Z) : bool :=
  if EXCLUSION_FORCES fl
  then (r2 <? rcoulomb_sq (nbparam args))%f32
       && negb (ci =? (if nonSelfInteraction then -1 else cj_))
  else truthy (of_bit (r2 <? rcoulomb_sq (nbparam args))%f32 * int_bit)%f32.

(** One iteration of the loop over the i-clusters, on the registers and
    [mask_ji]. *)
Definition i_iteration (sh : Shmem) (j4 jm cj_ : Z) (xj : fast_float3) (qj_f : float)
           (typej : Z) (ljcp_j : float2) (wexcl : Z)
           (st : Regs * Z) (i : Z) : Regs * Z :=
  let '(r, mask_ji) := st in
  let r' :=
    if negb (Z.land (r_imask r) mask_ji =? 0)
    then
      let ci := sci nb_sci * c_nbnxnGpuNumClusterPerSupercluster + i in
      let xqbuf := xqib sh (i * c_clSize + tidxi t) in
      let rv := pair_rv sh i xj in
      let r2 := ff_norm2 rv in
      let imask' :=
        if PRUNE_NBL fl && negb (nb_any j4 jm i)
        then Z.land (r_imask r) (u32_not mask_ji)
        else r_imask r in
      let int_bit := excl_bit wexcl (jm * c_nbnxnGpuNumClusterPerSupercluster + i) in
      if cutoff_exclusion_check r2 int_bit ci cj_
      then
        let qi := f4_w xqbuf in
        let typei := atib sh (i * c_clSize + tidxi t) in
        let ljcp_i := ljcpib sh (i * c_clSize + tidxi t) in
        let '(F_invr, E_lj_p, E_el_p) :=
          pair_interaction D fl (nbparam args) (k_numTypes args)
                           lje_coeff2 lje_coeff6_6 r2 int_bit qi qj_f
                           typei typej ljcp_i ljcp_j in
        let f_ij := ff_mul_s rv F_invr in
        {| r_imask := imask';
           (* accumulate j forces in registers *)
           fcj_buf := ff_add (fcj_buf r) f_ij;
           (* accumulate i forces in registers *)
           fci_buf := <[Z.to_nat i := ff_sub (fci_buf r !!! Z.to_nat i) f_ij]> (fci_buf r);
           E_lj := if CALC_ENERGIES fl then (E_lj r + E_lj_p)%f32 else E_lj r;
           E_el := if CALC_ENERGIES fl then (E_el r + E_el_p)%f32 else E_el r |}
      else
        {| r_imask := imask'; fcj_buf := fcj_buf r; fci_buf := fci_buf r;
           E_lj := E_lj r; E_el := E_el r |}
    else r in
  (* shift the mask bit by 1 *)
  (r', u32 (mask_ji + mask_ji)).

(** What a thread hands to the reductions: per processed j-cluster the
    atom index [aj] and its [fcj_buf], in program order; the registers at the
    end of the loops; and, when pruning, the masks it stores back. *)
Record ThreadOut : Type :=
  { regs : Regs;
    j_out : list (Z * fast_float3);
    imask_out : list (Z * Z) }.

Definition set_fcj (r : Regs) (v : fast_float3) : Regs :=
  {| r_imask := r_imask r; fcj_buf := v; fci_buf := fci_buf r;
     E_lj := E_lj r; E_el := E_el r |}.

Definition set_imask (r : Regs) (v : Z) : Regs :=
  {| r_imask := v; fcj_buf := fcj_buf r; fci_buf := fci_buf r;
     E_lj := E_lj r; E_el := E_el r |}.

(** One iteration of the loop over the j-clusters of a group. *)
Definition jm_iteration (sh : Shmem) (j4 wexcl : Z)
           (st : Regs * list (Z * fast_float3)) (jm : Z)
  : Regs * list (Z * fast_float3) :=
  let '(r, out) := st in
  let maskSet :=
    negb (Z.land (r_imask r)
                 (u32 (Z.shiftl superClInteractionMask
                                (jm * c_nbnxnGpuNumClusterPerSupercluster))) =? 0) in
  if negb maskSet then st
  else
    let mask_ji := u32 (Z.shiftl 1 (jm * c_nbnxnGpuNumClusterPerSupercluster)) in
    let cj_ := nth (Z.to_nat jm) (cj (pl_cj4 args j4)) 0 in
    let aj := cj_ * c_clSize + tidxj t in
    (* load j atom data *)
    let xqbuf := k_xq args aj in
    let xj := make_fast_float3_4 xqbuf in
    let qj_f := f4_w xqbuf in
    let typej := k_atomTypes args aj in
    let ljcp_j := k_ljComb args aj in
    let r0 := set_fcj r (make_fast_float3 f0) in
    let '(r1, _) :=
      foldl (i_iteration sh j4 jm cj_ xj qj_f typej ljcp_j wexcl) (r0, mask_ji)
            (seqZ 0 c_nbnxnGpuNumClusterPerSupercluster) in
    (* reduce j forces *)
    (r1, out ++ [(aj, fcj_buf r1)]).

(** One iteration of the loop over the groups of j-clusters. *)
Definition j4_iteration (sh : Shmem) (st : ThreadOut) (j4 : Z) : ThreadOut :=
  let entry := nth (Z.to_nat (widx t)) (imei (pl_cj4 args j4))
                   {| imask := 0; excl_ind := 0 |} in
  let imask0 := imask entry in
  if negb (PRUNE_NBL fl) && (imask0 =? 0) then st
  else
    let wexcl_idx := excl_ind entry in
    let wexcl := nth (Z.to_nat (Z.land (tidx t) (c_subWarp - 1)))
                     (pair (pl_excl args wexcl_idx)) 0 in
    let '(r1, out1) :=
      foldl (jm_iteration sh j4 wexcl) (set_imask (regs st) imask0, j_out st)
            (seqZ 0 c_nbnxnGpuJgroupSize) in
    {| regs := r1;
       j_out := out1;
       imask_out := if PRUNE_NBL fl then imask_out st ++ [(j4, r_imask r1)]
                    else imask_out st |}.

(** The self-interaction terms added on the diagonal, [(E_lj, E_el)]. *)
Definition self_energy (sh : Shmem) : float * float :=
  if CALC_ENERGIES fl && EXCLUSION_FORCES fl
     && (shift nb_sci =? c_centralShiftIndex D)
     && (nth 0 (cj (pl_cj4 args cij4_start)) 0
         =? sci nb_sci * c_nbnxnGpuNumClusterPerSupercluster)
  then
    let '(E_lj0, E_el0) :=
      foldl (fun (acc : float * float) i =>
               let qi := f4_w (xqib sh (i * c_clSize + tidxi t)) in
               ((if LJ_EWALD fl
                 then (acc.1 + fetch_nbfp_c6 D (nbparam args)
                                 (atib sh (i * c_clSize + tidxi t)
                                  * (k_numTypes args + 1)))%f32
                 else acc.1),
                (acc.2 + qi * qi)%f32))
            (f0, f0) (seqZ 0 c_nbnxnGpuNumClusterPerSupercluster) in
    (* divide the self term(s) equally over the j-threads *)
    let E_lj1 :=
      if LJ_EWALD fl
      then (E_lj0 / pow2 3 * (fhalf * c_oneSixth D * lje_coeff6_6))%f32
      else E_lj0 in
    let E_el1 := (E_el0 / (epsfac (nbparam args) * pow2 3 * f1))%f32 in
    let E_el2 :=
      if is_EL_RF fl || is_EL_CUTOFF fl
      then (E_el1 * (- fhalf * c_rf (nbparam args)))%f32
      else (E_el1 * (- ewald_beta (nbparam args) * M_FLOAT_1_SQRTPI D))%f32 in
    (E_lj1, E_el2)
  else (f0, f0).

(** The thread, from the pre-load to the end of the loops. *)
Definition thread_run : ThreadOut :=
  let sh := preload in
  let '(E_lj0, E_el0) := self_energy sh in
  let r0 :=
    {| r_imask := 0;
       fcj_buf := make_fast_float3 f0;
       fci_buf := replicate (Z.to_nat c_nbnxnGpuNumClusterPerSupercluster)
                            (make_fast_float3 f0);
       E_lj := E_lj0;
       E_el := E_el0 |} in
  foldl (j4_iteration sh) {| regs := r0; j_out := []; imask_out := [] |}
        (seqZ cij4_start (cj4_length nb_sci)).

End Thread.

(** ** The block

    One block of 64 threads works on the super-cluster [pl_sci[bidx]].  What
    it leaves in global memory is a sequence of atomic additions (and, when
    pruning, of stored masks). *)
Inductive Effect : Type :=
| atomic_add_force (atom component : Z) (v : float)
| atomic_add_fShift (index component : Z) (v : float)
| atomic_add_eLJ (index : Z) (v : float)
| atomic_add_eElec (index : Z) (v : float)
| store_imask (j4 w imask_ : Z).

Definition lanes : list Z := seqZ 0 c_clSize.
Definition xyz : list Z := [0; 1; 2].

Definition block_threads : list Thread :=
  tj ← lanes; ti ← lanes; [{| tidxi := ti; tidxj := tj |}].

(** Component [tidxi] of a vector, for the threads with [tidxi < 3]. *)
Definition component (c : Z) (v : fast_float3) : float :=
  if c =? 0 then ff_x v else if c =? 1 then ff_y v else ff_z v.

(** Modelled from the spec: the sum a shuffle reduction of
    nbnxm_hip_kernel_utils.hpp (not among the sources) leaves in the
    receiving lane, "reduce ... across the lanes of the execution sub-group";
    the lanes are added in lane order. *)
Definition lane_sum (l : list float) : float :=
  match l with
  | [] => f0
  | x :: rest => foldl fadd x rest
  end.

(** [energy_index_base] and [shift_index_base]; [mm] tells whether
    [GMX_ENABLE_MEMORY_MULTIPLIER] is defined. *)
Definition energy_index_base (mm : bool) (bidx : Z) : Z :=
  if mm then u32 (1 + Z.land bidx (c_clEnergyMemoryMultiplier mm - 1)) else 0.

Definition shift_index_base (D : DeviceLib) (mm : bool) (bidx : Z) : Z :=
  if mm
  then u32 (c_numShiftVectors D
            * (1 + Z.land bidx (c_clShiftMemoryMultiplier mm - 1)))
  else 0.

Section Block.
Variable D : DeviceLib.
Variable fl : Flavor.
Variable mm : bool.
Variable args : KernelArgs.
Variable bidx : Z.

(** The squared distance thread [t] computes for the cluster pair
    [(j4, jm, i)]. *)
Definition r2_at (t : Thread) (j4 jm i : Z) : float :=
  let cj_ := nth (Z.to_nat jm) (cj (pl_cj4 args j4)) 0 in
  let aj := cj_ * c_clSize + tidxj t in
  ff_norm2 (pair_rv t (preload args bidx) i
                    (make_fast_float3_4 (k_xq args aj))).

(** Modelled from the spec: [__nb_any], the vote over the wavefront
    ("if none of the atom pairs are in cutoff range, the bit ... gets set to
    0"). *)
Definition nb_any_block (j4 jm i : Z) : bool :=
  existsb (fun t => (r2_at t j4 jm i <? rlistOuter_sq (nbparam args))%f32)
          block_threads.

Definition run (t : Thread) : ThreadOut := thread_run D fl args bidx t nb_any_block.

Definition thread_at (ti tj : Z) : Thread := {| tidxi := ti; tidxj := tj |}.

Definition j_entry (t : Thread) (p : nat) : Z * fast_float3 :=
  nth p (j_out (run t)) (0, make_fast_float3 f0).

(** Modelled from the spec: [reduce_force_j_warp_shfl] followed by
    [atomic_add_force]: for each processed j-cluster, the registers
    [fcj_buf] of the eight threads that share [tidxj] are summed and the sum
    of component [tidxi < 3] is added to [f[aj]]. *)
Definition j_force_effects : list Effect :=
  p ← seq 0 (length (j_out (run (thread_at 0 0))));
  tj ← lanes;
  c ← xyz;
  [atomic_add_force (j_entry (thread_at c tj) p).1 c
     (lane_sum ((fun ti => component c (j_entry (thread_at ti tj) p).2) <$> lanes))].

(** Modelled from the spec: [reduce_force_i_warp_shfl]: the thread with
    [tidxi = c < 3] and [tidxj = a] receives component [c] of the force on
    atom [a] of i-cluster [i], the sum of [fci_buf[i]] over the eight threads
    with [tidxi = a]. *)
Definition fci_reduced (i c a : Z) : float :=
  lane_sum ((fun tj => component c (fci_buf (regs (run (thread_at a tj)))
                                    !!! Z.to_nat i)) <$> lanes).

Definition i_force_effects : list Effect :=
  a ← lanes;
  c ← xyz;
  i ← seqZ 0 c_nbnxnGpuNumClusterPerSupercluster;
  [atomic_add_force
     ((sci (nb_sci args bidx) * c_nbnxnGpuNumClusterPerSupercluster + i) * c_clSize + a)
     c (fci_reduced i c a)].

(** "skip central shifts when summing shift forces". *)
Definition calc_fshift : bool :=
  bCalcFshift args && negb (shift (nb_sci args bidx) =? c_centralShiftIndex D).

Definition fshift_effects : list Effect :=
  if calc_fshift
  then a ← lanes;
       c ← xyz;
       [atomic_add_fShift (shift (nb_sci args bidx) + shift_index_base D mm bidx) c
          (foldl (fun acc i => (acc + fci_reduced i c a)%f32) f0
                 (seqZ 0 c_nbnxnGpuNumClusterPerSupercluster))]
  else [].

(** Modelled from the spec: [reduce_energy_warp_shfl]: the energy sums of
    the 64 threads are added up and the totals added to [*e_lj] and
    [*e_el]. *)
Definition energy_effects : list Effect :=
  if CALC_ENERGIES fl
  then [atomic_add_eLJ (energy_index_base mm bidx)
          (lane_sum ((fun t => E_lj (regs (run t))) <$> block_threads));
        atomic_add_eElec (energy_index_base mm bidx)
          (lane_sum ((fun t => E_el (regs (run t))) <$> block_threads))]
  else [].

Definition imask_effects : list Effect :=
  (fun e : Z * Z => store_imask e.1 (widx (thread_at 0 0)) e.2)
    <$> imask_out (run (thread_at 0 0)).

(** [nbnxn_kernel], for one block (the path [#ifndef __gfx1030__]).  The
    stored masks touch the pair list only; they are listed last. *)
Definition nbnxn_kernel : list Effect :=
  j_force_effects ++ i_force_effects ++ fshift_effects ++ energy_effects
  ++ imask_effects.
End Block.

(** The value of [f[atom]], component [c], after the effects, in a force
    buffer that was cleared before the launch. *)
Definition force_step (atom c : Z) (acc : float) (e : Effect) : float :=
  match e with
  | atomic_add_force a' c' v => if (a' =? atom) && (c' =? c) then (acc + v)%f32 else acc
  | _ => acc
  end.

Definition force_after (effects : list Effect) (atom c : Z) : float :=
  foldl (force_step atom c) f0 effects.

(** An atomic addition to one cell of a device buffer. *)
Definition atomic_add_cell (buf : DeviceBuffer float) (i : Z) (v : float)
  : outcome (DeviceBuffer float) :=
  match buf with
  | None => Undefined
  | Some cells =>
      if (0 <=? i) && (i <? len cells)
      then Done (Some (alter (fmap (fun x => (x + v)%f32)) (Z.to_nat i) cells))
      else Undefined
  end.

(** The energy accumulators after the energy effects of a block. *)
Definition apply_energy_effect (acc : DeviceBuffer float * DeviceBuffer float)
           (e : Effect) : outcome (DeviceBuffer float * DeviceBuffer float) :=
  match e with
  | atomic_add_eLJ i v => b ← atomic_add_cell acc.1 i v; Done (b, acc.2)
  | atomic_add_eElec i v => b ← atomic_add_cell acc.2 i v; Done (acc.1, b)
  | _ => Done acc
  end.

Fixpoint apply_energy_effects (acc : DeviceBuffer float * DeviceBuffer float)
         (es : list Effect) : outcome (DeviceBuffer float * DeviceBuffer float) :=
  match es with
  | [] => Done acc
  | e :: rest => acc' ← apply_energy_effect acc e; apply_energy_effects acc' rest
  end.

End Kernel.

Import Kernel.

(* ===================================================================== *)
(** * Notions used in the statements                                       *)
(* ===================================================================== *)

Module Notions.

(** The first [n] cells of a device buffer, and the cells after them. *)
Definition device_prefix {A : Type} (buf : DeviceBuffer A) (n : Z) : list (option A) :=
  match buf with
  | None => []
  | Some cells => take (Z.to_nat n) cells
  end.

Definition device_suffix {A : Type} (buf : DeviceBuffer A) (n : Z) : list (option A) :=
  match buf with
  | None => []
  | Some cells => drop (Z.to_nat n) cells
  end.

Definition device_cell {A : Type} (buf : DeviceBuffer A) (i : nat) : option (option A) :=
  match buf with
  | None => None
  | Some cells => cells !! i
  end.

(** ** Pair lists *)

(** The super-cluster entries of a device pair list: the [nsci] cells in
    use of its [sci] buffer; none while the buffer is null. *)
Definition plist_entries (pl : gpu_plist) : list (option nbnxn_sci_t) :=
  device_prefix (d_sci pl) (nsci pl).

(** A buffer and its recorded capacity agree: capacity [-1] with a null
    pointer, or an allocation of that many cells. *)
Definition buffer_holds {A : Type} (buf : DeviceBuffer A) (nalloc : Z) : Prop :=
  (nalloc = -1 /\ buf = None)
  \/ (0 <= nalloc /\ exists cells, buf = Some cells /\ len cells = nalloc).

Definition plist_wf (pl : gpu_plist) : Prop :=
  buffer_holds (d_sci pl) (sci_nalloc pl)
  /\ buffer_holds (d_cj4 pl) (cj4_nalloc pl)
  /\ buffer_holds (d_imask pl) (imask_nalloc pl)
  /\ buffer_holds (d_excl pl) (excl_nalloc pl).

(** The device list holds the host list [h]. *)
Definition uploaded (pl : gpu_plist) (h : NbnxnPairlistGpu) : Prop :=
  plist_entries pl = Some <$> h_sci h
  /\ device_prefix (d_cj4 pl) (ncj4 pl) = Some <$> h_cj4 h
  /\ device_prefix (d_excl pl) (nexcl pl) = Some <$> h_excl h.

(** Successive calls of [gpu_init_pairlist] for one locality. *)
Fixpoint upload_pairlists (oal : Z -> Z) (split : Z) (nb : NbnxmGpu)
         (iloc : InteractionLocality.t) (hs : list NbnxnPairlistGpu) : outcome NbnxmGpu :=
  match hs with
  | [] => Done nb
  | h :: rest =>
      nb' ← gpu_init_pairlist oal split nb h iloc;
      upload_pairlists oal split nb' iloc rest
  end.

(** What the bonded-forces collaborator reports. *)
Definition bonded_work (lf : option ListedForcesGpu) : bool :=
  match lf with Some l => haveInteractions l | None => false end.

(** The has-work property as it is worded: after
    [setupGpuShortRangeWork], [haveGpuShortRangeWork] is true exactly when
    the pair list of the locality has an entry or there is bonded work. *)
Definition have_work_claim (nb : NbnxmGpu) (lf : option ListedForcesGpu)
           (iloc : InteractionLocality.t) : Prop :=
  forall pl nb',
    ea_get (plist nb) iloc = Some pl ->
    setupGpuShortRangeWork nb lf iloc = Done nb' ->
    (haveGpuShortRangeWork nb' iloc = true
     <-> plist_entries pl <> [] \/ bonded_work lf = true).

(** ** Atom data *)

Definition has_capacity {A : Type} (buf : DeviceBuffer A) (cap : Z) : Prop :=
  exists cells, buf = Some cells /\ len cells = cap.

(** The atom buffers agree with [numAtomsAlloc]: nothing allocated yet
    ([-1]), or the force, position and parameter buffers each have that many
    cells. *)
Definition atdat_wf (useLj : bool) (a : NBAtomDataGpu) : Prop :=
  numAtomsAlloc a = -1
  \/ (0 <= numAtomsAlloc a
      /\ has_capacity (f a) (numAtomsAlloc a)
      /\ has_capacity (xq a) (numAtomsAlloc a)
      /\ if useLj then has_capacity (ljComb a) (numAtomsAlloc a)
         else has_capacity (atomTypes a) (numAtomsAlloc a)).

(** The host arrays hold the parameters of [numAtoms()] atoms. *)
Definition host_params_ok (useLj : bool) (nbat : nbnxn_atomdata_t) : Prop :=
  0 <= nbat_numAtoms nbat
  /\ if useLj then nbat_numAtoms nbat <= len (asFloat2 (params_lj_comb nbat))
     else nbat_numAtoms nbat <= len (params_type nbat).

(** The parameters of all [numAtoms()] atoms are on the device. *)
Definition params_present (useLj : bool) (a : NBAtomDataGpu) (nbat : nbnxn_atomdata_t)
  : Prop :=
  if useLj
  then device_prefix (ljComb a) (nbat_numAtoms nbat)
       = Some <$> take (Z.to_nat (nbat_numAtoms nbat)) (asFloat2 (params_lj_comb nbat))
  else device_prefix (atomTypes a) (nbat_numAtoms nbat)
       = Some <$> take (Z.to_nat (nbat_numAtoms nbat)) (params_type nbat).

(** What one call of [gpu_init_atomdata] makes of the atom data [a]:
    the count is stored and fits the capacity; the capacity does not shrink;
    the buffers are replaced exactly when the count exceeds the old capacity,
    the force buffer then being zero over the whole new capacity, and are kept
    otherwise, cells beyond the count included; and the parameters of all
    atoms are on the device. *)
Definition atomdata_call_spec (oas : Z -> Z) (useLj : bool)
           (a : NBAtomDataGpu) (nbat : nbnxn_atomdata_t) (a' : NBAtomDataGpu) : Prop :=
  let n := nbat_numAtoms nbat in
  numAtoms a' = n
  /\ n <= numAtomsAlloc a'
  /\ numAtomsAlloc a <= numAtomsAlloc a'
  /\ (numAtomsAlloc a < n ->
      numAtomsAlloc a' = oas n
      /\ f a' = Some (replicate (Z.to_nat (oas n)) (Some zero_Float3))
      /\ xq a' = allocateDeviceBuffer (oas n))
  /\ (n <= numAtomsAlloc a ->
      numAtomsAlloc a' = numAtomsAlloc a /\ f a' = f a /\ xq a' = xq a
      /\ if useLj
         then device_suffix (ljComb a') n = device_suffix (ljComb a) n
         else device_suffix (atomTypes a') n = device_suffix (atomTypes a) n)
  /\ params_present useLj a' nbat.

(** Successive calls of [gpu_init_atomdata], with the handle after each. *)
Fixpoint atomdata_calls (oas : Z -> Z) (useLj : VdwType.t -> bool) (nb : NbnxmGpu)
         (nbats : list nbnxn_atomdata_t) : outcome (list NbnxmGpu) :=
  match nbats with
  | [] => Done []
  | nbat :: rest =>
      nb' ← gpu_init_atomdata oas useLj nb nbat;
      states ← atomdata_calls oas useLj nb' rest;
      Done (nb' :: states)
  end.

(** ** The kernel *)

(** The helpers with another reciprocal square root. *)
Definition with_rsqrt (D : DeviceLib) (rsqrt : float -> float) : DeviceLib :=
  {| __frsqrt_rn := rsqrt;
     erff := erff D;
     pmecorrF := pmecorrF D;
     interpolate_coulomb_force_r := interpolate_coulomb_force_r D;
     fetch_nbfp_c6_c12 := fetch_nbfp_c6_c12 D;
     fetch_nbfp_c6 := fetch_nbfp_c6 D;
     convert_sigma_epsilon_to_c6_c12 := convert_sigma_epsilon_to_c6_c12 D;
     calculate_force_switch_F := calculate_force_switch_F D;
     calculate_force_switch_F_E := calculate_force_switch_F_E D;
     calculate_lj_ewald_comb_geom_F := calculate_lj_ewald_comb_geom_F D;
     calculate_lj_ewald_comb_geom_F_E := calculate_lj_ewald_comb_geom_F_E D;
     calculate_lj_ewald_comb_LB_F_E := calculate_lj_ewald_comb_LB_F_E D;
     calculate_potential_switch_F := calculate_potential_switch_F D;
     calculate_potential_switch_F_E := calculate_potential_switch_F_E D;
     c_nbnxnMinDistanceSquared := c_nbnxnMinDistanceSquared D;
     c_oneSixth := c_oneSixth D;
     c_oneTwelveth := c_oneTwelveth D;
     M_FLOAT_1_SQRTPI := M_FLOAT_1_SQRTPI D;
     c_centralShiftIndex := c_centralShiftIndex D;
     c_numShiftVectors := c_numShiftVectors D |}.

Section PairNotions.
Variable D : DeviceLib.
Variable fl : Flavor.
Variable args : KernelArgs.
Variable bidx : Z.
Variable t : Thread.

(** What thread [t] computes for atom [tidxi] of i-cluster [i] and its
    j-atom: the squared distance, the exclusion bit, the terms of the
    interaction and the force vector [f_ij]. *)
Definition pair_r2 (sh : Shmem) (i : Z) (xj : fast_float3) : float :=
  ff_norm2 (pair_rv t sh i xj).

Definition pair_int_bit (wexcl jm i : Z) : float :=
  excl_bit wexcl (jm * c_nbnxnGpuNumClusterPerSupercluster + i).

Definition pair_terms (sh : Shmem) (jm : Z) (xj : fast_float3) (qj_f : float)
           (typej : Z) (ljcp_j : float2) (wexcl i : Z) : float * float * float :=
  pair_interaction D fl (nbparam args) (k_numTypes args)
                   (lje_coeff2 args) (lje_coeff6_6 D args)
                   (pair_r2 sh i xj) (pair_int_bit wexcl jm i)
                   (f4_w (xqib sh (i * c_clSize + tidxi t))) qj_f
                   (atib sh (i * c_clSize + tidxi t)) typej
                   (ljcpib sh (i * c_clSize + tidxi t)) ljcp_j.

Definition pair_f_ij (sh : Shmem) (jm : Z) (xj : fast_float3) (qj_f : float)
           (typej : Z) (ljcp_j : float2) (wexcl i : Z) : fast_float3 :=
  ff_mul_s (pair_rv t sh i xj) (pair_terms sh jm xj qj_f typej ljcp_j wexcl i).1.1.

(** The pair is in the list: its bit of the interaction mask is set. *)
Definition included (r : Regs) (mask_ji : Z) : Prop :=
  Z.land (r_imask r) mask_ji <> 0.

(** The pair is not excluded: its exclusion bit is set and, in the
    flavours that compute exclusion forces, it is not a pair of the diagonal
    that the kernel skips. *)
Definition not_excluded (wexcl jm i cj_ : Z) : Prop :=
  pair_int_bit wexcl jm i = f1
  /\ (EXCLUSION_FORCES fl = true ->
      sci (nb_sci args bidx) * c_nbnxnGpuNumClusterPerSupercluster + i
      <> (if nonSelfInteraction D args bidx t then -1 else cj_)).
End PairNotions.

(** ** The pairs a block evaluates

    The loops of the kernel read the pair list through the indices
    [(j4, jm, i)]: the group of j-clusters, the j-cluster of the group and the
    i-cluster of the super-cluster. *)
Section BlockNotions.
Variable D : DeviceLib.
Variable fl : Flavor.
Variable args : KernelArgs.
Variable bidx : Z.

(** What the threads of the block read for the group [j4] of j-clusters
    and its member [jm]. *)
Definition cj4_entry (j4 : Z) : nbnxn_im_ei_t :=
  nth 0 (imei (pl_cj4 args j4)) {| imask := 0; excl_ind := 0 |}.
Definition imask_of (j4 : Z) : Z := imask (cj4_entry j4).
Definition wexcl_of (t : Thread) (j4 : Z) : Z :=
  nth (Z.to_nat (Z.land (tidx t) (c_subWarp - 1)))
      (pair (pl_excl args (excl_ind (cj4_entry j4)))) 0.
Definition cj_of (j4 jm : Z) : Z := nth (Z.to_nat jm) (cj (pl_cj4 args j4)) 0.

(** The atoms of thread [t]: its j-atom in j-cluster [jm] of group [j4],
    and its i-atom in i-cluster [i]. *)
Definition aj_of (t : Thread) (j4 jm : Z) : Z := cj_of j4 jm * c_clSize + tidxj t.
Definition ai_of (t : Thread) (i : Z) : Z :=
  (sci (nb_sci args bidx) * c_nbnxnGpuNumClusterPerSupercluster + i) * c_clSize
  + tidxi t.
Definition xj_of (t : Thread) (j4 jm : Z) : fast_float3 :=
  make_fast_float3_4 (k_xq args (aj_of t j4 jm)).

(** Thread [t] evaluates the interaction of its atoms for the cluster
    pair [(j4, jm, i)]: the pair's bit of the interaction mask is set and the
    cutoff and exclusion check passes. *)
Definition evaluates (t : Thread) (j4 jm i : Z) : bool :=
  Z.testbit (imask_of j4) (jm * c_nbnxnGpuNumClusterPerSupercluster + i)
  && cutoff_exclusion_check D fl args bidx t
       (pair_r2 t (preload args bidx) i (xj_of t j4 jm))
       (pair_int_bit (wexcl_of t j4) jm i)
       (sci (nb_sci args bidx) * c_nbnxnGpuNumClusterPerSupercluster + i)
       (cj_of j4 jm).

(** The force vector [f_ij] of that interaction. *)
Definition f_ij_of (t : Thread) (j4 jm i : Z) : fast_float3 :=
  pair_f_ij D fl args t (preload args bidx) jm (xj_of t j4 jm)
            (f4_w (k_xq args (aj_of t j4 jm)))
            (k_atomTypes args (aj_of t j4 jm)) (k_ljComb args (aj_of t j4 jm))
            (wexcl_of t j4) i.

(** What the iteration for i-cluster [i] does to the accumulators
    [fcj_buf] and [fci_buf] of thread [t]. *)
Definition fcj_step (t : Thread) (j4 jm : Z) (acc : fast_float3) (i : Z) : fast_float3 :=
  if evaluates t j4 jm i then ff_add acc (f_ij_of t j4 jm i) else acc.

Definition fci_step (t : Thread) (j4 jm : Z) (l : list fast_float3) (i : Z)
  : list fast_float3 :=
  if evaluates t j4 jm i
  then <[Z.to_nat i := ff_sub (l !!! Z.to_nat i) (f_ij_of t j4 jm i)]> l
  else l.

Definition zero3 : fast_float3 := make_fast_float3 f0.
Definition zeros8 : list fast_float3 := replicate 8 zero3.

(** The j-cluster [jm] of group [j4] is processed when one of its eight
    bits of the interaction mask is set. *)
Definition group_on (j4 jm : Z) : bool :=
  existsb (fun i => Z.testbit (imask_of j4) (jm * 8 + i)) (seqZ 0 8).

(** The accumulator [fcj_buf] of thread [t] after the loop over the
    i-clusters, and what the thread hands to the reduction of the j-forces. *)
Definition fcj_of (t : Thread) (j4 jm : Z) : fast_float3 :=
  foldl (fcj_step t j4 jm) zero3 (seqZ 0 8).

Definition j_out_of (t : Thread) (j4 jm : Z) : list (Z * fast_float3) :=
  if group_on j4 jm then [(aj_of t j4 jm, fcj_of t j4 jm)] else [].

Definition j4_out_of (t : Thread) (j4 : Z) : list (Z * fast_float3) :=
  seqZ 0 4 ≫= j_out_of t j4.

(** The accumulators [fci_buf] of thread [t] after j-cluster [jm] of
    group [j4], and after the whole group. *)
Definition fci_group (t : Thread) (l : list fast_float3) (j4 jm : Z) : list fast_float3 :=
  foldl (fci_step t j4 jm) l (seqZ 0 8).

Definition fci_j4 (t : Thread) (l : list fast_float3) (j4 : Z) : list fast_float3 :=
  foldl (fun l' jm => fci_group t l' j4 jm) l (seqZ 0 4).

(** The processed j-clusters of the block, in the order of the loops. *)
Definition processed : list (Z * Z) :=
  j4 ← seqZ (cij4_start args bidx) (cj4_length (nb_sci args bidx));
  jm ← seqZ 0 4;
  if group_on j4 jm then [(j4, jm)] else [].

(** Component [c] of the reduced j-force of the processed j-cluster [e],
    for the j-atom of the threads with [tidxj = tj], and the atomic additions
    for that j-cluster. *)
Definition fcj_reduced (e : Z * Z) (c tj : Z) : float :=
  lane_sum ((fun ti => component c (fcj_of (thread_at ti tj) e.1 e.2)) <$> lanes).

Definition j_effects_of (e : Z * Z) : list Effect :=
  tj ← lanes; c ← xyz;
  [atomic_add_force (aj_of (thread_at c tj) e.1 e.2) c (fcj_reduced e c tj)].

Definition thread_eqb (t t' : Thread) : bool :=
  (tidxi t =? tidxi t') && (tidxj t =? tidxj t').

(** The block evaluates exactly one pair of atoms: the threads
    [t], groups [j4] of the super-cluster, j-clusters [jm] and i-clusters [i]
    with [evaluates t j4 jm i] are [(t0, j4_0, jm0, i0)] alone.  The
    interaction masks of the groups are 32-bit values. *)
Definition single_pair_block (t0 : Thread) (j4_0 jm0 i0 : Z) : bool :=
  forallb (fun t =>
    forallb (fun j4 =>
      (0 <=? imask_of j4) && (imask_of j4 <? 2 ^ 32)
      && forallb (fun jm =>
           forallb (fun i =>
             Bool.eqb (evaluates t j4 jm i)
                      (thread_eqb t t0 && (j4 =? j4_0) && (jm =? jm0) && (i =? i0)))
             (seqZ 0 8))
           (seqZ 0 4))
      (seqZ (cij4_start args bidx) (cj4_length (nb_sci args bidx))))
    block_threads
  && existsb (thread_eqb t0) block_threads
  && existsb (Z.eqb j4_0) (seqZ (cij4_start args bidx) (cj4_length (nb_sci args bidx)))
  && existsb (Z.eqb jm0) (seqZ 0 4)
  && existsb (Z.eqb i0) (seqZ 0 8).
End BlockNotions.

(** A float that is not the negative zero. *)
Definition normal_zero (a : float) : Prop := unsigned_zero a = a.

(** ** Energy accumulators *)


(** The slot an effect on an energy accumulator addresses. *)
Definition effect_energy_index (e : Effect) : option Z :=
  match e with
  | atomic_add_eLJ i _ | atomic_add_eElec i _ => Some i
  | _ => None
  end.







(** ** Notions of the further properties *)

(** The sign bit is clear, or the float is a NaN. *)
Definition sign_clear (x : float) : bool :=
  match x with
  | S754_nan => true
  | S754_zero s | S754_infinity s | S754_finite s _ _ => negb s
  end.

(** All three components are zeros, of either sign. *)
Definition is_zero_vector (a : float3) : bool :=
  is_zero (f3_x a) && is_zero (f3_y a) && is_zero (f3_z a).

(** No thread of the block evaluates a pair: for every group of the
    super-cluster the interaction mask is a 32-bit value and no cluster pair
    passes the test of the mask bit and the cutoff and exclusion check. *)
Definition idle_block (D : DeviceLib) (fl : Flavor) (args : KernelArgs) (bidx : Z) : bool :=
  forallb (fun j4 =>
    (0 <=? imask_of args j4) && (imask_of args j4 <? 2 ^ 32)
    && forallb (fun t =>
         forallb (fun jm =>
           forallb (fun i => negb (evaluates D fl args bidx t j4 jm i)) (seqZ 0 8))
           (seqZ 0 4))
         block_threads)
    (seqZ (cij4_start args bidx) (cj4_length (nb_sci args bidx))).

(** The additions to the force and shift-force buffers all add [+0]. *)
Definition adds_zero (e : Effect) : Prop :=
  match e with
  | atomic_add_force _ _ v | atomic_add_fShift _ _ v => v = f0
  | _ => True
  end.

(** The twin cut-off variants of the Ewald kernels. *)
Definition is_twin_cutoff (e : ElecType.t) : bool :=
  match e with
  | ElecType.EwaldTabTwin | ElecType.EwaldAnaTwin => true
  | _ => false
  end.

Definition set_elecType (nb : NbnxmGpu) (e : ElecType.t) : NbnxmGpu :=
  {| bUseTwoStreams := bUseTwoStreams nb;
     bNonLocalStreamDoneMarked := bNonLocalStreamDoneMarked nb;
     atdat := atdat nb; vdwType := vdwType nb; elecType := e;
     plist := plist nb; nbst := nbst nb; haveWork := haveWork nb;
     bDoTime := bDoTime nb; didPairlistH2D := didPairlistH2D nb |}.

(** The kernel type agrees with the combination rule of the atom data. *)
Definition vdw_rule_consistent (v : VdwType.t) (rule : LJCombinationRule.t) : Prop :=
  match v with
  | VdwType.Cut => rule = LJCombinationRule.None
  | VdwType.CutCombGeom | VdwType.EwaldGeom => rule = LJCombinationRule.Geometric
  | VdwType.CutCombLB | VdwType.EwaldLB => rule = LJCombinationRule.LorentzBerthelot
  | VdwType.FSwitch | VdwType.PSwitch => True
  end.

(** The output buffers are allocated: the force buffer holds the
    [numAtoms] atoms, and the shift-force and energy accumulators have the
    sizes [initAtomdataFirst] gives them. *)
Definition outputs_allocated (nsv : Z) (mm : bool) (a : NBAtomDataGpu) : Prop :=
  0 <= nsv /\ 0 <= numAtoms a
  /\ (exists cells, f a = Some cells /\ numAtoms a <= len cells)
  /\ has_capacity (fShift a) (c_clShiftMemorySize mm * nsv)
  /\ has_capacity (eLJ a) (c_clEnergyMemorySize mm)
  /\ has_capacity (eElec a) (c_clEnergyMemorySize mm).

(** The transfer returns at once: non-local atoms without non-local
    work. *)
Definition transfer_skipped (atl : AtomLocality.t -> InteractionLocality.t)
           (nb : NbnxmGpu) (loc : AtomLocality.t) : bool :=
  locality_eqb (atl loc) InteractionLocality.NonLocal
  && negb (haveGpuShortRangeWork nb (atl loc)).

End Notions.

Import Notions.

(* ===================================================================== *)
(** * Concrete inputs                                                      *)
(* ===================================================================== *)

Module Examples.

(** Two vectors with components [+-2^100]: finite single-precision
    values whose squares exceed the largest finite float. *)
Definition overflow_a : float3 := make_float3 (pow2 100) (pow2 100) f0.
Definition overflow_b : float3 := make_float3 (pow2 100) (- pow2 100)%f32 f0.

(** Environments with both Ewald overrides set, and with one of them. *)
Definition env_both : Environment :=
  <["GMX_GPU_NB_ANA_EWALD" := "1"]> (<["GMX_GPU_NB_TAB_EWALD" := "1"]> ∅).
Definition env_tab : Environment := <["GMX_GPU_NB_TAB_EWALD" := "1"]> ∅.

Definition ic_1nm : interaction_const_t := {| rcoulomb := f1; rvdw := f1 |}.
Definition device0 : DeviceInformation := {| prop_major := 9; prop_minor := 0 |}.

(** The growth policies and [useLjCombRule] as GROMACS defines them
    (up to the rounding of the growth factor). *)
Definition over_alloc (n : Z) : Z := n + n / 5 + 1000.
Definition useLjCombRule (v : VdwType.t) : bool :=
  match v with VdwType.CutCombGeom | VdwType.CutCombLB => true | _ => false end.

(** A handle as [gpu_init] leaves it, for a run on one locality. *)
Definition blank_plist : gpu_plist :=
  {| na_c := 0; nsci := 0; sci_nalloc := 0; d_sci := None; sci_sorted := None;
     ncj4 := 0; cj4_nalloc := 0; d_cj4 := None;
     nimask := 0; imask_nalloc := 0; d_imask := None;
     nexcl := 0; excl_nalloc := 0; d_excl := None;
     haveFreshList := false; rollingPruningNumParts := 0; rollingPruningPart := 0 |}.
Definition blank_atdat : NBAtomDataGpu :=
  {| numTypes := 0; numAtoms := 0; numAtomsLocal := 0; numAtomsAlloc := 0;
     xq := None; f := None; atomTypes := None; ljComb := None; shiftVec := None;
     shiftVecUploaded := false; fShift := None; eLJ := None; eElec := None |}.
Definition atdat_fresh : NBAtomDataGpu :=
  match initAtomdataFirst 45 true blank_atdat 2 with
  | Done a => a
  | _ => blank_atdat
  end.
Definition nb_fresh : NbnxmGpu :=
  {| bUseTwoStreams := false; bNonLocalStreamDoneMarked := false;
     atdat := atdat_fresh; vdwType := VdwType.Cut; elecType := ElecType.Cut;
     plist := {| atLocal := Some (init_plist blank_plist); atNonLocal := None |};
     nbst := {| st_eLJ := [None]; st_eElec := [None];
                st_fShift := replicate 45 None |};
     haveWork := {| atLocal := false; atNonLocal := false |};
     bDoTime := false;
     didPairlistH2D := {| atLocal := false; atNonLocal := false |} |}.

(** A pair list with one super-cluster and one cluster pair, in which only
    atom 0 of i-cluster 0 and atom 0 of j-cluster 1 interact. *)
Definition one_entry_list : NbnxnPairlistGpu :=
  {| na_ci := 8;
     h_sci := [{| sci := 0; shift := 22; cj4_ind_start := 0; cj4_length := 1 |}];
     h_cj4 := [{| cj := [1; 0; 0; 0]; imei := [{| imask := 1; excl_ind := 0 |}] |}];
     h_excl := [{| pair := 1 :: replicate 63 0 |}] |}.
Definition other_size_list : NbnxnPairlistGpu :=
  {| na_ci := 4; h_sci := []; h_cj4 := []; h_excl := [] |}.

(** Host atom data for two and for three atoms. *)
Definition host2 : nbnxn_atomdata_t :=
  {| nbat_numAtoms := 2; natoms_local := 2; params_lj_comb := [f1; f1; f1; f1];
     params_type := [0; 1]; out_f := [None; None] |}.
Definition host3 : nbnxn_atomdata_t :=
  {| nbat_numAtoms := 3; natoms_local := 3;
     params_lj_comb := [f1; f1; f1; f1; f1; f1];
     params_type := [1; 0; 1]; out_f := [None; None; None] |}.

(** An implementation of the device helpers: the reciprocal square root
    as a division by the square root, the constants at their single-precision
    values, and the Lennard-Jones and Ewald helpers of a system without
    these interactions. *)
Definition lib : DeviceLib :=
  {| __frsqrt_rn := fun x => (f1 / fsqrt x)%f32;
     erff := fun x => x;
     pmecorrF := fun x => x;
     interpolate_coulomb_force_r := fun _ x => x;
     fetch_nbfp_c6_c12 := fun _ _ => make_float2 f0 f0;
     fetch_nbfp_c6 := fun _ _ => f0;
     convert_sigma_epsilon_to_c6_c12 := fun _ _ => make_float2 f0 f0;
     calculate_force_switch_F := fun _ _ _ _ F => F;
     calculate_force_switch_F_E := fun _ _ _ _ F E => (F, E);
     calculate_lj_ewald_comb_geom_F := fun _ _ _ _ _ _ _ F => F;
     calculate_lj_ewald_comb_geom_F_E := fun _ _ _ _ _ _ _ _ F E => (F, E);
     calculate_lj_ewald_comb_LB_F_E := fun _ _ _ _ _ _ _ _ F E => (F, E);
     calculate_potential_switch_F := fun _ _ _ F E => (F, E);
     calculate_potential_switch_F_E := fun _ _ _ F E => (F, E);
     c_nbnxnMinDistanceSquared := S754_finite false 13440430 (-45);
     c_oneSixth := S754_finite false 11184811 (-26);
     c_oneTwelveth := S754_finite false 11184811 (-27);
     M_FLOAT_1_SQRTPI := S754_finite false 9465531 (-24);
     c_centralShiftIndex := 22;
     c_numShiftVectors := 45 |}.
(** The plain cutoff kernels, without and with energies. *)
Definition cutoff_F : Flavor :=
  {| CALC_ENERGIES := false; PRUNE_NBL := false; VDW_CUTOFF_CHECK := false;
     el := EL_CUTOFF; lj := LJ_NONE |}.
Definition cutoff_VF : Flavor :=
  {| CALC_ENERGIES := true; PRUNE_NBL := false; VDW_CUTOFF_CHECK := false;
     el := EL_CUTOFF; lj := LJ_NONE |}.
(** Two atoms of charge +1 and -1 at distance 1 along x, in clusters 0 and
    1; all other cluster slots hold uncharged atoms far away.  Cutoff 2. *)
Definition two_atom_xq (a : Z) : float4 :=
  if a =? 0 then make_float4 f0 f0 f0 f1
  else if a =? 8 then make_float4 f1 f0 f0 fm1
  else make_float4 (pow2 10) (pow2 10) (pow2 10) f0.
Definition two_atom_nbparam : NBParamGpu :=
  {| epsfac := f1; rcoulomb_sq := pow2 2; rvdw_sq := pow2 2; rlistOuter_sq := pow2 2;
     two_k_rf := f0; c_rf := f0; ewald_beta := f0; sh_ewald := f0; ewaldcoeff_lj := f0;
     repulsion_shift_cpot := f0; dispersion_shift_cpot := f0 |}.
Definition two_atom_args : KernelArgs :=
  {| k_xq := two_atom_xq;
     k_atomTypes := fun _ => 0;
     k_ljComb := fun _ => make_float2 f0 f0;
     k_shiftVec := fun _ => make_float3 f0 f0 f0;
     k_numTypes := 1;
     nbparam := two_atom_nbparam;
     pl_sci := fun _ => {| sci := 0; shift := 22; cj4_ind_start := 0; cj4_length := 1 |};
     pl_excl := fun _ => {| pair := 1 :: replicate 63 0 |};
     pl_cj4 := fun _ => {| cj := [1; 0; 0; 0]; imei := [{| imask := 1; excl_ind := 0 |}] |};
     bCalcFshift := false |}.
(** [atomToInteractionLocality] and [getGpuAtomRange] as GROMACS
    defines them. *)
Definition atomToInteractionLocality (a : AtomLocality.t) : InteractionLocality.t :=
  match a with
  | AtomLocality.NonLocal => InteractionLocality.NonLocal
  | _ => InteractionLocality.Local
  end.
Definition getGpuAtomRange (a : NBAtomDataGpu) (loc : AtomLocality.t) : Z * Z :=
  match loc with
  | AtomLocality.Local => (0, numAtomsLocal a)
  | AtomLocality.NonLocal => (numAtomsLocal a, numAtoms a - numAtomsLocal a)
  | AtomLocality.All => (0, numAtoms a)
  end.
Definition energy_step : StepWorkload :=
  {| computeEnergy := true; computeVirial := false; useGpuFBufferOps := true |}.

(** The two-atom system with the cutoff at the distance of the atoms. *)
Definition two_atom_args_at_cutoff : KernelArgs :=
  {| k_xq := two_atom_xq;
     k_atomTypes := k_atomTypes two_atom_args;
     k_ljComb := k_ljComb two_atom_args;
     k_shiftVec := k_shiftVec two_atom_args;
     k_numTypes := 1;
     nbparam :=
       {| epsfac := f1; rcoulomb_sq := f1; rvdw_sq := f1; rlistOuter_sq := f1;
          two_k_rf := f0; c_rf := f0; ewald_beta := f0; sh_ewald := f0;
          ewaldcoeff_lj := f0; repulsion_shift_cpot := f0;
          dispersion_shift_cpot := f0 |};
     pl_sci := pl_sci two_atom_args;
     pl_excl := pl_excl two_atom_args;
     pl_cj4 := pl_cj4 two_atom_args;
     bCalcFshift := false |}.

(** The thread that holds the two atoms, and its registers when it enters
    the loop over the i-clusters. *)
Definition thread00 : Thread := {| tidxi := 0; tidxj := 0 |}.
Definition regs_at_entry : Regs :=
  {| r_imask := 1;
     fcj_buf := make_fast_float3 f0;
     fci_buf := replicate 8 (make_fast_float3 f0);
     E_lj := f0;
     E_el := f0 |}.
Definition xj_atom8 : fast_float3 := make_fast_float3_4 (two_atom_xq 8).

(** A reciprocal square root that is wrong below the minimum distance. *)
Definition rsqrt_above_min (x : float) : float :=
  if fle (c_nbnxnMinDistanceSquared lib) x then __frsqrt_rn lib x else f0.


(** The pruning test that keeps every pair. *)
Definition keep_all (j4 jm i : Z) : bool := true.

(** The two-atom system in a periodic image: shift vector 0, with the
    shift forces asked for. *)
Definition shifted_args : KernelArgs :=
  {| k_xq := two_atom_xq;
     k_atomTypes := k_atomTypes two_atom_args;
     k_ljComb := k_ljComb two_atom_args;
     k_shiftVec := k_shiftVec two_atom_args;
     k_numTypes := 1;
     nbparam := two_atom_nbparam;
     pl_sci := fun _ => {| sci := 0; shift := 0; cj4_ind_start := 0; cj4_length := 1 |};
     pl_excl := pl_excl two_atom_args;
     pl_cj4 := pl_cj4 two_atom_args;
     bCalcFshift := true |}.

(** Interaction parameters with plain cut-offs and with reaction-field
    electrostatics. *)
Definition ic_cut : interaction_const_types :=
  {| ic_cutoffs := ic_1nm;
     eeltype := CoulombInteractionType.Cut;
     vdwtype := VanDerWaalsType.Cut;
     vdw_modifier := InteractionModifiers.PotShift;
     ljpme_comb_rule := LongRangeVdW.Geom;
     coulombEwaldTables := false |}.
Definition ic_pme : interaction_const_types :=
  {| ic_cutoffs := ic_1nm;
     eeltype := CoulombInteractionType.Other "Pme";
     vdwtype := VanDerWaalsType.Pme;
     vdw_modifier := InteractionModifiers.PotShift;
     ljpme_comb_rule := LongRangeVdW.Geom;
     coulombEwaldTables := false |}.
Definition EEL_RF (e : CoulombInteractionType.t) : bool :=
  match e with CoulombInteractionType.Other "RF" => true | _ => false end.
Definition EEL_PME (e : CoulombInteractionType.t) : bool :=
  match e with
  | CoulombInteractionType.Other "Pme" | CoulombInteractionType.Other "P3m-AD" => true
  | _ => false
  end.

(** Host coordinates and shift vectors of the two-atom system. *)
Definition host_xq : nbnxn_atomdata_xq :=
  {| bDynamicBox := false;
     shift_vec := replicate 45 (make_float3 f1 f0 f0);
     x_xyzq := [two_atom_xq 0; two_atom_xq 8] |}.

(** The fresh handle after [gpu_init_atomdata] for two atoms. *)
Definition nb_atoms2 : NbnxmGpu :=
  match gpu_init_atomdata over_alloc useLjCombRule nb_fresh host2 with
  | Done nb => nb
  | _ => nb_fresh
  end.
(** The same after the upload of the shift vectors. *)
Definition nb_shifted : NbnxmGpu :=
  match gpu_upload_shiftvec 45 nb_atoms2 host_xq with
  | Done nb => nb
  | _ => nb_atoms2
  end.
(** The same after the upload of the coordinates. *)
Definition nb_with_xq : NbnxmGpu :=
  match gpu_copy_xq_to_gpu atomToInteractionLocality getGpuAtomRange nb_atoms2 host_xq
                           AtomLocality.Local with
  | Done nb => nb
  | _ => nb_atoms2
  end.
Definition force_step_workload : StepWorkload :=
  {| computeEnergy := false; computeVirial := false; useGpuFBufferOps := false |}.
(** What the copy-back of the local forces returns on [nb_atoms2]. *)
Definition copyback2 : NbnxmGpu * list (option Float3) :=
  match gpu_launch_cpyback atomToInteractionLocality getGpuAtomRange 45 nb_atoms2 host2
                           force_step_workload AtomLocality.Local with
  | Done r => r
  | _ => (nb_atoms2, [])
  end.
(** The plain cutoff kernel that prunes the pair list, and a pruning test
    that keeps the pairs of the first j-cluster only. *)
Definition cutoff_F_prune : Flavor :=
  {| CALC_ENERGIES := false; PRUNE_NBL := true; VDW_CUTOFF_CHECK := false;
     el := EL_CUTOFF; lj := LJ_NONE |}.
Definition keep_first (j4 jm i : Z) : bool := jm =? 0.
Definition thread_out_at_entry : ThreadOut :=
  {| regs := regs_at_entry; j_out := []; imask_out := [] |}.


(** The two-atom system with the cutoff 1/2, below the distance of the
    atoms. *)
Definition two_atom_args_short_cutoff : KernelArgs :=
  {| k_xq := two_atom_xq;
     k_atomTypes := k_atomTypes two_atom_args;
     k_ljComb := k_ljComb two_atom_args;
     k_shiftVec := k_shiftVec two_atom_args;
     k_numTypes := 1;
     nbparam :=
       {| epsfac := f1; rcoulomb_sq := pow2 (-2); rvdw_sq := pow2 (-2);
          rlistOuter_sq := pow2 (-2);
          two_k_rf := f0; c_rf := f0; ewald_beta := f0; sh_ewald := f0;
          ewaldcoeff_lj := f0; repulsion_shift_cpot := f0;
          dispersion_shift_cpot := f0 |};
     pl_sci := pl_sci two_atom_args;
     pl_excl := pl_excl two_atom_args;
     pl_cj4 := pl_cj4 two_atom_args;
     bCalcFshift := false |}.


End Examples.

(* ===================================================================== *)
(** * Facts on single-precision comparison and addition                    *)
(* ===================================================================== *)

Section FloatFacts.

Lemma SFcompare_refl (x : float) : is_nan x = false -> SFcompare x x = Some Eq.
Proof.
  destruct x as [s|s| |s m e]; simpl; try done.
  - by destruct s.
  - intros _. destruct s; rewrite Z.compare_refl, Pos.compare_cont_refl; done.
Qed.

Lemma flt_irrefl (x : float) : flt x x = false.
Proof.
  unfold flt, SFltb. destruct (is_nan x) eqn:E.
  - destruct x; done.
  - by rewrite SFcompare_refl.
Qed.

Lemma feq_not_flt (x y : float) : feq x y = true -> flt x y = false.
Proof. unfold feq, flt, SFeqb, SFltb. by destruct (SFcompare x y) as [[]|]. Qed.

Lemma SFcompare_antisym (x y : float) :
  SFcompare y x = CompOpp <$> SFcompare x y.
Proof.
  destruct x as [s|s| |s m e], y as [s'|s'| |s' m' e']; simpl; try done;
    try (by destruct s); try (by destruct s'); try (by destruct s, s').
  destruct s, s'; simpl; try done.
  - rewrite (Z.compare_antisym e e'). destruct (e ?= e'); simpl; try done.
    rewrite (Pos.compare_cont_antisym m m' Eq). simpl.
    by destruct (Pos.compare_cont Eq m m').
  - rewrite (Z.compare_antisym e e'). destruct (e ?= e'); simpl; try done.
    rewrite (Pos.compare_cont_antisym m m' Eq). simpl.
    by destruct (Pos.compare_cont Eq m m').
Qed.

Lemma SFcompare_nan_free (x y : float) :
  is_nan x = false -> is_nan y = false -> is_Some (SFcompare x y).
Proof. destruct x, y; simpl; try done; eauto. Qed.

Lemma fmax_cases (x c : float) :
  is_nan c = false ->
  fmax x c = c \/ (fmax x c = x /\ is_nan x = false /\ flt x c = false).
Proof.
  intros Hc. unfold fmax.
  destruct x, c; try done; try (by left);
    match goal with |- context [flt ?a ?b] => destruct (flt a b) eqn:Hlt end;
    (by left) || (by right).
Qed.

Lemma fmax_lower_bound (c x : float) : is_nan c = false -> fle c (fmax x c) = true.
Proof.
  intros Hc. destruct (fmax_cases x c Hc) as [-> | (-> & Hx & Hlt)].
  - unfold fle, SFleb. by rewrite SFcompare_refl.
  - unfold fle, SFleb, flt, SFltb in *.
    rewrite (SFcompare_antisym x c).
    destruct (SFcompare_nan_free x c Hx Hc) as [o Ho]. rewrite Ho in *.
    by destruct o.
Qed.

Lemma not_flt_fle (x y : float) :
  is_nan x = false -> is_nan y = false -> flt x y = false -> fle y x = true.
Proof.
  intros Hx Hy. unfold fle, SFleb, flt, SFltb.
  rewrite (SFcompare_antisym x y).
  destruct (SFcompare_nan_free x y Hx Hy) as [o ->]. by destruct o.
Qed.

(** Adding to, or subtracting from, [+0]. *)
Lemma fadd_0_l (x : float) : (f0 + x)%f32 = unsigned_zero x.
Proof. destruct x as [[]|[]| |]; reflexivity. Qed.

Lemma fadd_0_r (x : float) : (x + f0)%f32 = unsigned_zero x.
Proof. destruct x as [[]|[]| |]; reflexivity. Qed.

Lemma fsub_0_l (x : float) : (f0 - x)%f32 = unsigned_zero (- x)%f32.
Proof. destruct x as [[]|[]| |]; reflexivity. Qed.

Lemma unsigned_zero_idemp (x : float) : unsigned_zero (unsigned_zero x) = unsigned_zero x.
Proof. by destruct x. Qed.

Lemma same_value_negation (x : float) :
  same_value (unsigned_zero (- x)%f32) (- unsigned_zero x)%f32.
Proof. destruct x; [right | left ..]; done. Qed.

Lemma flt_asym (x y : float) : flt x y = true -> flt y x = false.
Proof.
  unfold flt, SFltb. rewrite (SFcompare_antisym x y).
  by destruct (SFcompare x y) as [[]|].
Qed.

Lemma flt_nan_l (x y : float) : is_nan x = true -> flt x y = false.
Proof. by destruct x. Qed.

Lemma flt_nan_r (x y : float) : is_nan y = true -> flt x y = false.
Proof. destruct y; try done. by destruct x. Qed.
End FloatFacts.

(* ===================================================================== *)
(** * Properties of the vector operations                                  *)
(* ===================================================================== *)

Section VecOpsFacts.

(** C10. Every packed [fast_float3] operation, read back through the
    [x], [y], [z] view, is the componentwise [float3] operation on the same
    component values: addition, subtraction, elementwise product, product
    with a scalar on either side, both [make_fast_float3] overloads, and
    [norm2] (which is [a.x*a.x + a.y*a.y + a.z*a.z]). *)
Theorem fast_float3_refines_float3 :
  forall (a b : fast_float3) (s : float) (q : float4),
    to_float3 (ff_add a b) = Plain.add (to_float3 a) (to_float3 b)
    /\ to_float3 (ff_sub a b) = Plain.sub (to_float3 a) (to_float3 b)
    /\ to_float3 (ff_mul a b) = Plain.mul (to_float3 a) (to_float3 b)
    /\ to_float3 (ff_mul_s a s) = Plain.scale_r (to_float3 a) s
    /\ to_float3 (ff_s_mul s a) = Plain.scale_l s (to_float3 a)
    /\ to_float3 (make_fast_float3 s) = make_float3_s s
    /\ to_float3 (make_fast_float3_4 q) = make_float3_4 q
    /\ ff_norm2 a = norm2 (to_float3 a)
    /\ ff_norm2 a = ((ff_x a * ff_x a + ff_y a * ff_y a) + ff_z a * ff_z a)%f32.
Proof.
  intros [[ax ay] az] [[bx by_] bz] s [qx qy qz qw].
  repeat split.
Qed.

End VecOpsFacts.

Section CosAngleFacts.

(** X1. Whatever the reciprocal square root computes, the result of
    [cos_angle] is a NaN or lies inside [[-1, 1]]: the clamp lets no number
    outside the interval through. *)
Lemma cos_angle_range_or_nan (rsqrt : float -> float) (a b : float3) :
  is_nan (cos_angle rsqrt a b) = true
  \/ (fle fm1 (cos_angle rsqrt a b) = true /\ fle (cos_angle rsqrt a b) f1 = true).
Proof.
  unfold cos_angle.
  set (cosval := if (_ >? f0)%f32 then _ else f1). clearbody cosval.
  destruct (cosval >? f1)%f32 eqn:Hgt; [by right|].
  destruct (cosval <? fm1)%f32 eqn:Hlt; [by right|].
  destruct (is_nan cosval) eqn:Hnan; [by left|right].
  split; apply not_flt_fle; done.
Qed.

(** C9. On the finite inputs [overflow_a], [overflow_b] the function
    returns a NaN, whatever [__frsqrt_rn] computes: both squared norms
    overflow to [+inf], their product is [+inf > 0], the scalar product is
    [inf - inf], and a NaN passes both clamping comparisons.  The result is
    therefore not in [[-1, 1]]. *)
Theorem cos_angle_overflow_is_nan :
  forall rsqrt : float -> float,
    cos_angle rsqrt Examples.overflow_a Examples.overflow_b = S754_nan
    /\ fle fm1 (cos_angle rsqrt Examples.overflow_a Examples.overflow_b) = false
    /\ fle (cos_angle rsqrt Examples.overflow_a Examples.overflow_b) f1 = false.
Proof.
  intros rsqrt.
  assert (H : cos_angle rsqrt Examples.overflow_a Examples.overflow_b = S754_nan)
    by reflexivity.
  rewrite H. repeat split.
Qed.

End CosAngleFacts.

(* ===================================================================== *)
(** * Properties of the data-management layer                              *)
(* ===================================================================== *)

Section EwaldSelectionFacts.

(** C8. With both [GMX_GPU_NB_ANA_EWALD] and [GMX_GPU_NB_TAB_EWALD] in
    the environment the Ewald kernel-type selection ends in a fatal error and
    yields no kernel variant; with at most one of them it returns a variant.
    This holds for every build configuration, device and pair of cutoffs. *)
Theorem ewald_env_conflict_is_fatal :
  forall (backend : GpuBackend) (env : Environment)
         (ic : interaction_const_t) (dev : DeviceInformation),
    (is_Some (env !! "GMX_GPU_NB_ANA_EWALD") /\ is_Some (env !! "GMX_GPU_NB_TAB_EWALD")
     -> exists msg, nbnxn_gpu_pick_ewald_kernel_type backend env ic dev = Fatal msg)
    /\ (~ (is_Some (env !! "GMX_GPU_NB_ANA_EWALD")
           /\ is_Some (env !! "GMX_GPU_NB_TAB_EWALD"))
        -> exists variant,
          nbnxn_gpu_pick_ewald_kernel_type backend env ic dev = Done variant).
Proof.
  intros backend env ic dev.
  unfold nbnxn_gpu_pick_ewald_kernel_type, getenv_set.
  destruct (env !! "GMX_GPU_NB_ANA_EWALD") as [a|] eqn:Ha;
    destruct (env !! "GMX_GPU_NB_TAB_EWALD") as [b|] eqn:Hb; simpl.
  - split; [eauto | intros H; exfalso; apply H; split; eauto].
  - split; [intros [_ [? ?]]; done |].
    intros _. destruct (_ && _); eauto.
  - split; [intros [[? ?] _]; done |].
    intros _. destruct (_ && _); eauto.
  - split; [intros [[? ?] _]; done |].
    intros _. destruct (_ && _); destruct (negb _); eauto.
Qed.

(** The theorem at two environments: both overrides set, and only the
    tabulated one. *)
Lemma ewald_env_conflict_is_fatal_witness :
  (exists msg,
      nbnxn_gpu_pick_ewald_kernel_type GMX_GPU_HIP Examples.env_both
        Examples.ic_1nm Examples.device0 = Fatal msg)
  /\ (exists variant,
         nbnxn_gpu_pick_ewald_kernel_type GMX_GPU_HIP Examples.env_tab
           Examples.ic_1nm Examples.device0 = Done variant).
Proof.
  split.
  - apply (proj1 (ewald_env_conflict_is_fatal GMX_GPU_HIP Examples.env_both
                    Examples.ic_1nm Examples.device0)).
    split; vm_compute; eauto.
  - apply (proj2 (ewald_env_conflict_is_fatal GMX_GPU_HIP Examples.env_tab
                    Examples.ic_1nm Examples.device0)).
    intros [H _]. vm_compute in H. by destruct H.
Defined.

End EwaldSelectionFacts.

Section WriteRangeFacts.
Context {A : Type}.
Lemma write_range_length (cells : list (option A)) (start : nat) (vs : list A) :
  (start + length vs <= length cells)%nat ->
  length (write_range cells start vs) = length cells.
Proof.
  intros H. unfold write_range.
  rewrite !length_app, length_take, length_fmap, length_drop. lia.
Qed.

Lemma write_range_lookup_in (cells : list (option A)) (start : nat) (vs : list A) (k : nat) :
  (start + length vs <= length cells)%nat ->
  (start <= k < start + length vs)%nat ->
  write_range cells start vs !! k = Some <$> (vs !! (k - start)%nat).
Proof.
  intros H Hk. unfold write_range.
  rewrite lookup_app_r; rewrite length_take; [|lia].
  rewrite lookup_app_l; [|rewrite length_fmap; lia].
  rewrite list_lookup_fmap. f_equal. f_equal. lia.
Qed.

Lemma write_range_lookup_out (cells : list (option A)) (start : nat) (vs : list A) (k : nat) :
  (start + length vs <= length cells)%nat ->
  (k < start \/ start + length vs <= k)%nat ->
  write_range cells start vs !! k = cells !! k.
Proof.
  intros H Hk. unfold write_range. destruct Hk as [Hk|Hk].
  - rewrite lookup_app_l; [|rewrite length_take; lia].
    by rewrite lookup_take_lt.
  - rewrite lookup_app_r; rewrite length_take; [|lia].
    rewrite lookup_app_r; rewrite length_fmap; [|lia].
    rewrite lookup_drop. f_equal. lia.
Qed.

Lemma write_range_take0 (cells : list (option A)) (vs : list A) :
  (length vs <= length cells)%nat ->
  take (length vs) (write_range cells 0 vs) = Some <$> vs.
Proof.
  intros H. unfold write_range. simpl.
  rewrite take_app_le; [|by rewrite length_fmap].
  rewrite take_ge; [done | by rewrite length_fmap].
Qed.
End WriteRangeFacts.

Section ReallocFacts.
Variable oal : Z -> Z.
Variable split : Z.
Hypothesis oal_ge : forall n, 0 <= n -> n <= oal n.
Hypothesis split_nonneg : 0 <= split.

Lemma len_nonneg {A} (l : list A) : 0 <= len l.
Proof. unfold len. lia. Qed.

Lemma realloc_copy {A : Type} (buf : DeviceBuffer A) (host : list A) (cur curmax : Z) :
  buffer_holds buf curmax ->
  exists cells,
    copyToDeviceBuffer (reallocateDeviceBuffer oal buf (len host) cur curmax).1.1
                       host 0 (len host) = Done (Some cells)
    /\ (reallocateDeviceBuffer oal buf (len host) cur curmax).1.2 = len host
    /\ buffer_holds (Some cells) (reallocateDeviceBuffer oal buf (len host) cur curmax).2
    /\ take (Z.to_nat (len host)) cells = Some <$> host.
Proof.
  intros Hb. pose proof (len_nonneg host) as Hn.
  assert (Hcap : exists cells0,
             (reallocateDeviceBuffer oal buf (len host) cur curmax).1.1 = Some cells0
             /\ len cells0 = (reallocateDeviceBuffer oal buf (len host) cur curmax).2
             /\ len host <= len cells0
             /\ (reallocateDeviceBuffer oal buf (len host) cur curmax).1.2 = len host).
  { unfold reallocateDeviceBuffer. destruct (curmax <? len host) eqn:E; simpl.
    - pose proof (oal_ge _ Hn). eexists; split; [reflexivity|].
      unfold len. rewrite length_replicate. unfold len in *. lia.
    - apply Z.ltb_ge in E. destruct Hb as [[-> _]|(H0 & cells & -> & Hl)]; [lia|].
      exists cells. repeat split; lia. }
  destruct Hcap as (cells0 & -> & Hlen & Hle & Hn').
  unfold copyToDeviceBuffer. destruct (len host =? 0) eqn:E0.
  - apply Z.eqb_eq in E0. exists cells0. repeat split; try done.
    + right. split; [lia|]. eauto.
    + rewrite E0. simpl. unfold len in E0. by destruct host.
  - unfold in_range. simpl.
    match goal with |- context [if ?c then _ else _] =>
      assert (Hr : c = true)
        by (unfold len in *; rewrite !andb_true_iff, !Z.leb_le; lia);
      rewrite Hr
    end.
    eexists. split; [reflexivity|].
    assert (Ht : take (Z.to_nat (len host)) host = host).
    { apply take_ge. unfold len. lia. }
    rewrite Ht. repeat split; try done.
    + right. split; [lia|]. eexists. split; [reflexivity|].
      unfold len. rewrite write_range_length; unfold len in *; simpl; lia.
    + unfold len at 1. rewrite Nat2Z.id. apply write_range_take0. unfold len in *. lia.
Qed.
End ReallocFacts.

Section PairlistFacts.
Variable oal : Z -> Z.
Variable split : Z.
Hypothesis oal_ge : forall n, 0 <= n -> n <= oal n.
Hypothesis split_nonneg : 0 <= split.

Lemma realloc_holds {A : Type} (buf : DeviceBuffer A) (n cur curmax : Z) :
  0 <= n -> buffer_holds buf curmax ->
  buffer_holds (reallocateDeviceBuffer oal buf n cur curmax).1.1
               (reallocateDeviceBuffer oal buf n cur curmax).2.
Proof.
  intros Hn Hb. unfold reallocateDeviceBuffer.
  destruct (curmax <? n) eqn:E; simpl; [|done].
  pose proof (oal_ge _ Hn). right. split; [lia|].
  eexists; split; [reflexivity|]. unfold len. rewrite length_replicate. lia.
Qed.

Lemma init_plist_wf (pl : gpu_plist) : plist_wf (init_plist pl).
Proof. repeat split; by left. Qed.

Lemma gpu_init_pairlist_proceeds (nb : NbnxmGpu) (h : NbnxnPairlistGpu)
      (iloc : InteractionLocality.t) (pl : gpu_plist) :
  ea_get (plist nb) iloc = Some pl ->
  plist_wf pl ->
  na_c pl < 0 \/ na_c pl = na_ci h ->
  exists nb' pl',
    gpu_init_pairlist oal split nb h iloc = Done nb'
    /\ ea_get (plist nb') iloc = Some pl'
    /\ na_c pl' = na_ci h
    /\ haveFreshList pl' = true
    /\ uploaded pl' h
    /\ nsci pl' = len (h_sci h)
    /\ plist_wf pl'.
Proof.
  intros Hpl (Hs & Hc & Hi & He) Hna.
  unfold gpu_init_pairlist. rewrite Hpl.
  set (d1 := if na_c pl <? 0 then set_na_c pl (na_ci h) else pl).
  assert (Hd1 : (if na_c pl <? 0
                 then Done (set_na_c pl (na_ci h))
                 else if negb (na_c pl =? na_ci h)
                      then Fatal ("In init_plist: the #atoms per cell has changed (from "
                                  +:+ pretty (na_c pl) +:+ " to "
                                  +:+ pretty (na_ci h) +:+ ")")
                      else Done pl) = Done d1).
  { unfold d1. destruct (na_c pl <? 0) eqn:E; [done|].
    apply Z.ltb_ge in E. destruct Hna as [?|Heq]; [lia|].
    apply Z.eqb_eq in Heq. by rewrite Heq. }
  rewrite Hd1. simpl.
  assert (Hd1s : d_sci d1 = d_sci pl /\ sci_nalloc d1 = sci_nalloc pl
                 /\ d_cj4 d1 = d_cj4 pl /\ cj4_nalloc d1 = cj4_nalloc pl
                 /\ d_imask d1 = d_imask pl /\ imask_nalloc d1 = imask_nalloc pl
                 /\ d_excl d1 = d_excl pl /\ excl_nalloc d1 = excl_nalloc pl
                 /\ na_c d1 = na_ci h).
  { unfold d1. destruct (na_c pl <? 0) eqn:E; simpl; repeat split; try done.
    apply Z.ltb_ge in E. destruct Hna; lia. }
  destruct Hd1s as (-> & -> & -> & -> & -> & -> & -> & -> & Hnac).
  destruct (realloc_copy oal oal_ge (d_sci pl) (h_sci h) (nsci d1) _ Hs)
    as (cs & Hcs & Hns & Hhs & Hts).
  destruct (realloc_copy oal oal_ge (d_cj4 pl) (h_cj4 h) (ncj4 d1) _ Hc)
    as (cc & Hcc & Hnc & Hhc & Htc).
  destruct (realloc_copy oal oal_ge (d_excl pl) (h_excl h) (nexcl d1) _ He)
    as (ce & Hce & Hne & Hhe & Hte).
  assert (Him := realloc_holds (d_imask pl) (len (h_cj4 h) * split) (nimask d1) _
                   ltac:(pose proof (len_nonneg (h_cj4 h)); nia) Hi).
  destruct (reallocateDeviceBuffer oal (d_sci pl) _ _ _) as [[sci0 nsci'] scin'].
  simpl in Hcs, Hns, Hhs. rewrite Hcs. simpl.
  destruct (reallocateDeviceBuffer oal (d_cj4 pl) _ _ _) as [[cj40 ncj4'] cj4n'].
  simpl in Hcc, Hnc, Hhc. rewrite Hcc. simpl.
  destruct (reallocateDeviceBuffer oal (d_imask pl) _ _ _) as [[im0 nim'] imn'].
  destruct (reallocateDeviceBuffer oal (d_excl pl) _ _ _) as [[ex0 nex'] exn'].
  simpl in Hce, Hne, Hhe, Him. rewrite Hce. simpl.
  eexists _, _. split; [reflexivity|].
  split; [by destruct iloc|].
  simpl. repeat split; try done; unfold plist_entries, device_prefix; simpl; by subst.
Qed.

Lemma gpu_init_pairlist_fatal (nb : NbnxmGpu) (h : NbnxnPairlistGpu)
      (iloc : InteractionLocality.t) (pl : gpu_plist) :
  ea_get (plist nb) iloc = Some pl ->
  0 <= na_c pl -> na_c pl <> na_ci h ->
  is_fatal (gpu_init_pairlist oal split nb h iloc) = true.
Proof.
  intros Hpl H0 Hne. unfold gpu_init_pairlist. rewrite Hpl.
  destruct (na_c pl <? 0) eqn:E; [apply Z.ltb_lt in E; lia|].
  destruct (na_c pl =? na_ci h) eqn:E2; [apply Z.eqb_eq in E2; lia|].
  reflexivity.
Qed.
End PairlistFacts.

Section PairlistSequenceFacts.
Variable oal : Z -> Z.
Variable split : Z.
Hypothesis oal_ge : forall n, 0 <= n -> n <= oal n.
Hypothesis split_nonneg : 0 <= split.

Lemma upload_pairlists_same_size (iloc : InteractionLocality.t) (v : Z)
      (later : list NbnxnPairlistGpu) :
  Forall (fun h' => na_ci h' = v) later ->
  forall (nb : NbnxmGpu) (pl : gpu_plist) (hprev : NbnxnPairlistGpu),
    ea_get (plist nb) iloc = Some pl ->
    plist_wf pl -> na_c pl = v -> haveFreshList pl = true -> uploaded pl hprev ->
    exists nbk plk,
      upload_pairlists oal split nb iloc later = Done nbk
      /\ ea_get (plist nbk) iloc = Some plk
      /\ plist_wf plk /\ na_c plk = v /\ haveFreshList plk = true
      /\ uploaded plk (default hprev (last later)).
Proof.
  induction 1 as [|h later Hh Hl IH]; intros nb pl hprev Hpl Hwf Hna Hfresh Hup.
  - exists nb, pl. simpl. auto 10.
  - destruct (gpu_init_pairlist_proceeds oal split oal_ge split_nonneg nb h iloc pl Hpl Hwf)
      as (nb' & pl' & Hrun & Hpl' & Hna' & Hfr' & Hup' & _ & Hwf'); [right; lia|].
    destruct (IH nb' pl' h Hpl' Hwf' ltac:(lia) Hfr' Hup')
      as (nbk & plk & Hk & ? & ? & ? & ? & Hupk).
    exists nbk, plk. simpl. rewrite Hrun. simpl.
    repeat (split; [done|]).
    rewrite last_cons. by destruct (last later); simpl in *.
Qed.

(** C7. For a locality whose device list is as [init_plist] leaves it,
    the first call of [gpu_init_pairlist] adopts the host list's [na_ci]
    (a cluster size, so not negative).  After any number of further calls
    with that same [na_ci], each of which uploads its list and sets
    [haveFreshList], the stored value is still the adopted one, and the next
    call ends in a fatal error if its [na_ci] differs from it, and otherwise
    proceeds: it uploads the list, keeps the stored value and marks the list
    as requiring pruning.  [oal] is the growth policy, which never returns
    less than what is asked for. *)
Theorem gpu_init_pairlist_cluster_size_check
        (nb : NbnxmGpu) (iloc : InteractionLocality.t) (pl0 : gpu_plist)
        (h1 : NbnxnPairlistGpu) (later : list NbnxnPairlistGpu) (h : NbnxnPairlistGpu) :
  ea_get (plist nb) iloc = Some (init_plist pl0) ->
  0 <= na_ci h1 ->
  Forall (fun h' => na_ci h' = na_ci h1) later ->
  exists nbk plk,
    upload_pairlists oal split nb iloc (h1 :: later) = Done nbk
    /\ ea_get (plist nbk) iloc = Some plk
    /\ na_c plk = na_ci h1
    /\ haveFreshList plk = true
    /\ uploaded plk (default h1 (last later))
    /\ (na_ci h <> na_ci h1 ->
        is_fatal (gpu_init_pairlist oal split nbk h iloc) = true)
    /\ (na_ci h = na_ci h1 ->
        exists nb' pl',
          gpu_init_pairlist oal split nbk h iloc = Done nb'
          /\ ea_get (plist nb') iloc = Some pl'
          /\ na_c pl' = na_ci h1
          /\ haveFreshList pl' = true
          /\ uploaded pl' h).
Proof.
  intros Hpl H0 Hlater.
  destruct (gpu_init_pairlist_proceeds oal split oal_ge split_nonneg nb h1 iloc _ Hpl
              (init_plist_wf pl0))
    as (nb1 & pl1 & Hrun & Hpl1 & Hna1 & Hfr1 & Hup1 & _ & Hwf1); [left; simpl; lia|].
  destruct (upload_pairlists_same_size iloc (na_ci h1) later Hlater nb1 pl1 h1
              Hpl1 Hwf1 Hna1 Hfr1 Hup1)
    as (nbk & plk & Hk & Hplk & Hwfk & Hnak & Hfrk & Hupk).
  exists nbk, plk. simpl. rewrite Hrun. simpl.
  repeat (split; [done|]). split.
  - intros Hne. apply (gpu_init_pairlist_fatal oal split nbk h iloc plk Hplk); lia.
  - intros Heq.
    destruct (gpu_init_pairlist_proceeds oal split oal_ge split_nonneg nbk h iloc plk Hplk Hwfk)
      as (nb' & pl' & ? & ? & ? & ? & ? & _); [right; lia|].
    exists nb', pl'. repeat (split; [done || lia|]). done.
Qed.
End PairlistSequenceFacts.

Section HaveWorkFacts.
Variable oal : Z -> Z.
Variable split : Z.

(** C6, as worded, fails on a handle fresh from [gpu_init]: the local
    list has no entry ([nsci = -1], null [sci]) and there is no bonded work,
    yet [nsci != 0] makes the flag true. *)
Lemma have_work_claim_fails_before_upload :
  ~ have_work_claim Examples.nb_fresh None InteractionLocality.Local.
Proof.
  intros H.
  destruct (H (init_plist Examples.blank_plist) _ eq_refl eq_refl) as [H1 _].
  destruct (H1 eq_refl) as [Hne | Hb]; [by apply Hne | done].
Qed.

Lemma gpu_init_pairlist_nsci (nb nb1 : NbnxmGpu) (h : NbnxnPairlistGpu)
      (iloc : InteractionLocality.t) :
  gpu_init_pairlist oal split nb h iloc = Done nb1 ->
  exists pl', ea_get (plist nb1) iloc = Some pl' /\ nsci pl' = len (h_sci h).
Proof.
  unfold gpu_init_pairlist. destruct (ea_get (plist nb) iloc) as [pl|]; [|done].
  destruct (if na_c pl <? 0 then _ else _) as [d1| |]; simpl; try done.
  unfold reallocateDeviceBuffer.
  repeat match goal with
         | |- context [if ?c then (_, _, _) else _] => destruct c
         end;
  repeat match goal with
         | |- context [copyToDeviceBuffer ?a ?b ?c ?d] =>
             destruct (copyToDeviceBuffer a b c d); simpl; try done
         end;
  intros [= <-]; eexists; (split; [by destruct iloc | done]).
Qed.

(** C6, amended.  Once [gpu_init_pairlist] has uploaded a host list for
    the locality, [setupGpuShortRangeWork] returns and makes
    [haveGpuShortRangeWork] true for that locality exactly when the uploaded
    list has at least one super-cluster entry or the bonded-forces
    collaborator reports interactions; so it is false for an empty list
    without bonded work. *)
Theorem have_work_after_pairlist_upload
        (nb nb1 : NbnxmGpu) (h : NbnxnPairlistGpu) (iloc : InteractionLocality.t)
        (lf : option ListedForcesGpu) :
  gpu_init_pairlist oal split nb h iloc = Done nb1 ->
  exists nb2,
    setupGpuShortRangeWork nb1 lf iloc = Done nb2
    /\ (haveGpuShortRangeWork nb2 iloc = true
        <-> h_sci h <> [] \/ bonded_work lf = true).
Proof.
  intros H. destruct (gpu_init_pairlist_nsci _ _ _ _ H) as (pl' & Hpl & Hn).
  unfold setupGpuShortRangeWork. rewrite Hpl. eexists. split; [reflexivity|].
  unfold haveGpuShortRangeWork. simpl.
  assert (Hg : forall (a : EnumerationArray bool) b, ea_get (ea_set a iloc b) iloc = b)
    by (by destruct iloc).
  rewrite Hg, Hn. fold (bonded_work lf).
  rewrite orb_true_iff, negb_true_iff, Z.eqb_neq.
  unfold len. split; (intros [Hl|Hb]; [left|by right]); destruct (h_sci h); simpl in *; try done; lia.
Qed.
End HaveWorkFacts.


Section AtomDataBufferFacts.
Variable oas : Z -> Z.
Variable useLjCombRule : VdwType.t -> bool.

Lemma write_range_all {A : Type} (cells : list (option A)) (vs : list A) :
  length vs = length cells -> write_range cells 0 vs = Some <$> vs.
Proof.
  intros H. unfold write_range. simpl. rewrite drop_ge; [|lia]. by rewrite app_nil_r.
Qed.

Lemma clear_fresh {A : Type} (zero : A) (cap : Z) :
  0 <= cap ->
  clearDeviceBufferAsync zero (allocateDeviceBuffer cap) 0 cap
  = Done (Some (replicate (Z.to_nat cap) (Some zero))).
Proof.
  intros H. unfold clearDeviceBufferAsync, allocateDeviceBuffer.
  destruct (cap =? 0) eqn:E.
  - apply Z.eqb_eq in E. by subst.
  - unfold in_range. rewrite length_replicate.
    match goal with |- context [if ?c then _ else _] =>
      assert (Hr : c = true) by (rewrite !andb_true_iff, !Z.leb_le; lia);
      rewrite Hr
    end.
    rewrite write_range_all; [|by rewrite !length_replicate].
    by rewrite fmap_replicate.
Qed.

Lemma copy_params {A : Type} (cells : list (option A)) (host : list A) (n : Z) :
  0 <= n -> n <= len cells -> n <= len host ->
  exists cells',
    copyToDeviceBuffer (Some cells) host 0 n = Done (Some cells')
    /\ len cells' = len cells
    /\ take (Z.to_nat n) cells' = Some <$> take (Z.to_nat n) host
    /\ drop (Z.to_nat n) cells' = drop (Z.to_nat n) cells.
Proof.
  intros H0 Hc Hh. unfold copyToDeviceBuffer. destruct (n =? 0) eqn:E.
  - apply Z.eqb_eq in E. subst. exists cells. by repeat split.
  - unfold in_range.
    match goal with |- context [if ?c then _ else _] =>
      assert (Hr : c = true)
        by (unfold len in *; rewrite !andb_true_iff, !Z.leb_le; lia);
      rewrite Hr
    end.
    eexists. split; [reflexivity|].
    assert (Hl : length (take (Z.to_nat n) host) = Z.to_nat n).
    { rewrite length_take. unfold len in *. lia. }
    repeat split.
    + unfold len. rewrite write_range_length; [done|]. unfold len in *. simpl. lia.
    + rewrite <- Hl at 1. apply write_range_take0. unfold len in *. lia.
    + unfold write_range. simpl. rewrite Hl.
      rewrite drop_app_length'; [done|]. by rewrite length_fmap.
Qed.
End AtomDataBufferFacts.

Section AtomDataStepFacts.
Variable oas : Z -> Z.
Variable useLjCombRule : VdwType.t -> bool.

Lemma gpu_init_atomdata_step (nb : NbnxmGpu) (nbat : nbnxn_atomdata_t) :
  let useLj := useLjCombRule (vdwType nb) in
  atdat_wf useLj (atdat nb) ->
  host_params_ok useLj nbat ->
  nbat_numAtoms nbat <= oas (nbat_numAtoms nbat) ->
  exists nb',
    gpu_init_atomdata oas useLjCombRule nb nbat = Done nb'
    /\ vdwType nb' = vdwType nb
    /\ atdat_wf useLj (atdat nb')
    /\ atomdata_call_spec oas useLj (atdat nb) nbat (atdat nb').
Proof.
  intros useLj Hwf [Hn Hhost] Hoas.
  unfold gpu_init_atomdata, realloc_atomdata. fold useLj.
  set (n := nbat_numAtoms nbat) in *.
  destruct (numAtomsAlloc (atdat nb) <? n) eqn:Hre.
  - (* reallocation *)
    apply Z.ltb_lt in Hre.
    assert (Hcap : 0 <= oas n) by lia.
    assert (Hclr := clear_fresh zero_Float3 (oas n) Hcap).
    assert (Hfresh : forall A : Type,
               len (replicate (Z.to_nat (oas n)) (@None A)) = oas n).
    { intros A. unfold len. rewrite length_replicate. lia. }
    destruct (negb (numAtomsAlloc (atdat nb) =? -1)); destruct useLj eqn:Hlj;
      cbn [fst snd]; rewrite Hclr; cbn [mbind outcome_bind bind].
    all: first
      [ destruct (copy_params (replicate (Z.to_nat (oas n)) None)
                              (asFloat2 (params_lj_comb nbat)) n Hn
                              ltac:(rewrite Hfresh; lia) Hhost)
          as (cells' & Hcp & Hlen & Htk & Hdr)
      | destruct (copy_params (replicate (Z.to_nat (oas n)) None)
                              (params_type nbat) n Hn
                              ltac:(rewrite Hfresh; lia) Hhost)
          as (cells' & Hcp & Hlen & Htk & Hdr) ];
      unfold allocateDeviceBuffer; rewrite Hcp; cbn [mbind outcome_bind bind];
      eexists; (split; [reflexivity|]); (split; [reflexivity|]); split.
    all: try (right; cbn; rewrite ?Hlj; repeat split; try lia;
              eexists; (split; [reflexivity|]);
              rewrite ?Hlen; unfold len; rewrite ?length_replicate; lia).
    all: unfold atomdata_call_spec, params_present; cbn; fold n; rewrite ?Hlj;
      repeat split; try lia; try done.
  - (* the buffers are kept *)
    apply Z.ltb_ge in Hre.
    destruct Hwf as [Hm1 | (H0 & Hf & Hx & Hp)]; [lia|].
    cbn [fst snd mbind outcome_bind bind].
    destruct useLj eqn:Hlj; destruct Hp as (cells & Hbuf & Hcl); rewrite Hbuf.
    all: first
      [ destruct (copy_params cells (asFloat2 (params_lj_comb nbat)) n Hn
                              ltac:(lia) Hhost)
          as (cells' & Hcp & Hlen & Htk & Hdr)
      | destruct (copy_params cells (params_type nbat) n Hn ltac:(lia) Hhost)
          as (cells' & Hcp & Hlen & Htk & Hdr) ];
      rewrite Hcp; cbn [mbind outcome_bind bind];
      eexists; (split; [reflexivity|]); (split; [reflexivity|]); split.
    all: try (right; cbn; rewrite ?Hlj; repeat split; try lia; try done;
              eexists; (split; [reflexivity|]); lia).
    all: unfold atomdata_call_spec, params_present; cbn; fold n; rewrite ?Hlj, ?Hbuf;
      repeat split; try lia; try done.
Qed.
End AtomDataStepFacts.

Section AtomDataGrowthFacts.
Variable oas : Z -> Z.
Variable useLjCombRule : VdwType.t -> bool.

(** C5. Over any sequence of calls of [gpu_init_atomdata], starting from
    atom data whose buffers agree with the recorded capacity (as after
    [initAtomdataFirst]), with host arrays that hold the parameters of the
    atoms they announce and a growth policy that gives at least what is asked
    for: every call returns, and each call satisfies [atomdata_call_spec]:
    the buffers are reallocated only when the count exceeds the capacity, the
    new capacity being [over_alloc_small numAtoms]; the capacity never
    shrinks; after a reallocation the force buffer is zero over the whole new
    capacity; and after each call the parameters of all atoms, hence of those
    within the previous capacity, are in the device buffer. *)
Theorem gpu_init_atomdata_growth (nbats : list nbnxn_atomdata_t) :
  forall nb : NbnxmGpu,
    atdat_wf (useLjCombRule (vdwType nb)) (atdat nb) ->
    Forall (fun nbat => host_params_ok (useLjCombRule (vdwType nb)) nbat
                        /\ nbat_numAtoms nbat <= oas (nbat_numAtoms nbat)) nbats ->
    exists states,
      atomdata_calls oas useLjCombRule nb nbats = Done states
      /\ length states = length nbats
      /\ forall (k : nat) before nbat after,
          (nb :: states) !! k = Some before ->
          nbats !! k = Some nbat ->
          states !! k = Some after ->
          atomdata_call_spec oas (useLjCombRule (vdwType nb))
                             (atdat before) nbat (atdat after).
Proof.
  induction nbats as [|nbat rest IH]; intros nb Hwf Hall.
  - exists []. by repeat split.
  - apply Forall_cons in Hall as [[Hhost Hoas] Hrest].
    destruct (gpu_init_atomdata_step oas useLjCombRule nb nbat Hwf Hhost Hoas)
      as (nb' & Hrun & Hvdw & Hwf' & Hspec).
    rewrite <- Hvdw in Hwf', Hrest.
    destruct (IH nb' Hwf' Hrest) as (states & Hrest_run & Hlen & Hsteps).
    exists (nb' :: states). simpl. rewrite Hrun. simpl. rewrite Hrest_run. simpl.
    split; [done|]. split; [by rewrite Hlen|].
    intros [|k] before nbat' after; simpl.
    + by intros [= <-] [= <-] [= <-].
    + intros Hb Hn Ha. rewrite <- Hvdw. by apply (Hsteps k).
Qed.
End AtomDataGrowthFacts.

Section DataMgmtWitnesses.

Lemma over_alloc_ge (n : Z) : 0 <= n -> n <= Examples.over_alloc n.
Proof.
  intros H. unfold Examples.over_alloc.
  pose proof (Z.div_pos n 5 H ltac:(lia)). lia.
Qed.

(** C7 at a first list of cluster size 8, followed by a second list of
    the same size, and then by a list of size 4. *)
Lemma gpu_init_pairlist_cluster_size_check_witness :
  exists nbk plk,
    upload_pairlists Examples.over_alloc 1 Examples.nb_fresh InteractionLocality.Local
                     [Examples.one_entry_list; Examples.one_entry_list] = Done nbk
    /\ ea_get (plist nbk) InteractionLocality.Local = Some plk
    /\ na_c plk = 8
    /\ haveFreshList plk = true
    /\ uploaded plk Examples.one_entry_list
    /\ (na_ci Examples.other_size_list <> 8 ->
        is_fatal (gpu_init_pairlist Examples.over_alloc 1 nbk Examples.other_size_list
                                    InteractionLocality.Local) = true)
    /\ (na_ci Examples.other_size_list = 8 ->
        exists nb' pl',
          gpu_init_pairlist Examples.over_alloc 1 nbk Examples.other_size_list
                            InteractionLocality.Local = Done nb'
          /\ ea_get (plist nb') InteractionLocality.Local = Some pl'
          /\ na_c pl' = 8
          /\ haveFreshList pl' = true
          /\ uploaded pl' Examples.other_size_list).
Proof.
  apply (gpu_init_pairlist_cluster_size_check Examples.over_alloc 1 over_alloc_ge
           ltac:(lia) Examples.nb_fresh InteractionLocality.Local Examples.blank_plist
           Examples.one_entry_list [Examples.one_entry_list] Examples.other_size_list).
  - reflexivity.
  - simpl. lia.
  - repeat constructor.
Defined.

(** C6 (amended) at the upload of a list with one entry, without bonded
    work. *)
Lemma have_work_after_pairlist_upload_witness :
  exists nb2,
    setupGpuShortRangeWork
      (default Examples.nb_fresh
         (match gpu_init_pairlist Examples.over_alloc 1 Examples.nb_fresh
                  Examples.one_entry_list InteractionLocality.Local with
          | Done nb1 => Some nb1
          | _ => None
          end)) None InteractionLocality.Local = Done nb2
    /\ (haveGpuShortRangeWork nb2 InteractionLocality.Local = true
        <-> h_sci Examples.one_entry_list <> [] \/ bonded_work None = true).
Proof.
  apply (have_work_after_pairlist_upload Examples.over_alloc 1 Examples.nb_fresh _
           Examples.one_entry_list InteractionLocality.Local None).
  vm_compute. reflexivity.
Defined.

(** C5 at two calls, for two and then three atoms. *)
Lemma gpu_init_atomdata_growth_witness :
  exists states,
    atomdata_calls Examples.over_alloc Examples.useLjCombRule Examples.nb_fresh
                   [Examples.host2; Examples.host3] = Done states
    /\ length states = 2%nat
    /\ forall (k : nat) before nbat after,
        (Examples.nb_fresh :: states) !! k = Some before ->
        [Examples.host2; Examples.host3] !! k = Some nbat ->
        states !! k = Some after ->
        atomdata_call_spec Examples.over_alloc false (atdat before) nbat (atdat after).
Proof.
  apply (gpu_init_atomdata_growth Examples.over_alloc Examples.useLjCombRule
           [Examples.host2; Examples.host3] Examples.nb_fresh).
  - left. reflexivity.
  - repeat constructor; vm_compute; congruence.
Defined.

End DataMgmtWitnesses.

Section EnergySlotFacts.


Lemma kernel_energy_effects_slot (D : DeviceLib) (fl : Flavor) (mm : bool)
      (args : KernelArgs) (bidx : Z) (e : Effect) (i : Z) :
  e ∈ nbnxn_kernel D fl mm args bidx ->
  effect_energy_index e = Some i ->
  i = energy_index_base mm bidx.
Proof.
  unfold nbnxn_kernel. rewrite !elem_of_app.
  intros [H|[H|[H|[H|H]]]] He.
  - unfold j_force_effects in H.
    repeat (apply list_elem_of_bind in H as (? & H & _)).
    apply list_elem_of_singleton in H. by subst.
  - unfold i_force_effects in H.
    repeat (apply list_elem_of_bind in H as (? & H & _)).
    apply list_elem_of_singleton in H. by subst.
  - unfold fshift_effects in H. destruct (calc_fshift _ _ _); [|by apply elem_of_nil in H].
    repeat (apply list_elem_of_bind in H as (? & H & _)).
    apply list_elem_of_singleton in H. by subst.
  - unfold energy_effects in H. destruct (CALC_ENERGIES fl); [|by apply elem_of_nil in H].
    apply elem_of_cons in H as [->|H]; [by injection He as <-|].
    apply list_elem_of_singleton in H as ->. by injection He as <-.
  - unfold imask_effects in H. apply list_elem_of_fmap in H as (? & -> & _). done.
Qed.




End EnergySlotFacts.

(* ===================================================================== *)
(** * Properties of the kernel                                             *)
(* ===================================================================== *)

Section CutoffFacts.
Variable D : DeviceLib.
Variable fl : Flavor.
Variable args : KernelArgs.
Variable bidx : Z.
Variable t : Thread.
Variable nb_any : Z -> Z -> Z -> bool.

Lemma check_fails_at_or_above_cutoff (r2 : float) (wexcl n ci cj_ : Z) :
  (r2 <? rcoulomb_sq (nbparam args))%f32 = false ->
  cutoff_exclusion_check D fl args bidx t r2 (excl_bit wexcl n) ci cj_ = false.
Proof.
  intros H. unfold cutoff_exclusion_check. rewrite H.
  destruct (EXCLUSION_FORCES fl); [done|].
  unfold excl_bit. by destruct (_ =? 0).
Qed.

(** C1. In the loop over the i-clusters a pair contributes only when
    its squared distance is strictly below [rcoulomb_sq].  Whenever the test
    [r2 < rcoulomb_sq] is false, the iteration leaves the force accumulators
    [fcj_buf], [fci_buf] and the energy sums as they were: so when [r2] is
    exactly the squared cutoff (the same float, or equal to it as a number),
    when it is above the squared cutoff, and when [r2] or the cutoff is a NaN.
    When the pair is in the list, not excluded and [r2 < rcoulomb_sq], the
    iteration adds [f_ij] to [fcj_buf], subtracts it from [fci_buf[i]] and,
    with energies, adds the pair's terms to the energy sums.  This holds for
    every kernel flavour and every implementation of the device helpers. *)
Theorem cutoff_check_is_strict
        (sh : Shmem) (j4 jm cj_ : Z) (xj : fast_float3) (qj_f : float)
        (typej : Z) (ljcp_j : float2) (wexcl : Z) (r : Regs) (mask_ji i : Z) :
  let r2 := pair_r2 t sh i xj in
  let rc := rcoulomb_sq (nbparam args) in
  let r' := (i_iteration D fl args bidx t nb_any sh j4 jm cj_ xj qj_f typej ljcp_j
                         wexcl (r, mask_ji) i).1 in
  let terms := pair_terms D fl args t sh jm xj qj_f typej ljcp_j wexcl i in
  let f_ij := pair_f_ij D fl args t sh jm xj qj_f typej ljcp_j wexcl i in
  let nothing_accumulated :=
    fcj_buf r' = fcj_buf r /\ fci_buf r' = fci_buf r
    /\ E_lj r' = E_lj r /\ E_el r' = E_el r in
  ((r2 <? rc)%f32 = false -> nothing_accumulated)
  /\ ((r2 = rc \/ feq r2 rc = true) -> nothing_accumulated)
  /\ ((rc <? r2)%f32 = true \/ is_nan r2 = true \/ is_nan rc = true ->
      nothing_accumulated)
  /\ (included r mask_ji ->
      not_excluded D fl args bidx t wexcl jm i cj_ ->
      (r2 <? rc)%f32 = true ->
      fcj_buf r' = ff_add (fcj_buf r) f_ij
      /\ fci_buf r'
         = <[Z.to_nat i := ff_sub (fci_buf r !!! Z.to_nat i) f_ij]> (fci_buf r)
      /\ (CALC_ENERGIES fl = true ->
          E_lj r' = (E_lj r + terms.1.2)%f32 /\ E_el r' = (E_el r + terms.2)%f32)).
Proof.
  intros r2 rc r' terms f_ij nothing_accumulated.
  assert (Hnot : (r2 <? rc)%f32 = false -> nothing_accumulated).
  { intros Hlt. subst nothing_accumulated r'. unfold i_iteration.
    destruct (negb (Z.land (r_imask r) mask_ji =? 0)); [|done].
    fold (pair_r2 t sh i xj). fold r2.
    by rewrite check_fails_at_or_above_cutoff. }
  split; [exact Hnot|]. split; [|split].
  - intros [-> | Heq]; apply Hnot; [apply flt_irrefl | by apply feq_not_flt].
  - intros [Hgt | [Hnan | Hnan]]; apply Hnot;
      [by apply flt_asym | by apply flt_nan_l | by apply flt_nan_r].
  - intros Hin [Hbit Hgeo] Hlt.
    subst r'. unfold i_iteration.
    unfold included in Hin. apply Z.eqb_neq in Hin. rewrite Hin. cbn [negb].
    fold (pair_r2 t sh i xj). fold r2.
    fold (pair_int_bit wexcl jm i).
    assert (Hchk : cutoff_exclusion_check D fl args bidx t r2
                     (pair_int_bit wexcl jm i)
                     (sci (nb_sci args bidx) * c_nbnxnGpuNumClusterPerSupercluster + i)
                     cj_ = true).
    { unfold cutoff_exclusion_check. fold rc. rewrite Hlt, Hbit.
      destruct (EXCLUSION_FORCES fl); [|done]. simpl.
      apply negb_true_iff, Z.eqb_neq. by apply Hgeo. }
    rewrite Hchk.
    subst terms f_ij. unfold pair_f_ij, pair_terms. fold r2.
    destruct (pair_interaction _ _ _ _ _ _ _ _ _ _ _ _ _ _) as [[F Elj] Eel]. cbn.
    split; [done|]. split; [done|]. by intros ->.
Qed.
End CutoffFacts.


Section RsqrtFacts.
Variable D : DeviceLib.

Lemma pair_interaction_rsqrt_ext (rsqrt : float -> float) (fl : Flavor) (nbp : NBParamGpu)
      (ntypes : Z) (c2 c6 r2 int_bit qi qj_f : float) (typei typej : Z)
      (ljcp_i ljcp_j : float2) :
  rsqrt (rsqrt_argument D r2) = __frsqrt_rn D (rsqrt_argument D r2) ->
  pair_interaction (with_rsqrt D rsqrt) fl nbp ntypes c2 c6 r2 int_bit qi qj_f
                   typei typej ljcp_i ljcp_j
  = pair_interaction D fl nbp ntypes c2 c6 r2 int_bit qi qj_f typei typej ljcp_i ljcp_j.
Proof.
  intros H. unfold pair_interaction.
  change (__frsqrt_rn (with_rsqrt D rsqrt) (rsqrt_argument (with_rsqrt D rsqrt) r2))
    with (rsqrt (rsqrt_argument D r2)).
  rewrite H. reflexivity.
Qed.

Lemma i_iteration_rsqrt_ext (rsqrt : float -> float) fl args bidx t nb_any sh j4 jm cj_ xj qj_f typej ljcp_j wexcl st i :
  (forall x, fle (c_nbnxnMinDistanceSquared D) x = true -> rsqrt x = __frsqrt_rn D x) ->
  is_nan (c_nbnxnMinDistanceSquared D) = false ->
  i_iteration (with_rsqrt D rsqrt) fl args bidx t nb_any sh j4 jm cj_ xj qj_f typej ljcp_j wexcl st i
  = i_iteration D fl args bidx t nb_any sh j4 jm cj_ xj qj_f typej ljcp_j wexcl st i.
Proof.
  intros Hext Hc. unfold i_iteration. destruct st as [r m].
  rewrite pair_interaction_rsqrt_ext; [reflexivity|].
  apply Hext, fmax_lower_bound, Hc.
Qed.

(** C4. The kernel passes [max(r2, c_nbnxnMinDistanceSquared)] to the
    reciprocal square root: the argument is at least the minimum (which is a
    number, not a NaN), and the iteration over an i-cluster, hence [inv_r] and
    all that is computed from it, does not depend on what [__frsqrt_rn]
    returns for arguments below the minimum. *)
Theorem rsqrt_argument_is_clamped
        (rsqrt : float -> float) (fl : Flavor) (args : KernelArgs) (bidx : Z)
        (t : Thread) (nb_any : Z -> Z -> Z -> bool) (sh : Shmem) (j4 jm cj_ : Z)
        (xj : fast_float3) (qj_f : float) (typej : Z) (ljcp_j : float2) (wexcl : Z)
        (st : Regs * Z) (i : Z) (r2 : float) :
  is_nan (c_nbnxnMinDistanceSquared D) = false ->
  (forall x, fle (c_nbnxnMinDistanceSquared D) x = true -> rsqrt x = __frsqrt_rn D x) ->
  rsqrt_argument D r2 = fmax r2 (c_nbnxnMinDistanceSquared D)
  /\ fle (c_nbnxnMinDistanceSquared D) (rsqrt_argument D r2) = true
  /\ i_iteration (with_rsqrt D rsqrt) fl args bidx t nb_any sh j4 jm cj_ xj qj_f
                 typej ljcp_j wexcl st i
     = i_iteration D fl args bidx t nb_any sh j4 jm cj_ xj qj_f typej ljcp_j
                   wexcl st i.
Proof.
  intros Hc Hext.
  assert (Hge := fmax_lower_bound (c_nbnxnMinDistanceSquared D) r2 Hc).
  split; [done|]. split; [done|].
  by apply i_iteration_rsqrt_ext.
Qed.
End RsqrtFacts.

(** ** The forces of a block *)

(** The interaction masks are 32-bit values; the bit of the cluster pair
    [(jm, i)] is [jm * 8 + i]. *)
Section BitFacts.

Lemma u32_pow2_double (a : Z) :
  0 <= a -> u32 (u32 (2 ^ a) + u32 (2 ^ a)) = u32 (2 ^ (a + 1)).
Proof.
  intros Ha. unfold u32. rewrite <- Z.add_mod by lia.
  f_equal. rewrite Z.pow_add_r by lia. lia.
Qed.

Lemma u32_pow2_small (a : Z) : 0 <= a < 32 -> u32 (2 ^ a) = 2 ^ a.
Proof.
  intros Ha. unfold u32. apply Z.mod_small. split; [lia|].
  apply Z.pow_lt_mono_r; lia.
Qed.

Lemma land_pow2_eqb (x a : Z) :
  0 <= a -> (Z.land x (2 ^ a) =? 0) = negb (Z.testbit x a).
Proof.
  intros Ha. destruct (Z.testbit x a) eqn:Hb; simpl.
  - apply Z.eqb_neq. intros H0.
    assert (Ht : Z.testbit (Z.land x (2 ^ a)) a = true).
    { rewrite Z.land_spec, Hb, Z.pow2_bits_true by lia. done. }
    rewrite H0, Z.bits_0 in Ht. done.
  - apply Z.eqb_eq. apply Z.bits_inj'. intros n Hn.
    rewrite Z.land_spec, Z.bits_0, Z.pow2_bits_eqb by lia.
    destruct (a =? n) eqn:E; [|by rewrite andb_false_r].
    apply Z.eqb_eq in E. subst. by rewrite Hb.
Qed.

Lemma mask_test (x a : Z) :
  0 <= a < 32 -> (Z.land x (u32 (2 ^ a)) =? 0) = negb (Z.testbit x a).
Proof. intros Ha. rewrite u32_pow2_small by done. apply land_pow2_eqb. lia. Qed.

Lemma u32_range (x : Z) : 0 <= u32 x < 2 ^ 32.
Proof. unfold u32. apply Z.mod_pos_bound. lia. Qed.

Lemma testbit_above (x m : Z) : 0 <= x < 2 ^ 32 -> 32 <= m -> Z.testbit x m = false.
Proof.
  intros Hx Hm. destruct (Z.eq_dec x 0) as [->|Hne]; [apply Z.bits_0|].
  apply Z.bits_above_log2; [lia|].
  assert (Z.log2 x < 32); [|lia]. apply Z.log2_lt_pow2; lia.
Qed.

Lemma prune_bit (x a m : Z) :
  0 <= x < 2 ^ 32 -> 0 <= a < 32 -> 0 <= m ->
  Z.testbit (Z.land x (u32_not (u32 (2 ^ a)))) m = Z.testbit x m && negb (m =? a).
Proof.
  intros Hx Ha Hm. unfold u32_not.
  rewrite Z.land_spec, Z.lxor_spec.
  change (2 ^ 32 - 1) with (Z.ones 32).
  assert (Hu : u32 (u32 (2 ^ a)) = 2 ^ a).
  { rewrite u32_pow2_small by done. by apply u32_pow2_small. }
  rewrite Hu, Z.pow2_bits_eqb by lia.
  destruct (Z.lt_ge_cases m 32) as [Hlt|Hge].
  - rewrite Z.ones_spec_low by lia. rewrite (Z.eqb_sym a m).
    by destruct (m =? a), (Z.testbit x m).
  - by rewrite (testbit_above x m Hx Hge).
Qed.

Lemma prune_range (x y : Z) : 0 <= x < 2 ^ 32 -> 0 <= Z.land x (u32_not y) < 2 ^ 32.
Proof.
  intros Hx.
  assert (Hy : 0 <= u32_not y).
  { unfold u32_not. apply Z.lxor_nonneg. pose proof (u32_range y). lia. }
  assert (H0 : 0 <= Z.land x (u32_not y)) by (apply Z.land_nonneg; lia).
  split; [done|].
  destruct (Z.eq_dec (Z.land x (u32_not y)) 0) as [->|Hne]; [lia|].
  apply Z.log2_lt_pow2; [lia|].
  pose proof (Z.log2_land x (u32_not y) ltac:(lia) Hy).
  destruct (Z.eq_dec x 0) as [->|Hx0]; [by rewrite Z.land_0_l in Hne|].
  assert (Z.log2 x < 32) by (apply Z.log2_lt_pow2; lia). lia.
Qed.

Lemma group_mask_test (x jm : Z) :
  0 <= jm < 4 ->
  (Z.land x (u32 (Z.shiftl superClInteractionMask
                           (jm * c_nbnxnGpuNumClusterPerSupercluster))) =? 0)
  = negb (existsb (fun i => Z.testbit x (jm * c_nbnxnGpuNumClusterPerSupercluster + i))
                  (seqZ 0 c_nbnxnGpuNumClusterPerSupercluster)).
Proof.
  intros Hjm.
  assert (Hc : jm = 0 \/ jm = 1 \/ jm = 2 \/ jm = 3) by lia.
  assert (Hgen : forall s, 0 <= s -> s + 8 <= 32 ->
            (Z.land x (Z.shiftl (Z.ones 8) s) =? 0)
            = negb (existsb (fun i => Z.testbit x (s + i)) (seqZ 0 8))).
  { intros s Hs Hs8.
    destruct (existsb _ _) eqn:Hex; simpl.
    - apply existsb_exists in Hex as (i & Hi & Hb).
      apply list_elem_of_In, elem_of_seqZ in Hi.
      apply Z.eqb_neq. intros H0.
      assert (Ht : Z.testbit (Z.land x (Z.shiftl (Z.ones 8) s)) (s + i) = true).
      { rewrite Z.land_spec, Hb, Z.shiftl_spec by lia.
        replace (s + i - s) with i by lia. by rewrite Z.ones_spec_low by lia. }
      rewrite H0, Z.bits_0 in Ht. done.
    - apply Z.eqb_eq. apply Z.bits_inj'. intros n Hn.
      rewrite Z.land_spec, Z.bits_0, Z.shiftl_spec by lia.
      destruct (Z.lt_ge_cases n s) as [Hlt|Hge].
      + rewrite (Z.testbit_neg_r _ (n - s)) by lia. by rewrite andb_false_r.
      + destruct (Z.lt_ge_cases (n - s) 8) as [Hlt8|Hge8].
        * assert (Hb : Z.testbit x n = false).
          { destruct (Z.testbit x n) eqn:Hb; [|done].
            assert (existsb (fun i => Z.testbit x (s + i)) (seqZ 0 8) = true); [|congruence].
            apply existsb_exists. exists (n - s). split.
            - apply list_elem_of_In, elem_of_seqZ. lia.
            - by replace (s + (n - s)) with n by lia. }
          by rewrite Hb.
        * rewrite Z.ones_spec_high by lia. by rewrite andb_false_r. }
  destruct Hc as [-> | [-> | [-> | ->]]].
  - exact (Hgen 0 ltac:(lia) ltac:(lia)).
  - exact (Hgen 8 ltac:(lia) ltac:(lia)).
  - exact (Hgen 16 ltac:(lia) ltac:(lia)).
  - exact (Hgen 24 ltac:(lia) ltac:(lia)).
Qed.

End BitFacts.

(** Folds over the lists the loops run through. *)
Section FoldFacts.
Lemma foldl_id {A B : Type} (f : A -> B -> A) (l : list B) (a : A) :
  (forall x, x ∈ l -> forall a', f a' x = a') -> foldl f a l = a.
Proof.
  revert a. induction l as [|x l IH]; intros a H; [done|].
  simpl. rewrite H by left. apply IH. intros y Hy. apply H. by right.
Qed.

Lemma existsb_ext_elem {A : Type} (f g : A -> bool) (l : list A) :
  (forall x, x ∈ l -> f x = g x) -> existsb f l = existsb g l.
Proof.
  induction l as [|x l IH]; intros H; [done|].
  simpl. rewrite H by left. f_equal. apply IH. intros y Hy. apply H. by right.
Qed.

Lemma bind_all_nil {A B : Type} (g : A -> list B) (l : list A) :
  (forall x, x ∈ l -> g x = []) -> l ≫= g = [].
Proof.
  induction l as [|x l IH]; intros H; [done|].
  cbn [mbind list_bind]. change (g x ++ (l ≫= g) = []).
  rewrite H by left. apply IH. intros y Hy. apply H. by right.
Qed.

Lemma foldl_bind {A B C : Type} (f : A -> C -> A) (g : B -> list C) (l : list B) (a : A) :
  foldl f a (l ≫= g) = foldl (fun a' y => foldl f a' (g y)) a l.
Proof.
  revert a. induction l as [|y l IH]; intros a; [done|].
  cbn [mbind list_bind].
  change (foldl f a (g y ++ (l ≫= g))
          = foldl (fun a' y0 => foldl f a' (g y0)) (foldl f a (g y)) l).
  rewrite foldl_app. apply IH.
Qed.
End FoldFacts.

Section FoldOne.
Context {A B : Type} `{EqDecision B}.
Variable Inv : A -> Prop.
Variable f : A -> B -> A.

Lemma foldl_id_inv (l : list B) (a : A) :
  Inv a -> (forall x, x ∈ l -> forall a', Inv a' -> f a' x = a') -> foldl f a l = a.
Proof.
  intros Ha H. induction l as [|x l IH]; [done|].
  simpl. rewrite H by (done || left). apply IH. intros y Hy. apply H. by right.
Qed.

Lemma foldl_one_inv (l : list B) (x0 : B) (a : A) :
  NoDup l -> x0 ∈ l -> Inv a -> Inv (f a x0) ->
  (forall x, x ∈ l -> x <> x0 -> forall a', Inv a' -> f a' x = a') ->
  foldl f a l = f a x0.
Proof.
  intros Hnd Hin Ha Hfa H. induction l as [|x l IH]; [by apply elem_of_nil in Hin|].
  apply NoDup_cons in Hnd as [Hx Hnd]. simpl.
  destruct (decide (x = x0)) as [->|Hne].
  - apply foldl_id_inv; [done|]. intros y Hy a' Ha'. apply H; [by right| |done].
    intros ->. done.
  - rewrite H by (done || left).
    apply elem_of_cons in Hin as [->|Hin]; [done|].
    apply IH; [done|done|]. intros y Hy. apply H. by right.
Qed.
End FoldOne.

Section FoldBind.
Context {A B C : Type} `{EqDecision B}.
Variable Inv : A -> Prop.
Variable f : A -> C -> A.
Variable g : B -> list C.

Lemma foldl_bind_zero (l : list B) (a : A) :
  Inv a -> (forall x, x ∈ l -> forall a', Inv a' -> foldl f a' (g x) = a') ->
  foldl f a (l ≫= g) = a.
Proof.
  intros Ha H. rewrite foldl_bind.
  by apply (foldl_id_inv Inv (fun a' y => foldl f a' (g y))).
Qed.

Lemma foldl_bind_one (l : list B) (x0 : B) (a b : A) :
  NoDup l -> x0 ∈ l -> Inv a -> foldl f a (g x0) = b -> Inv b ->
  (forall x, x ∈ l -> x <> x0 -> forall a', Inv a' -> foldl f a' (g x) = a') ->
  foldl f a (l ≫= g) = b.
Proof.
  intros Hnd Hin Ha <- Hb H. rewrite foldl_bind.
  by apply (foldl_one_inv Inv (fun a' y => foldl f a' (g y))).
Qed.
End FoldBind.

Section ListFacts.
Context {A B C : Type}.

Lemma bind_ext_elem (g1 g2 : A -> list B) (l : list A) :
  (forall x, x ∈ l -> g1 x = g2 x) -> l ≫= g1 = l ≫= g2.
Proof.
  induction l as [|x l IH]; intros H; [done|].
  cbn [mbind list_bind]. rewrite H by left. f_equal.
  apply IH. intros y Hy. apply H. by right.
Qed.

Lemma fmap_ext_elem (f g : A -> B) (l : list A) :
  (forall x, x ∈ l -> f x = g x) -> f <$> l = g <$> l.
Proof.
  induction l as [|x l IH]; intros H; [done|].
  cbn [fmap list_fmap]. rewrite H by left. f_equal.
  apply IH. intros y Hy. apply H. by right.
Qed.

Lemma fmap_bind_comm (f : B -> C) (g : A -> list B) (l : list A) :
  f <$> (l ≫= g) = l ≫= (fun x => f <$> g x).
Proof.
  induction l as [|x l IH]; [done|].
  cbn [mbind list_bind]. by rewrite fmap_app, IH.
Qed.

Lemma seq_bind_nth (l : list A) (d : A) (g : A -> list B) :
  seq 0 (length l) ≫= (fun p => g (nth p l d)) = l ≫= g.
Proof.
  induction l as [|x l IH]; [done|].
  cbn [length seq mbind list_bind nth]. f_equal.
  rewrite <- fmap_S_seq, list_fmap_bind. exact IH.
Qed.

Lemma nth_fmap_lt (f : A -> B) (l : list A) (p : nat) (d : B) (d' : A) :
  (p < length l)%nat -> nth p (f <$> l) d = f (nth p l d').
Proof.
  intros Hp. rewrite !nth_lookup, list_lookup_fmap.
  destruct (lookup_lt_is_Some_2 l p Hp) as [x ->]. done.
Qed.
End ListFacts.

(** The loop over the i-clusters, for one thread and one j-cluster. *)
Section ILoop.
Variable D : DeviceLib.
Variable fl : Flavor.
Variable args : KernelArgs.
Variable bidx : Z.
Variable t : Thread.
Variable nb_any : Z -> Z -> Z -> bool.
Variable j4 jm : Z.
Hypothesis jm_range : 0 <= jm < 4.

Let i_step :=
  i_iteration D fl args bidx t nb_any (preload args bidx) j4 jm (cj_of args j4 jm)
              (xj_of args t j4 jm) (f4_w (k_xq args (aj_of args t j4 jm)))
              (k_atomTypes args (aj_of args t j4 jm)) (k_ljComb args (aj_of args t j4 jm))
              (wexcl_of args t j4).

Lemma i_step_forces (r : Regs) (i : Z) :
  0 <= i < 8 ->
  0 <= r_imask r < 2 ^ 32 ->
  Z.testbit (r_imask r) (jm * 8 + i) = Z.testbit (imask_of args j4) (jm * 8 + i) ->
  let st' := i_step (r, u32 (2 ^ (jm * 8 + i))) i in
  fcj_buf st'.1 = fcj_step D fl args bidx t j4 jm (fcj_buf r) i
  /\ fci_buf st'.1 = fci_step D fl args bidx t j4 jm (fci_buf r) i
  /\ st'.2 = u32 (2 ^ (jm * 8 + (i + 1)))
  /\ 0 <= r_imask st'.1 < 2 ^ 32
  /\ (forall m, 0 <= m -> m <> jm * 8 + i ->
                Z.testbit (r_imask st'.1) m = Z.testbit (r_imask r) m).
Proof.
  intros Hi Hr Hbit st'. subst st' i_step. unfold i_iteration.
  rewrite mask_test by lia. rewrite Hbit.
  unfold fcj_step, fci_step, evaluates.
  change (jm * c_nbnxnGpuNumClusterPerSupercluster + i) with (jm * 8 + i).
  cbn [fst snd].
  split; [|split; [|split; [|split]]].
  - destruct (Z.testbit (imask_of args j4) (jm * 8 + i)); cbn [negb andb]; [|done].
    fold (pair_r2 t (preload args bidx) i (xj_of args t j4 jm)).
    fold (pair_int_bit (wexcl_of args t j4) jm i).
    destruct (cutoff_exclusion_check _ _ _ _ _ _ _ _ _); [|done].
    unfold f_ij_of, pair_f_ij, pair_terms.
    by destruct (pair_interaction _ _ _ _ _ _ _ _ _ _ _ _ _ _) as [[F Elj] Eel].
  - destruct (Z.testbit (imask_of args j4) (jm * 8 + i)); cbn [negb andb]; [|done].
    fold (pair_r2 t (preload args bidx) i (xj_of args t j4 jm)).
    fold (pair_int_bit (wexcl_of args t j4) jm i).
    destruct (cutoff_exclusion_check _ _ _ _ _ _ _ _ _); [|done].
    unfold f_ij_of, pair_f_ij, pair_terms.
    by destruct (pair_interaction _ _ _ _ _ _ _ _ _ _ _ _ _ _) as [[F Elj] Eel].
  - replace (jm * 8 + (i + 1)) with (jm * 8 + i + 1) by lia.
    apply u32_pow2_double. lia.
  - destruct (Z.testbit (imask_of args j4) (jm * 8 + i)); cbn [negb]; [|done].
    destruct (cutoff_exclusion_check _ _ _ _ _ _ _ _ _);
      [destruct (pair_interaction _ _ _ _ _ _ _ _ _ _ _ _ _ _) as [[F Elj] Eel]|];
      cbn [r_imask]; destruct (PRUNE_NBL fl && _); try done; by apply prune_range.
  - intros m Hm Hne.
    destruct (Z.testbit (imask_of args j4) (jm * 8 + i)); cbn [negb]; [|done].
    destruct (cutoff_exclusion_check _ _ _ _ _ _ _ _ _);
      [destruct (pair_interaction _ _ _ _ _ _ _ _ _ _ _ _ _ _) as [[F Elj] Eel]|];
      cbn [r_imask]; destruct (PRUNE_NBL fl && _); try done;
      rewrite prune_bit by lia;
      (destruct (m =? jm * 8 + i) eqn:E; [apply Z.eqb_eq in E; lia|]);
      by rewrite andb_true_r.
Qed.

Lemma i_loop_forces (n : nat) :
  forall (k : Z) (r : Regs),
    0 <= k -> k + Z.of_nat n <= 8 ->
    0 <= r_imask r < 2 ^ 32 ->
    (forall m, jm * 8 + k <= m < jm * 8 + 8 ->
               Z.testbit (r_imask r) m = Z.testbit (imask_of args j4) m) ->
    let st' := foldl i_step (r, u32 (2 ^ (jm * 8 + k))) (seqZ k (Z.of_nat n)) in
    fcj_buf st'.1 = foldl (fcj_step D fl args bidx t j4 jm) (fcj_buf r) (seqZ k (Z.of_nat n))
    /\ fci_buf st'.1 = foldl (fci_step D fl args bidx t j4 jm) (fci_buf r) (seqZ k (Z.of_nat n))
    /\ 0 <= r_imask st'.1 < 2 ^ 32
    /\ (forall m, 0 <= m -> m < jm * 8 + k \/ jm * 8 + k + Z.of_nat n <= m ->
                  Z.testbit (r_imask st'.1) m = Z.testbit (r_imask r) m).
Proof.
  induction n as [|n IH]; intros k r Hk Hkn Hr Hbits st'; subst st'.
  - rewrite seqZ_nil by lia. simpl. auto.
  - rewrite seqZ_cons by lia. cbn [foldl].
    replace (Z.pred (Z.of_nat (S n))) with (Z.of_nat n) by lia.
    destruct (i_step_forces r k ltac:(lia) Hr ltac:(apply Hbits; lia))
      as (Hcj & Hci & Hmask & Hr' & Hother).
    destruct (i_step (r, u32 (2 ^ (jm * 8 + k))) k) as [r1 m1] eqn:Hstep.
    cbn [fst snd] in *. subst m1.
    replace (jm * 8 + (k + 1)) with (jm * 8 + Z.succ k) by lia.
    destruct (IH (Z.succ k) r1 ltac:(lia) ltac:(lia) Hr') as (IHcj & IHci & IHr & IHother).
    { intros m Hm. rewrite Hother by lia. apply Hbits. lia. }
    rewrite IHcj, IHci, Hcj, Hci. split; [done|]. split; [done|]. split; [done|].
    intros m Hm Hout. rewrite IHother by lia. apply Hother; lia.
Qed.
End ILoop.

(** The loops over the j-clusters and their groups: what a thread
    leaves in [fci_buf] and hands to the reduction of the j-forces. *)
Section ThreadForces.
Variable D : DeviceLib.
Variable fl : Flavor.
Variable args : KernelArgs.
Variable bidx : Z.
Variable t : Thread.
Variable nb_any : Z -> Z -> Z -> bool.

Lemma group_off_evaluates (j4 jm i : Z) :
  group_on args j4 jm = false -> i ∈ seqZ 0 8 -> evaluates D fl args bidx t j4 jm i = false.
Proof.
  intros Hoff Hi. unfold evaluates.
  change (jm * c_nbnxnGpuNumClusterPerSupercluster + i) with (jm * 8 + i).
  destruct (Z.testbit (imask_of args j4) (jm * 8 + i)) eqn:Hb; [|done].
  assert (group_on args j4 jm = true); [|congruence].
  apply existsb_exists. exists i. split; [by apply list_elem_of_In|done].
Qed.

Lemma fci_group_off (l : list fast_float3) (j4 jm : Z) :
  group_on args j4 jm = false -> fci_group D fl args bidx t l j4 jm = l.
Proof.
  intros Hoff. apply foldl_id. intros i Hi l'. unfold fci_step.
  by rewrite group_off_evaluates.
Qed.

Lemma jm_step_forces (j4 jm : Z) (r : Regs) (out : list (Z * fast_float3)) :
  0 <= jm < 4 ->
  0 <= r_imask r < 2 ^ 32 ->
  (forall m, jm * 8 <= m < jm * 8 + 8 ->
             Z.testbit (r_imask r) m = Z.testbit (imask_of args j4) m) ->
  let st' := jm_iteration D fl args bidx t nb_any (preload args bidx) j4
                          (wexcl_of args t j4) (r, out) jm in
  st'.2 = out ++ j_out_of D fl args bidx t j4 jm
  /\ fci_buf st'.1 = fci_group D fl args bidx t (fci_buf r) j4 jm
  /\ 0 <= r_imask st'.1 < 2 ^ 32
  /\ (forall m, 0 <= m -> m < jm * 8 \/ jm * 8 + 8 <= m ->
                Z.testbit (r_imask st'.1) m = Z.testbit (r_imask r) m).
Proof.
  intros Hjm Hr Hbits st'. subst st'. unfold jm_iteration.
  rewrite group_mask_test by done.
  assert (Hgrp : existsb (fun i => Z.testbit (r_imask r)
                                      (jm * c_nbnxnGpuNumClusterPerSupercluster + i))
                         (seqZ 0 c_nbnxnGpuNumClusterPerSupercluster)
                 = group_on args j4 jm).
  { unfold group_on. change c_nbnxnGpuNumClusterPerSupercluster with 8.
    apply existsb_ext_elem. intros i Hi. apply elem_of_seqZ in Hi.
    apply Hbits. lia. }
  rewrite Hgrp. unfold j_out_of.
  destruct (group_on args j4 jm) eqn:Hon; cbn [negb].
  - rewrite Z.shiftl_1_l.
    change (jm * c_nbnxnGpuNumClusterPerSupercluster) with (jm * 8).
    change (seqZ 0 c_nbnxnGpuNumClusterPerSupercluster) with (seqZ 0 (Z.of_nat 8)).
    pose proof (i_loop_forces D fl args bidx t nb_any j4 jm Hjm 8 0
                  (set_fcj r (make_fast_float3 f0)) ltac:(lia) ltac:(lia) Hr
                  ltac:(intros m Hm; apply Hbits; lia)) as Hloop.
    cbv zeta in Hloop. rewrite !Z.add_0_r in Hloop.
    set (st1 := foldl _ _ _) in Hloop.
    change (foldl (i_iteration _ _ _ _ _ _ _ _ _ _ _ _ _ _ _) _ _) with st1.
    destruct st1 as [r1 m1]. cbn [fst snd] in *.
    destruct Hloop as (Hcj & Hci & Hr1 & Hother).
    split; [by rewrite Hcj|]. split; [done|]. split; [done|].
    intros m Hm Hout. apply Hother; lia.
  - cbn [fst snd]. rewrite app_nil_r, fci_group_off by done. auto.
Qed.

Lemma jm_loop_forces (j4 : Z) (n : nat) :
  forall (k : Z) (r : Regs) (out : list (Z * fast_float3)),
    0 <= k -> k + Z.of_nat n <= 4 ->
    0 <= r_imask r < 2 ^ 32 ->
    (forall m, k * 8 <= m < 32 ->
               Z.testbit (r_imask r) m = Z.testbit (imask_of args j4) m) ->
    let st' := foldl (jm_iteration D fl args bidx t nb_any (preload args bidx) j4
                                   (wexcl_of args t j4))
                     (r, out) (seqZ k (Z.of_nat n)) in
    st'.2 = out ++ (seqZ k (Z.of_nat n) ≫= j_out_of D fl args bidx t j4)
    /\ fci_buf st'.1 = foldl (fun l jm => fci_group D fl args bidx t l j4 jm) (fci_buf r)
                             (seqZ k (Z.of_nat n)).
Proof.
  induction n as [|n IH]; intros k r out Hk Hkn Hr Hbits st'; subst st'.
  - rewrite seqZ_nil by lia. simpl. by rewrite app_nil_r.
  - rewrite seqZ_cons by lia. cbn [foldl].
    replace (Z.pred (Z.of_nat (S n))) with (Z.of_nat n) by lia.
    destruct (jm_step_forces j4 k r out ltac:(lia) Hr ltac:(intros m Hm; apply Hbits; lia))
      as (Hout & Hci & Hr' & Hother).
    destruct (jm_iteration _ _ _ _ _ _ _ _ _ _ _) as [r1 out1]. cbn [fst snd] in *.
    destruct (IH (Z.succ k) r1 out1 ltac:(lia) ltac:(lia) Hr') as (IHout & IHci).
    { intros m Hm. rewrite Hother by lia. apply Hbits. lia. }
    rewrite IHout, IHci, Hout, Hci. split; [|done].
    cbn [mbind list_bind]. by rewrite <- app_assoc.
Qed.

Lemma group_on_zero (j4 jm : Z) : imask_of args j4 = 0 -> group_on args j4 jm = false.
Proof.
  intros H0. unfold group_on. rewrite H0.
  induction (seqZ 0 8) as [|i l IH]; [done|]. simpl. by rewrite Z.bits_0.
Qed.

Lemma j4_step_forces (st : ThreadOut) (j4 : Z) :
  0 <= imask_of args j4 < 2 ^ 32 ->
  let st' := j4_iteration D fl args bidx t nb_any (preload args bidx) st j4 in
  j_out st' = j_out st ++ j4_out_of D fl args bidx t j4
  /\ fci_buf (regs st') = fci_j4 D fl args bidx t (fci_buf (regs st)) j4.
Proof.
  intros Hm st'. subst st'. unfold j4_iteration.
  change (nth (Z.to_nat (widx t)) (imei (pl_cj4 args j4)) {| imask := 0; excl_ind := 0 |})
    with (cj4_entry args j4).
  fold (imask_of args j4).
  destruct (negb (PRUNE_NBL fl) && (imask_of args j4 =? 0)) eqn:Hskip.
  - apply andb_true_iff in Hskip as [_ H0]. apply Z.eqb_eq in H0.
    unfold j4_out_of, fci_j4. split.
    + rewrite bind_all_nil; [by rewrite app_nil_r|].
      intros jm _. unfold j_out_of. by rewrite group_on_zero.
    + symmetry. apply foldl_id. intros jm _ l. apply fci_group_off. by apply group_on_zero.
  - fold (wexcl_of args t j4).
    change (seqZ 0 c_nbnxnGpuJgroupSize) with (seqZ 0 (Z.of_nat 4)).
    pose proof (jm_loop_forces j4 4 0 (set_imask (regs st) (imask_of args j4)) (j_out st)
                  ltac:(lia) ltac:(lia) Hm ltac:(done)) as Hloop.
    cbv zeta in Hloop.
    set (st1 := foldl _ _ _) in Hloop.
    change (foldl (jm_iteration _ _ _ _ _ _ _ _ _) _ _) with st1.
    destruct st1 as [r1 out1]. cbn [fst snd] in *. by destruct Hloop.
Qed.

Lemma thread_run_forces :
  (forall j4, j4 ∈ seqZ (cij4_start args bidx) (cj4_length (nb_sci args bidx)) ->
              0 <= imask_of args j4 < 2 ^ 32) ->
  j_out (thread_run D fl args bidx t nb_any)
  = seqZ (cij4_start args bidx) (cj4_length (nb_sci args bidx))
      ≫= j4_out_of D fl args bidx t
  /\ fci_buf (regs (thread_run D fl args bidx t nb_any))
     = foldl (fci_j4 D fl args bidx t) zeros8
             (seqZ (cij4_start args bidx) (cj4_length (nb_sci args bidx))).
Proof.
  intros Hmasks. unfold thread_run.
  destruct (self_energy D fl args bidx t (preload args bidx)) as [E1 E2].
  set (st0 := {| regs := _; j_out := []; imask_out := [] |}).
  assert (Hgen : forall l st,
             (forall j4, j4 ∈ l -> 0 <= imask_of args j4 < 2 ^ 32) ->
             j_out (foldl (j4_iteration D fl args bidx t nb_any (preload args bidx)) st l)
             = j_out st ++ (l ≫= j4_out_of D fl args bidx t)
             /\ fci_buf (regs (foldl (j4_iteration D fl args bidx t nb_any
                                                   (preload args bidx)) st l))
                = foldl (fci_j4 D fl args bidx t) (fci_buf (regs st)) l).
  { induction l as [|j4 l IH]; intros st Hl.
    - simpl. by rewrite app_nil_r.
    - cbn [foldl].
      destruct (j4_step_forces st j4 (Hl j4 ltac:(left))) as [Ho Hc].
      destruct (IH (j4_iteration D fl args bidx t nb_any (preload args bidx) st j4)
                   (fun j Hj => Hl j ltac:(by right))) as [IHo IHc].
      rewrite IHo, IHc, Ho, Hc. split; [|done].
      cbn [mbind list_bind]. by rewrite <- app_assoc. }
  destruct (Hgen _ st0 Hmasks) as [Ho Hc]. rewrite Ho, Hc. split; reflexivity.
Qed.
End ThreadForces.

(** A block that evaluates one pair only. *)
Section SinglePair.
Variable D : DeviceLib.
Variable fl : Flavor.
Variable args : KernelArgs.
Variable bidx : Z.
Variable t0 : Thread.
Variable j4_0 jm0 i0 : Z.
Hypothesis Hsingle : single_pair_block D fl args bidx t0 j4_0 jm0 i0 = true.

Let j4s := seqZ (cij4_start args bidx) (cj4_length (nb_sci args bidx)).
Let F0 := f_ij_of D fl args bidx t0 j4_0 jm0 i0.

Lemma thread_eqb_eq (t t' : Thread) : thread_eqb t t' = true <-> t = t'.
Proof.
  unfold thread_eqb. rewrite andb_true_iff, !Z.eqb_eq.
  destruct t, t'; simpl. split; [intros [-> ->]; done | intros [= -> ->]; done].
Qed.

Lemma in_block (t : Thread) :
  t ∈ block_threads <-> 0 <= tidxi t < 8 /\ 0 <= tidxj t < 8.
Proof.
  unfold block_threads. rewrite list_elem_of_bind. split.
  - intros (tj & Ht & Htj). apply list_elem_of_bind in Ht as (ti & Ht & Hti).
    apply list_elem_of_singleton in Ht as ->. simpl.
    apply elem_of_seqZ in Htj, Hti. unfold c_clSize in *. lia.
  - intros [Hi Hj]. exists (tidxj t). split; [|apply elem_of_seqZ; unfold c_clSize; lia].
    apply list_elem_of_bind. exists (tidxi t).
    split; [|apply elem_of_seqZ; unfold c_clSize; lia].
    destruct t. simpl. by apply list_elem_of_singleton.
Qed.

Lemma single_evaluates (t : Thread) (j4 jm i : Z) :
  t ∈ block_threads -> j4 ∈ j4s -> jm ∈ seqZ 0 4 -> i ∈ seqZ 0 8 ->
  evaluates D fl args bidx t j4 jm i
  = thread_eqb t t0 && (j4 =? j4_0) && (jm =? jm0) && (i =? i0).
Proof.
  intros Ht Hj4 Hjm Hi. unfold single_pair_block in Hsingle.
  rewrite !andb_true_iff in Hsingle. destruct Hsingle as [[[[Hall _] _] _] _].
  rewrite forallb_forall in Hall.
  specialize (Hall t (proj1 (list_elem_of_In _ _) Ht)).
  rewrite forallb_forall in Hall.
  specialize (Hall j4 (proj1 (list_elem_of_In _ _) Hj4)).
  rewrite !andb_true_iff in Hall. destruct Hall as [_ Hall].
  rewrite forallb_forall in Hall.
  specialize (Hall jm (proj1 (list_elem_of_In _ _) Hjm)).
  rewrite forallb_forall in Hall.
  specialize (Hall i (proj1 (list_elem_of_In _ _) Hi)).
  by apply eqb_prop in Hall.
Qed.

Lemma single_masks (j4 : Z) : j4 ∈ j4s -> 0 <= imask_of args j4 < 2 ^ 32.
Proof.
  intros Hj4. unfold single_pair_block in Hsingle.
  rewrite !andb_true_iff in Hsingle. destruct Hsingle as [[[[Hall Ht0] _] _] _].
  apply existsb_exists in Ht0 as (t & Ht & _).
  rewrite forallb_forall in Hall. specialize (Hall t Ht).
  rewrite forallb_forall in Hall.
  specialize (Hall j4 (proj1 (list_elem_of_In _ _) Hj4)).
  rewrite !andb_true_iff in Hall. destruct Hall as [[H1 H2] _]. lia.
Qed.

Lemma single_ranges :
  t0 ∈ block_threads /\ j4_0 ∈ j4s /\ jm0 ∈ seqZ 0 4 /\ i0 ∈ seqZ 0 8.
Proof.
  unfold single_pair_block in Hsingle.
  rewrite !andb_true_iff in Hsingle. destruct Hsingle as [[[[_ H1] H2] H3] H4].
  apply existsb_exists in H1 as (t & Ht & Heq). apply thread_eqb_eq in Heq as ->.
  apply existsb_exists in H2 as (j & Hj & Heq). apply Z.eqb_eq in Heq as ->.
  apply existsb_exists in H3 as (m & Hm & Heq). apply Z.eqb_eq in Heq as ->.
  apply existsb_exists in H4 as (i & Hi & Heq). apply Z.eqb_eq in Heq as ->.
  by rewrite !list_elem_of_In.
Qed.

Lemma single_fcj (t : Thread) (j4 jm : Z) :
  t ∈ block_threads -> j4 ∈ j4s -> jm ∈ seqZ 0 4 ->
  fcj_of D fl args bidx t j4 jm
  = if thread_eqb t t0 && (j4 =? j4_0) && (jm =? jm0) then ff_add zero3 F0 else zero3.
Proof.
  intros Ht Hj4 Hjm. unfold fcj_of.
  destruct single_ranges as (_ & _ & _ & Hi0).
  destruct (thread_eqb t t0 && (j4 =? j4_0) && (jm =? jm0)) eqn:Hc.
  - rewrite (foldl_one_inv (fun _ => True) _ _ i0); [|apply NoDup_seqZ|done|done|done|].
    + unfold fcj_step. rewrite single_evaluates, Hc, Z.eqb_refl by done. simpl.
      apply andb_true_iff in Hc as [Hc Hc3]. apply andb_true_iff in Hc as [Hc1 Hc2].
      apply thread_eqb_eq in Hc1 as ->. apply Z.eqb_eq in Hc2 as ->.
      by apply Z.eqb_eq in Hc3 as ->.
    + intros i Hi Hne a _. unfold fcj_step. rewrite single_evaluates, Hc by done.
      apply Z.eqb_neq in Hne. by rewrite Hne.
  - apply foldl_id. intros i Hi a. unfold fcj_step.
    by rewrite single_evaluates, Hc by done.
Qed.

Lemma single_fci_group (t : Thread) (j4 jm : Z) (l : list fast_float3) :
  t ∈ block_threads -> j4 ∈ j4s -> jm ∈ seqZ 0 4 ->
  fci_group D fl args bidx t l j4 jm
  = if thread_eqb t t0 && (j4 =? j4_0) && (jm =? jm0)
    then <[Z.to_nat i0 := ff_sub (l !!! Z.to_nat i0) F0]> l else l.
Proof.
  intros Ht Hj4 Hjm. unfold fci_group.
  destruct single_ranges as (_ & _ & _ & Hi0).
  destruct (thread_eqb t t0 && (j4 =? j4_0) && (jm =? jm0)) eqn:Hc.
  - rewrite (foldl_one_inv (fun _ => True) _ _ i0); [|apply NoDup_seqZ|done|done|done|].
    + unfold fci_step. rewrite single_evaluates, Hc, Z.eqb_refl by done. simpl.
      apply andb_true_iff in Hc as [Hc Hc3]. apply andb_true_iff in Hc as [Hc1 Hc2].
      apply thread_eqb_eq in Hc1 as ->. apply Z.eqb_eq in Hc2 as ->.
      by apply Z.eqb_eq in Hc3 as ->.
    + intros i Hi Hne a _. unfold fci_step. rewrite single_evaluates, Hc by done.
      apply Z.eqb_neq in Hne. by rewrite Hne.
  - apply foldl_id. intros i Hi a. unfold fci_step.
    by rewrite single_evaluates, Hc by done.
Qed.

Lemma single_fci (t : Thread) :
  t ∈ block_threads ->
  foldl (fci_j4 D fl args bidx t) zeros8 j4s
  = if thread_eqb t t0 then <[Z.to_nat i0 := ff_sub zero3 F0]> zeros8 else zeros8.
Proof.
  intros Ht. destruct single_ranges as (_ & Hj0 & Hm0 & Hi0).
  assert (Hz : zeros8 !!! Z.to_nat i0 = zero3).
  { apply lookup_total_replicate_2. apply elem_of_seqZ in Hi0. lia. }
  destruct (thread_eqb t t0) eqn:Hc.
  - rewrite (foldl_one_inv (fun _ => True) _ _ j4_0); [|apply NoDup_seqZ|done|done|done|].
    + unfold fci_j4.
      rewrite (foldl_one_inv (fun _ => True) _ _ jm0); [|apply NoDup_seqZ|done|done|done|].
      * by rewrite single_fci_group, Hc, !Z.eqb_refl, Hz by done.
      * intros jm Hjm Hne l _. rewrite single_fci_group by done.
        apply Z.eqb_neq in Hne. by rewrite Hne, andb_false_r.
    + intros j4 Hj4 Hne l _. unfold fci_j4. apply foldl_id. intros jm Hjm l'.
      rewrite single_fci_group by done.
      apply Z.eqb_neq in Hne. by rewrite Hne, andb_false_r.
  - apply foldl_id. intros j4 Hj4 l. unfold fci_j4. apply foldl_id. intros jm Hjm l'.
    by rewrite single_fci_group, Hc by done.
Qed.
End SinglePair.

(** The atomic additions of the j-forces, by processed j-cluster. *)
Section BlockForces.
Variable D : DeviceLib.
Variable fl : Flavor.
Variable args : KernelArgs.
Variable bidx : Z.
Hypothesis Hmasks :
  forall j4, j4 ∈ seqZ (cij4_start args bidx) (cj4_length (nb_sci args bidx)) ->
             0 <= imask_of args j4 < 2 ^ 32.

Lemma j_out_processed (t : Thread) :
  j_out (run D fl args bidx t)
  = (fun e => (aj_of args t e.1 e.2, fcj_of D fl args bidx t e.1 e.2))
      <$> processed args bidx.
Proof.
  unfold run. rewrite (proj1 (thread_run_forces D fl args bidx t _ Hmasks)).
  unfold processed. rewrite fmap_bind_comm. apply bind_ext_elem. intros j4 _.
  unfold j4_out_of. rewrite fmap_bind_comm. apply bind_ext_elem. intros jm _.
  unfold j_out_of. by destruct (group_on args j4 jm).
Qed.

Lemma fci_run (t : Thread) :
  fci_buf (regs (run D fl args bidx t))
  = foldl (fci_j4 D fl args bidx t) zeros8
          (seqZ (cij4_start args bidx) (cj4_length (nb_sci args bidx))).
Proof. unfold run. apply (proj2 (thread_run_forces D fl args bidx t _ Hmasks)). Qed.

Lemma j_force_effects_processed :
  j_force_effects D fl args bidx = processed args bidx ≫= j_effects_of D fl args bidx.
Proof.
  unfold j_force_effects.
  rewrite <- (seq_bind_nth (processed args bidx) (0, 0) (j_effects_of D fl args bidx)).
  rewrite j_out_processed, length_fmap.
  apply bind_ext_elem. intros p Hp. apply elem_of_seq in Hp.
  assert (He : forall t, j_entry D fl args bidx t p
                         = (aj_of args t (nth p (processed args bidx) (0, 0)).1
                                  (nth p (processed args bidx) (0, 0)).2,
                            fcj_of D fl args bidx t (nth p (processed args bidx) (0, 0)).1
                                   (nth p (processed args bidx) (0, 0)).2)).
  { intros t. unfold j_entry. rewrite j_out_processed.
    rewrite (nth_fmap_lt _ _ _ _ (0, 0)) by lia. done. }
  unfold j_effects_of. apply bind_ext_elem. intros tj _.
  apply bind_ext_elem. intros c _. rewrite He. cbn [fst snd].
  unfold fcj_reduced. do 3 f_equal. apply fmap_ext_elem. intros ti _. by rewrite He.
Qed.
End BlockForces.

Section LaneSum.
Lemma lanes_eq : lanes = [0; 1; 2; 3; 4; 5; 6; 7].
Proof. reflexivity. Qed.

Lemma lane_sum_single (k : Z) (v : float) (b : bool) :
  0 <= k < 8 ->
  lane_sum ((fun x => if (x =? k) && b then v else f0) <$> lanes)
  = if b then unsigned_zero v else f0.
Proof.
  intros Hk. rewrite lanes_eq. destruct b.
  - assert (Hc : k = 0 \/ k = 1 \/ k = 2 \/ k = 3 \/ k = 4 \/ k = 5 \/ k = 6 \/ k = 7)
      by lia.
    destruct Hc as [-> | [-> | [-> | [-> | [-> | [-> | [-> | ->]]]]]]];
      cbn [fmap list_fmap lane_sum foldl Z.eqb Pos.eqb andb];
      change (f0 + f0)%f32 with f0;
      rewrite ?fadd_0_l, ?fadd_0_r, ?unsigned_zero_idemp; reflexivity.
  - cbn [fmap list_fmap lane_sum foldl]. rewrite !andb_false_r. reflexivity.
Qed.
End LaneSum.

Section SinglePairBlock.
Variable D : DeviceLib.
Variable fl : Flavor.
Variable args : KernelArgs.
Variable bidx : Z.
Variable t0 : Thread.
Variable j4_0 jm0 i0 : Z.
Hypothesis Hsingle : single_pair_block D fl args bidx t0 j4_0 jm0 i0 = true.

Let j4s := seqZ (cij4_start args bidx) (cj4_length (nb_sci args bidx)).
Let F0 := f_ij_of D fl args bidx t0 j4_0 jm0 i0.
Let Hmasks := single_masks D fl args bidx t0 j4_0 jm0 i0 Hsingle.
Let Hranges := single_ranges D fl args bidx t0 j4_0 jm0 i0 Hsingle.

Lemma thread_at_block (ti tj : Z) :
  ti ∈ lanes -> tj ∈ lanes -> thread_at ti tj ∈ block_threads.
Proof.
  intros Hi Hj. apply in_block. unfold lanes, c_clSize in *.
  apply elem_of_seqZ in Hi, Hj. simpl. lia.
Qed.

Lemma component_add (c : Z) (x y : fast_float3) :
  component c (ff_add x y) = (component c x + component c y)%f32.
Proof. unfold component. by destruct (c =? 0), (c =? 1). Qed.

Lemma component_sub (c : Z) (x y : fast_float3) :
  component c (ff_sub x y) = (component c x - component c y)%f32.
Proof. unfold component. by destruct (c =? 0), (c =? 1). Qed.

Lemma component_zero3 (c : Z) : component c zero3 = f0.
Proof. unfold component. by destruct (c =? 0), (c =? 1). Qed.

Lemma single_fcj_reduced (j4 jm c tj : Z) :
  j4 ∈ j4s -> jm ∈ seqZ 0 4 -> tj ∈ lanes ->
  fcj_reduced D fl args bidx (j4, jm) c tj
  = if (tj =? tidxj t0) && (j4 =? j4_0) && (jm =? jm0)
    then unsigned_zero (component c F0) else f0.
Proof.
  intros Hj4 Hjm Htj. unfold fcj_reduced. cbn [fst snd].
  destruct Hranges as (Ht0 & _). apply in_block in Ht0 as [Hti0 _].
  rewrite (fmap_ext_elem _
             (fun ti => if (ti =? tidxi t0)
                             && ((tj =? tidxj t0) && (j4 =? j4_0) && (jm =? jm0))
                        then (f0 + component c F0)%f32 else f0)).
  - rewrite lane_sum_single by done.
    by rewrite fadd_0_l, unsigned_zero_idemp.
  - intros ti Hti.
    rewrite (single_fcj D fl args bidx t0 j4_0 jm0 i0 Hsingle) by
      (done || by apply thread_at_block).
    unfold thread_eqb. cbn [tidxi tidxj thread_at]. rewrite <- !andb_assoc.
    destruct (_ && _); [|apply component_zero3].
    by rewrite component_add, component_zero3.
Qed.

Lemma single_fci_reduced (i c a : Z) :
  i ∈ seqZ 0 8 -> a ∈ lanes ->
  fci_reduced D fl args bidx i c a
  = if (a =? tidxi t0) && (i =? i0)
    then unsigned_zero (- component c F0)%f32 else f0.
Proof.
  intros Hi Ha. unfold fci_reduced.
  destruct Hranges as (Ht0 & _ & _ & Hi0). apply in_block in Ht0 as [_ Htj0].
  apply elem_of_seqZ in Hi, Hi0.
  rewrite (fmap_ext_elem _
             (fun tj => if (tj =? tidxj t0) && ((a =? tidxi t0) && (i =? i0))
                        then (f0 - component c F0)%f32 else f0)).
  - rewrite lane_sum_single by done.
    by rewrite fsub_0_l, unsigned_zero_idemp.
  - intros tj Htj. rewrite fci_run by exact Hmasks.
    rewrite (single_fci D fl args bidx t0 j4_0 jm0 i0 Hsingle) by by apply thread_at_block.
    unfold thread_eqb. cbn [tidxi tidxj thread_at].
    rewrite (andb_comm (a =? tidxi t0) (tj =? tidxj t0)), andb_assoc.
    destruct ((tj =? tidxj t0) && (a =? tidxi t0)) eqn:Ht; cbn [andb].
    + destruct (i =? i0) eqn:Hii.
      * apply Z.eqb_eq in Hii as ->.
        rewrite list_lookup_total_insert_eq by (unfold zeros8; rewrite length_replicate; lia).
        by rewrite component_sub, component_zero3.
      * apply Z.eqb_neq in Hii.
        rewrite list_lookup_total_insert_ne by lia.
        unfold zeros8. rewrite lookup_total_replicate_2 by lia. apply component_zero3.
    + unfold zeros8. rewrite lookup_total_replicate_2 by lia. apply component_zero3.
Qed.
End SinglePairBlock.

(** The force buffer after a block that evaluates one pair only. *)
Section SinglePairTotals.
Variable D : DeviceLib.
Variable fl : Flavor.
Variable mm : bool.
Variable args : KernelArgs.
Variable bidx : Z.
Variable t0 : Thread.
Variable j4_0 jm0 i0 : Z.
Hypothesis Hsingle : single_pair_block D fl args bidx t0 j4_0 jm0 i0 = true.
Variable atom c0 : Z.
Hypothesis Hc0 : c0 ∈ xyz.

Let j4s := seqZ (cij4_start args bidx) (cj4_length (nb_sci args bidx)).
Let F0 := f_ij_of D fl args bidx t0 j4_0 jm0 i0.
Let Hmasks := single_masks D fl args bidx t0 j4_0 jm0 i0 Hsingle.
Let Hranges := single_ranges D fl args bidx t0 j4_0 jm0 i0 Hsingle.
Let step := force_step atom c0.
Let aj0 := aj_of args t0 j4_0 jm0.
Let ai0 := ai_of args bidx t0 i0.

Lemma group_on_single : group_on args j4_0 jm0 = true.
Proof.
  destruct Hranges as (Ht0 & Hj0 & Hm0 & Hi0).
  pose proof (single_evaluates D fl args bidx t0 j4_0 jm0 i0 Hsingle t0 j4_0 jm0 i0
                Ht0 Hj0 Hm0 Hi0) as He.
  rewrite !Z.eqb_refl, (proj2 (thread_eqb_eq t0 t0) eq_refl) in He.
  unfold evaluates in He. apply andb_true_iff in He as [Hb _].
  unfold group_on. apply existsb_exists. exists i0.
  split; [by apply list_elem_of_In | exact Hb].
Qed.

Lemma xyz_NoDup : NoDup xyz.
Proof. apply (NoDup_seqZ 0 3). Qed.

Lemma j_leaf (j4 jm tj c : Z) (a : float) :
  j4 ∈ j4s -> jm ∈ seqZ 0 4 -> tj ∈ lanes -> normal_zero a ->
  step a (atomic_add_force (aj_of args (thread_at c tj) j4 jm) c
                           (fcj_reduced D fl args bidx (j4, jm) c tj))
  = if (tj =? tidxj t0) && (j4 =? j4_0) && (jm =? jm0) && (c =? c0) && (aj0 =? atom)
    then (a + unsigned_zero (component c0 F0))%f32 else a.
Proof.
  intros Hj4 Hjm Htj Ha. unfold step, force_step.
  rewrite (single_fcj_reduced D fl args bidx t0 j4_0 jm0 i0 Hsingle) by done.
  destruct ((tj =? tidxj t0) && (j4 =? j4_0) && (jm =? jm0)) eqn:Hs; cbn [andb].
  - apply andb_true_iff in Hs as [Hs H3]. apply andb_true_iff in Hs as [H1 H2].
    apply Z.eqb_eq in H1, H2, H3. subst tj j4 jm.
    change (aj_of args (thread_at c (tidxj t0)) j4_0 jm0) with aj0.
    rewrite (andb_comm (aj0 =? atom)).
    destruct (c =? c0) eqn:Hc; [|done]. apply Z.eqb_eq in Hc as ->. reflexivity.
  - destruct ((_ =? atom) && _); [|done]. rewrite fadd_0_r. exact Ha.
Qed.

Lemma j_effects_zero (j4 jm : Z) (a : float) :
  j4 ∈ j4s -> jm ∈ seqZ 0 4 -> (j4 =? j4_0) && (jm =? jm0) = false -> normal_zero a ->
  foldl step a (j_effects_of D fl args bidx (j4, jm)) = a.
Proof.
  intros Hj4 Hjm Hne Ha. unfold j_effects_of.
  apply (foldl_bind_zero normal_zero); [done|]. intros tj Htj a1 Ha1.
  apply (foldl_bind_zero normal_zero); [done|]. intros c Hc a2 Ha2.
  cbn [foldl fst snd]. rewrite j_leaf by done.
  by rewrite <- (andb_assoc (tj =? tidxj t0)), Hne, andb_false_r.
Qed.

Lemma j_fold (a b : float) :
  normal_zero a -> normal_zero b ->
  b = (if aj0 =? atom then (a + unsigned_zero (component c0 F0))%f32 else a) ->
  foldl step a (j_force_effects D fl args bidx) = b.
Proof.
  intros Ha Hb Hab. destruct Hranges as (Ht0 & Hj0 & Hm0 & Hi0).
  assert (Htj0 : tidxj t0 ∈ lanes).
  { apply in_block in Ht0. apply elem_of_seqZ. unfold c_clSize. lia. }
  rewrite j_force_effects_processed by exact Hmasks.
  rewrite foldl_bind. unfold processed.
  apply (foldl_bind_one normal_zero _ _ _ j4_0); [apply NoDup_seqZ|done|done| |done|].
  - apply (foldl_bind_one normal_zero _ _ _ jm0); [apply NoDup_seqZ|done|done| |done|].
    + rewrite group_on_single. cbn [foldl]. unfold j_effects_of.
      apply (foldl_bind_one normal_zero _ _ _ (tidxj t0));
        [apply NoDup_seqZ|done|done| |done|].
      * apply (foldl_bind_one normal_zero _ _ _ c0); [apply xyz_NoDup|done|done| |done|].
        -- cbn [foldl fst snd]. rewrite j_leaf by done. by rewrite !Z.eqb_refl.
        -- intros c Hc Hne a1 Ha1. cbn [foldl fst snd]. rewrite j_leaf by done.
           apply Z.eqb_neq in Hne. by rewrite Hne, andb_false_r.
      * intros tj Htj Hne a1 Ha1.
        apply (foldl_bind_zero normal_zero); [done|]. intros c Hc a2 Ha2.
        cbn [foldl fst snd]. rewrite j_leaf by done.
        apply Z.eqb_neq in Hne. by rewrite Hne.
    + intros jm Hjm Hne a1 Ha1. destruct (group_on args j4_0 jm); [|done].
      cbn [foldl]. apply j_effects_zero; [done|done| |done].
      apply Z.eqb_neq in Hne. by rewrite Hne, andb_false_r.
  - intros j4 Hj4 Hne a1 Ha1.
    apply (foldl_bind_zero normal_zero); [done|]. intros jm Hjm a2 Ha2.
    destruct (group_on args j4 jm); [|done].
    cbn [foldl]. apply j_effects_zero; [done|done| |done].
    apply Z.eqb_neq in Hne. by rewrite Hne.
Qed.

Lemma i_leaf (a i c : Z) (acc : float) :
  a ∈ lanes -> i ∈ seqZ 0 8 -> normal_zero acc ->
  step acc (atomic_add_force
              ((sci (nb_sci args bidx) * c_nbnxnGpuNumClusterPerSupercluster + i) * c_clSize
               + a) c (fci_reduced D fl args bidx i c a))
  = if (a =? tidxi t0) && (i =? i0) && (c =? c0) && (ai0 =? atom)
    then (acc + unsigned_zero (- component c0 F0))%f32 else acc.
Proof.
  intros Ha Hi Hacc. unfold step, force_step.
  rewrite (single_fci_reduced D fl args bidx t0 j4_0 jm0 i0 Hsingle) by done.
  destruct ((a =? tidxi t0) && (i =? i0)) eqn:Hs; cbn [andb].
  - apply andb_true_iff in Hs as [H1 H2]. apply Z.eqb_eq in H1, H2. subst a i.
    change ((sci (nb_sci args bidx) * c_nbnxnGpuNumClusterPerSupercluster + i0) * c_clSize
            + tidxi t0) with ai0.
    rewrite (andb_comm (ai0 =? atom)).
    destruct (c =? c0) eqn:Hc; [|done]. apply Z.eqb_eq in Hc as ->. reflexivity.
  - destruct ((_ =? atom) && _); [|done]. rewrite fadd_0_r. exact Hacc.
Qed.

Lemma i_fold (a b : float) :
  normal_zero a -> normal_zero b ->
  b = (if ai0 =? atom then (a + unsigned_zero (- component c0 F0))%f32 else a) ->
  foldl step a (i_force_effects D fl args bidx) = b.
Proof.
  intros Ha Hb Hab. destruct Hranges as (Ht0 & Hj0 & Hm0 & Hi0).
  assert (Hti0 : tidxi t0 ∈ lanes).
  { apply in_block in Ht0. apply elem_of_seqZ. unfold c_clSize. lia. }
  unfold i_force_effects.
  apply (foldl_bind_one normal_zero _ _ _ (tidxi t0)); [apply NoDup_seqZ|done|done| |done|].
  - apply (foldl_bind_one normal_zero _ _ _ c0); [apply xyz_NoDup|done|done| |done|].
    + apply (foldl_bind_one normal_zero _ _ _ i0); [apply NoDup_seqZ|done|done| |done|].
      * cbn [foldl]. rewrite i_leaf by done. by rewrite !Z.eqb_refl.
      * intros i Hi Hne a1 Ha1. cbn [foldl]. rewrite i_leaf by done.
        apply Z.eqb_neq in Hne. by rewrite Hne, andb_false_r.
    + intros c Hc Hne a1 Ha1.
      apply (foldl_bind_zero normal_zero); [done|]. intros i Hi a2 Ha2.
      cbn [foldl]. rewrite i_leaf by done.
      apply Z.eqb_neq in Hne. by rewrite Hne, andb_false_r.
  - intros a' Ha' Hne a1 Ha1.
    apply (foldl_bind_zero normal_zero); [done|]. intros c Hc a2 Ha2.
    apply (foldl_bind_zero normal_zero); [done|]. intros i Hi a3 Ha3.
    cbn [foldl]. rewrite i_leaf by done.
    apply Z.eqb_neq in Hne. by rewrite Hne.
Qed.

Lemma other_effects_fold (a : float) :
  foldl step a (fshift_effects D fl mm args bidx ++ energy_effects D fl mm args bidx
                ++ imask_effects D fl args bidx) = a.
Proof.
  rewrite !foldl_app.
  assert (H1 : foldl step a (fshift_effects D fl mm args bidx) = a).
  { unfold fshift_effects. destruct (calc_fshift D args bidx); [|done].
    apply (foldl_bind_zero (fun _ => True)); [done|]. intros x _ a1 _.
    apply (foldl_bind_zero (fun _ => True)); [done|]. by intros c _ a2 _. }
  rewrite H1.
  assert (H2 : foldl step a (energy_effects D fl mm args bidx) = a).
  { unfold energy_effects. by destruct (CALC_ENERGIES fl). }
  rewrite H2. unfold imask_effects. rewrite foldl_fmap. by apply foldl_id.
Qed.
End SinglePairTotals.

Section PairForces.

Lemma testbit_evaluates (D : DeviceLib) (fl : Flavor) (args : KernelArgs) (bidx : Z)
      (t : Thread) (j4 jm i : Z) :
  evaluates D fl args bidx t j4 jm i = true ->
  Z.testbit (imask_of args j4) (jm * 8 + i) = true.
Proof. unfold evaluates. intros H. by apply andb_true_iff in H as [H _]. Qed.

(** C2. Every evaluated pair adds its force vector [f_ij] to the
    accumulator [fcj_buf] of the j-atom and subtracts the same vector from the
    accumulator [fci_buf[i]] of the i-cluster.  Consequently, when the block
    evaluates exactly one pair of atoms, and these are two different atoms,
    the force the kernel leaves on the j-atom is [f_ij] and the force it
    leaves on the i-atom is [- f_ij], component by component, a zero being
    stored as the positive zero: the force on atom i is the negation of the
    force on atom j.  The shift forces go to a buffer of their own.  This
    holds for every kernel flavour and every implementation of the device
    helpers. *)
Theorem pair_forces_are_opposite :
  (forall (D : DeviceLib) (fl : Flavor) (args : KernelArgs) (bidx : Z) (t : Thread)
          (nb_any : Z -> Z -> Z -> bool) (j4 jm i : Z) (r : Regs),
      0 <= jm < 4 -> 0 <= i < 8 -> 0 <= r_imask r < 2 ^ 32 ->
      Z.testbit (r_imask r) (jm * 8 + i) = true ->
      evaluates D fl args bidx t j4 jm i = true ->
      let f_ij := f_ij_of D fl args bidx t j4 jm i in
      let r' := (i_iteration D fl args bidx t nb_any (preload args bidx) j4 jm
                             (cj_of args j4 jm) (xj_of args t j4 jm)
                             (f4_w (k_xq args (aj_of args t j4 jm)))
                             (k_atomTypes args (aj_of args t j4 jm))
                             (k_ljComb args (aj_of args t j4 jm))
                             (wexcl_of args t j4) (r, u32 (2 ^ (jm * 8 + i))) i).1 in
      fcj_buf r' = ff_add (fcj_buf r) f_ij
      /\ fci_buf r' = <[Z.to_nat i := ff_sub (fci_buf r !!! Z.to_nat i) f_ij]> (fci_buf r))
  /\ (forall (D : DeviceLib) (fl : Flavor) (mm : bool) (args : KernelArgs) (bidx : Z)
             (t0 : Thread) (j4_0 jm0 i0 c : Z),
         single_pair_block D fl args bidx t0 j4_0 jm0 i0 = true ->
         ai_of args bidx t0 i0 <> aj_of args t0 j4_0 jm0 ->
         c ∈ xyz ->
         let F := component c (f_ij_of D fl args bidx t0 j4_0 jm0 i0) in
         let f_j := force_after (nbnxn_kernel D fl mm args bidx) (aj_of args t0 j4_0 jm0) c in
         let f_i := force_after (nbnxn_kernel D fl mm args bidx) (ai_of args bidx t0 i0) c in
         f_j = unsigned_zero F
         /\ f_i = unsigned_zero (- F)%f32
         /\ same_value f_i (- f_j)%f32).
Proof.
  split.
  - intros D fl args bidx t nb_any j4 jm i r Hjm Hi Hr Hbit Hev f_ij r'.
    destruct (i_step_forces D fl args bidx t nb_any j4 jm Hjm r i Hi Hr) as (Hcj & Hci & _).
    { by rewrite Hbit, (testbit_evaluates D fl args bidx t j4 jm i Hev). }
    subst r' f_ij. rewrite Hcj, Hci. unfold fcj_step, fci_step. by rewrite Hev.
  - intros D fl mm args bidx t0 j4_0 jm0 i0 c Hsingle Hne Hc F f_j f_i.
    assert (Hj : f_j = unsigned_zero F).
    { subst f_j. unfold nbnxn_kernel.
      unfold force_after.
      rewrite foldl_app.
      rewrite (j_fold D fl args bidx t0 j4_0 jm0 i0 Hsingle _ c Hc f0 (unsigned_zero F));
        [|done|apply unsigned_zero_idemp|by rewrite Z.eqb_refl, fadd_0_l, unsigned_zero_idemp].
      rewrite foldl_app.
      rewrite (i_fold D fl args bidx t0 j4_0 jm0 i0 Hsingle _ c Hc _ (unsigned_zero F));
        [|apply unsigned_zero_idemp|apply unsigned_zero_idemp|].
      - apply other_effects_fold.
      - apply Z.eqb_neq in Hne. by rewrite Hne. }
    assert (Hi : f_i = unsigned_zero (- F)%f32).
    { subst f_i. unfold nbnxn_kernel.
      unfold force_after.
      rewrite foldl_app.
      rewrite (j_fold D fl args bidx t0 j4_0 jm0 i0 Hsingle _ c Hc f0 f0); [|done|done|].
      - rewrite foldl_app.
        rewrite (i_fold D fl args bidx t0 j4_0 jm0 i0 Hsingle _ c Hc f0
                        (unsigned_zero (- F)%f32));
          [|done|apply unsigned_zero_idemp
           |by rewrite Z.eqb_refl, fadd_0_l, unsigned_zero_idemp].
        apply other_effects_fold.
      - assert (Hne' : aj_of args t0 j4_0 jm0 <> ai_of args bidx t0 i0) by congruence.
        apply Z.eqb_neq in Hne'. by rewrite Hne'. }
    split; [done|]. split; [done|]. rewrite Hi, Hj. apply same_value_negation.
Qed.
End PairForces.

Section KernelWitnesses.

(** C1 at the two-atom system, for the thread that holds both atoms: with
    the cutoff at half the distance of the atoms (the test is false; the
    distance is above the cutoff), with the cutoff at the distance of the
    atoms, and with the cutoff at twice that distance. *)
Lemma cutoff_check_is_strict_witness :
  (let r' := (i_iteration Examples.lib Examples.cutoff_F Examples.two_atom_args_short_cutoff
                          0 Examples.thread00 (fun _ _ _ => true)
                          (preload Examples.two_atom_args_short_cutoff 0) 0 0 1
                          Examples.xj_atom8 fm1 0 (make_float2 f0 f0) 1
                          (Examples.regs_at_entry, 1) 0).1 in
   fcj_buf r' = fcj_buf Examples.regs_at_entry
   /\ fci_buf r' = fci_buf Examples.regs_at_entry
   /\ E_lj r' = E_lj Examples.regs_at_entry /\ E_el r' = E_el Examples.regs_at_entry)
  /\ (let r' := (i_iteration Examples.lib Examples.cutoff_F Examples.two_atom_args_short_cutoff
                          0 Examples.thread00 (fun _ _ _ => true)
                          (preload Examples.two_atom_args_short_cutoff 0) 0 0 1
                          Examples.xj_atom8 fm1 0 (make_float2 f0 f0) 1
                          (Examples.regs_at_entry, 1) 0).1 in
   fcj_buf r' = fcj_buf Examples.regs_at_entry
   /\ fci_buf r' = fci_buf Examples.regs_at_entry
   /\ E_lj r' = E_lj Examples.regs_at_entry /\ E_el r' = E_el Examples.regs_at_entry)
  /\ (let r' := (i_iteration Examples.lib Examples.cutoff_F Examples.two_atom_args_at_cutoff
                          0 Examples.thread00 (fun _ _ _ => true)
                          (preload Examples.two_atom_args_at_cutoff 0) 0 0 1
                          Examples.xj_atom8 fm1 0 (make_float2 f0 f0) 1
                          (Examples.regs_at_entry, 1) 0).1 in
   fcj_buf r' = fcj_buf Examples.regs_at_entry
   /\ fci_buf r' = fci_buf Examples.regs_at_entry
   /\ E_lj r' = E_lj Examples.regs_at_entry /\ E_el r' = E_el Examples.regs_at_entry)
  /\ (let r' := (i_iteration Examples.lib Examples.cutoff_F Examples.two_atom_args
                             0 Examples.thread00 (fun _ _ _ => true)
                             (preload Examples.two_atom_args 0) 0 0 1
                             Examples.xj_atom8 fm1 0 (make_float2 f0 f0) 1
                             (Examples.regs_at_entry, 1) 0).1 in
      let f_ij := pair_f_ij Examples.lib Examples.cutoff_F Examples.two_atom_args
                            Examples.thread00 (preload Examples.two_atom_args 0) 0
                            Examples.xj_atom8 fm1 0 (make_float2 f0 f0) 1 0 in
      fcj_buf r' = ff_add (fcj_buf Examples.regs_at_entry) f_ij
      /\ fci_buf r'
         = <[0%nat := ff_sub (fci_buf Examples.regs_at_entry !!! 0%nat) f_ij]>
             (fci_buf Examples.regs_at_entry)).
Proof.
  split; [|split; [|split]].
  - (* r2 = 1 and the squared cutoff 1/4: the test r2 < rcoulomb_sq is false *)
    apply (proj1 (cutoff_check_is_strict Examples.lib Examples.cutoff_F
             Examples.two_atom_args_short_cutoff 0 Examples.thread00 (fun _ _ _ => true)
             (preload Examples.two_atom_args_short_cutoff 0) 0 0 1 Examples.xj_atom8 fm1 0
             (make_float2 f0 f0) 1 Examples.regs_at_entry 1 0)).
    vm_compute. reflexivity.
  - (* r2 = 1 above the squared cutoff 1/4 *)
    apply (proj1 (proj2 (proj2 (cutoff_check_is_strict Examples.lib Examples.cutoff_F
             Examples.two_atom_args_short_cutoff 0 Examples.thread00 (fun _ _ _ => true)
             (preload Examples.two_atom_args_short_cutoff 0) 0 0 1 Examples.xj_atom8 fm1 0
             (make_float2 f0 f0) 1 Examples.regs_at_entry 1 0)))).
    left. vm_compute. reflexivity.
  - (* r2 = 1 at the squared cutoff 1 *)
    apply (proj1 (proj2 (cutoff_check_is_strict Examples.lib Examples.cutoff_F
             Examples.two_atom_args_at_cutoff 0 Examples.thread00 (fun _ _ _ => true)
             (preload Examples.two_atom_args_at_cutoff 0) 0 0 1 Examples.xj_atom8 fm1 0
             (make_float2 f0 f0) 1 Examples.regs_at_entry 1 0))).
    left. vm_compute. reflexivity.
  - (* r2 = 1 below the squared cutoff 4 *)
    pose proof (proj2 (proj2 (proj2 (cutoff_check_is_strict Examples.lib Examples.cutoff_F
             Examples.two_atom_args 0 Examples.thread00 (fun _ _ _ => true)
             (preload Examples.two_atom_args 0) 0 0 1 Examples.xj_atom8 fm1 0
             (make_float2 f0 f0) 1 Examples.regs_at_entry 1 0)))) as H.
    destruct H as (H1 & H2 & _).
    + vm_compute. discriminate.
    + split; [vm_compute; reflexivity | discriminate].
    + vm_compute. reflexivity.
    + split; [exact H1 | exact H2].
Defined.

(** C4 at the two-atom system, with a reciprocal square root that
    returns zero below the minimum distance. *)
Lemma rsqrt_argument_is_clamped_witness :
  rsqrt_argument Examples.lib f0 = fmax f0 (c_nbnxnMinDistanceSquared Examples.lib)
  /\ fle (c_nbnxnMinDistanceSquared Examples.lib) (rsqrt_argument Examples.lib f0) = true
  /\ i_iteration (with_rsqrt Examples.lib Examples.rsqrt_above_min) Examples.cutoff_F
                 Examples.two_atom_args 0 Examples.thread00 (fun _ _ _ => true)
                 (preload Examples.two_atom_args 0) 0 0 1 Examples.xj_atom8 fm1 0
                 (make_float2 f0 f0) 1 (Examples.regs_at_entry, 1) 0
     = i_iteration Examples.lib Examples.cutoff_F
                   Examples.two_atom_args 0 Examples.thread00 (fun _ _ _ => true)
                   (preload Examples.two_atom_args 0) 0 0 1 Examples.xj_atom8 fm1 0
                   (make_float2 f0 f0) 1 (Examples.regs_at_entry, 1) 0.
Proof.
  apply (rsqrt_argument_is_clamped Examples.lib Examples.rsqrt_above_min).
  - reflexivity.
  - intros x Hx. unfold Examples.rsqrt_above_min. rewrite Hx. reflexivity.
Defined.

Lemma pair_forces_are_opposite_witness :
  let F := component 0 (f_ij_of Examples.lib Examples.cutoff_F Examples.two_atom_args 0
                                Examples.thread00 0 0 0) in
  let f_j := force_after (nbnxn_kernel Examples.lib Examples.cutoff_F false
                                       Examples.two_atom_args 0) 8 0 in
  let f_i := force_after (nbnxn_kernel Examples.lib Examples.cutoff_F false
                                       Examples.two_atom_args 0) 0 0 in
  f_j = unsigned_zero F /\ f_i = unsigned_zero (- F)%f32 /\ same_value f_i (- f_j)%f32.
Proof.
  apply (proj2 pair_forces_are_opposite Examples.lib Examples.cutoff_F false
               Examples.two_atom_args 0 Examples.thread00 0 0 0 0).
  - vm_compute. reflexivity.
  - vm_compute. discriminate.
  - unfold xyz. left.
Defined.

End KernelWitnesses.

(* ===================================================================== *)
(** * Further properties: vectors                                        *)
(* ===================================================================== *)

Section SignFacts.

Lemma binary_round_aux_sign (s : bool) (m e : Z) (l : location) :
  binary_round_aux prec emax s m e l = S754_nan
  \/ sign_clear (binary_round_aux prec emax s m e l) = negb s.
Proof.
  unfold binary_round_aux.
  destruct (shr_fexp prec emax m e l) as [mrs' e'].
  destruct (shr_fexp prec emax _ e' loc_Exact) as [mrs'' e''].
  destruct (shr_m mrs''); [by right| |by left].
  destruct (e'' <=? emax - prec); by right.
Qed.

Lemma binary_round_sign (s : bool) (m : positive) (e : Z) :
  binary_round prec emax s m e = S754_nan
  \/ sign_clear (binary_round prec emax s m e) = negb s.
Proof.
  unfold binary_round. destruct (shl_align _ _ _) as [mz ez].
  apply binary_round_aux_sign.
Qed.

Lemma fmul_self_sign (x : float) : sign_clear (x * x)%f32 = true.
Proof.
  destruct x as [[]|[]| |s m e]; try done.
  unfold fmul, SFmul.
  destruct (binary_round_aux_sign (xorb s s) (Z.pos (m * m)) (e + e) loc_Exact) as [-> | ->];
    [done | by destruct s].
Qed.

Lemma fadd_sign (x y : float) :
  sign_clear x = true -> sign_clear y = true -> sign_clear (x + y)%f32 = true.
Proof.
  destruct x as [[]|[]| |s m e], y as [[]|[]| |s' m' e']; try done.
  cbn [sign_clear]. intros Hs Hs'. apply negb_true_iff in Hs, Hs'. subst s s'.
  unfold fadd, SFadd. cbn [cond_Zopp Z.add].
  unfold binary_normalize. rewrite <- Pos2Z.inj_add.
  match goal with |- context [binary_round _ _ _ ?p ?q] =>
    destruct (binary_round_sign false p q) as [-> | ->]; done end.
Qed.

Lemma sign_clear_not_negative (x : float) : sign_clear x = true -> flt x f0 = false.
Proof. by destruct x as [[]|[]| |[] m e]. Qed.

Lemma fmul_comm (x y : float) : (x * y)%f32 = (y * x)%f32.
Proof.
  destruct x as [[]|[]| |s m e], y as [[]|[]| |s' m' e']; try done;
    try (by destruct s); try (by destruct s').
  unfold fmul, SFmul. by rewrite xorb_comm, Pos.mul_comm, Z.add_comm.
Qed.
End SignFacts.

Section VecOpsMore.

(** X2. The squared norm, of a [float3] and of a [fast_float3], is never
    below zero and never the negative zero, whatever the components: each
    square has a clear sign bit or is a NaN, and a single-precision sum of
    such values is one again. *)
Theorem norm2_is_never_negative (a : float3) (v : fast_float3) :
  flt (norm2 a) f0 = false /\ norm2 a <> S754_zero true
  /\ flt (ff_norm2 v) f0 = false /\ ff_norm2 v <> S754_zero true.
Proof.
  assert (Ha : sign_clear (norm2 a) = true).
  { unfold norm2. repeat apply fadd_sign; apply fmul_self_sign. }
  assert (Hv : sign_clear (ff_norm2 v) = true).
  { unfold ff_norm2. cbn. repeat apply fadd_sign; apply fmul_self_sign. }
  split; [by apply sign_clear_not_negative|]. split; [by intros E; rewrite E in Ha|].
  split; [by apply sign_clear_not_negative|]. by intros E; rewrite E in Hv.
Qed.

(** X3. [iprod] and [cos_angle] do not depend on the order of their
    two vectors: single-precision multiplication commutes, with the same
    zero, infinity or NaN in both orders. *)
Theorem cos_angle_is_symmetric (rsqrt : float -> float) (a b : float3) :
  iprod a b = iprod b a /\ cos_angle rsqrt a b = cos_angle rsqrt b a.
Proof.
  assert (H : iprod a b = iprod b a).
  { unfold iprod. by rewrite (fmul_comm (f3_x a)), (fmul_comm (f3_y a)), (fmul_comm (f3_z a)). }
  split; [done|]. unfold cos_angle. by rewrite H, (fmul_comm (norm2 a)).
Qed.

(** X4. If the three components of one of the vectors are zeros (of
    either sign), [cos_angle] returns 1: the product of the squared norms is
    not above zero, so the scalar product is not scaled by the reciprocal
    square root, whatever the other vector holds. *)
Theorem cos_angle_of_zero_vector (rsqrt : float -> float) (a b : float3) :
  is_zero_vector a = true \/ is_zero_vector b = true ->
  cos_angle rsqrt a b = f1.
Proof.
  assert (Hz : forall u, is_zero_vector u = true -> norm2 u = f0).
  { intros [x y z] H. unfold is_zero_vector in H. simpl in H.
    apply andb_true_iff in H as [H Hz]. apply andb_true_iff in H as [Hx Hy].
    destruct x as [[]| | |]; try done; destruct y as [[]| | |]; try done;
      destruct z as [[]| | |]; try done. }
  assert (Hm : forall y, (f0 * y >? f0)%f32 = false).
  { intros y. by destruct y as [[]|[]| |[] m e]. }
  intros [H | H]; unfold cos_angle; rewrite (Hz _ H).
  - by rewrite Hm.
  - by rewrite fmul_comm, Hm.
Qed.

End VecOpsMore.

(* ===================================================================== *)
(** * Further properties: the kernel                                     *)
(* ===================================================================== *)

Section ExclusionBitFacts.
Lemma excl_bit_testbit (wexcl n : Z) :
  0 <= n -> excl_bit wexcl n = of_bit (Z.testbit wexcl n).
Proof.
  intros Hn. unfold excl_bit.
  change 1 with (Z.ones 1). rewrite Z.land_ones by lia. change (2 ^ 1) with 2.
  rewrite <- Z.bit0_mod, Z.shiftr_spec, Z.add_0_l by lia.
  by destruct (Z.testbit wexcl n).
Qed.

Lemma check_fails_without_bit (b : bool) : truthy (of_bit b * f0)%f32 = false.
Proof. by destruct b. Qed.
End ExclusionBitFacts.

Section SkippedPairs.
Variable D : DeviceLib.
Variable fl : Flavor.
Variable args : KernelArgs.
Variable bidx : Z.
Variable t : Thread.
Variable nb_any : Z -> Z -> Z -> bool.

(** X5. In a flavour without [EXCLUSION_FORCES], a pair whose bit in
    the exclusion word [wexcl] is clear fails the cutoff and exclusion check
    at every distance: the pass of the loop over the i-clusters leaves the
    force accumulators and both energies as they were. *)
Theorem excluded_pair_is_skipped
        (sh : Shmem) (j4 jm cj_ : Z) (xj : fast_float3) (qj_f : float)
        (typej : Z) (ljcp_j : float2) (wexcl : Z) (r : Regs) (mask_ji i : Z) :
  EXCLUSION_FORCES fl = false ->
  0 <= jm -> 0 <= i ->
  Z.testbit wexcl (jm * c_nbnxnGpuNumClusterPerSupercluster + i) = false ->
  let r' := (i_iteration D fl args bidx t nb_any sh j4 jm cj_ xj qj_f typej ljcp_j
                         wexcl (r, mask_ji) i).1 in
  fcj_buf r' = fcj_buf r /\ fci_buf r' = fci_buf r
  /\ E_lj r' = E_lj r /\ E_el r' = E_el r.
Proof.
  intros Hef Hjm Hi Hbit r'. subst r'. unfold i_iteration.
  destruct (negb (Z.land (r_imask r) mask_ji =? 0)); [|done].
  unfold cutoff_exclusion_check. rewrite Hef.
  rewrite excl_bit_testbit, Hbit by (unfold c_nbnxnGpuNumClusterPerSupercluster; lia).
  by rewrite check_fails_without_bit.
Qed.

(** X6. In a flavour with [EXCLUSION_FORCES], in a super-cluster with
    the central shift, a thread with [tidxj <= tidxi] skips the pair of a
    cluster with itself ([cj == ci]): the force accumulators and both
    energies are as they were, whatever the distance and the exclusion
    word. *)
Theorem self_pair_is_skipped
        (sh : Shmem) (j4 jm : Z) (xj : fast_float3) (qj_f : float)
        (typej : Z) (ljcp_j : float2) (wexcl : Z) (r : Regs) (mask_ji i : Z) :
  EXCLUSION_FORCES fl = true ->
  shift (nb_sci args bidx) = c_centralShiftIndex D ->
  tidxj t <= tidxi t ->
  let ci := sci (nb_sci args bidx) * c_nbnxnGpuNumClusterPerSupercluster + i in
  let r' := (i_iteration D fl args bidx t nb_any sh j4 jm ci xj qj_f typej ljcp_j
                         wexcl (r, mask_ji) i).1 in
  fcj_buf r' = fcj_buf r /\ fci_buf r' = fci_buf r
  /\ E_lj r' = E_lj r /\ E_el r' = E_el r.
Proof.
  intros Hef Hshift Hle ci r'. subst r'. unfold i_iteration.
  destruct (negb (Z.land (r_imask r) mask_ji =? 0)); [|done].
  unfold cutoff_exclusion_check, nonSelfInteraction. rewrite Hef, Hshift, Z.eqb_refl.
  apply Z.leb_le in Hle. rewrite Hle. cbn [andb negb]. fold ci.
  by rewrite Z.eqb_refl, andb_false_r.
Qed.
End SkippedPairs.

Section ClearBits.
Variable D : DeviceLib.
Variable fl : Flavor.
Variable args : KernelArgs.
Variable bidx : Z.
Variable t : Thread.
Variable nb_any : Z -> Z -> Z -> bool.

(** X7. Clear bits of the interaction mask skip the work.  A pass of
    the loop over the i-clusters whose mask bit is clear changes no register
    and only doubles [mask_ji]; a j-cluster none of whose 8 bits is set is
    skipped, and nothing is written out for it; a j-cluster with a set bit
    writes out exactly one force, for the atom [cj * c_clSize + tidxj]. *)
Theorem clear_mask_bits_skip_work
        (sh : Shmem) (j4 jm wexcl : Z) (r : Regs) (out : list (Z * fast_float3)) :
  0 <= jm < 4 ->
  let cj_ := nth (Z.to_nat jm) (cj (pl_cj4 args j4)) 0 in
  let aj := cj_ * c_clSize + tidxj t in
  (forall i xj qj_f typej ljcp_j,
      0 <= i < 8 ->
      Z.testbit (r_imask r) (jm * 8 + i) = false ->
      i_iteration D fl args bidx t nb_any sh j4 jm cj_ xj qj_f typej ljcp_j wexcl
                  (r, u32 (2 ^ (jm * 8 + i))) i
      = (r, u32 (2 ^ (jm * 8 + (i + 1)))))
  /\ ((forall i, 0 <= i < 8 -> Z.testbit (r_imask r) (jm * 8 + i) = false) ->
      jm_iteration D fl args bidx t nb_any sh j4 wexcl (r, out) jm = (r, out))
  /\ ((exists i, 0 <= i < 8 /\ Z.testbit (r_imask r) (jm * 8 + i) = true) ->
      exists r1, jm_iteration D fl args bidx t nb_any sh j4 wexcl (r, out) jm
                 = (r1, out ++ [(aj, fcj_buf r1)])).
Proof.
  intros Hjm cj_ aj. split; [|split].
  - intros i xj qj_f typej ljcp_j Hi Hbit. unfold i_iteration.
    rewrite mask_test, Hbit by lia. cbn [negb]. f_equal.
    replace (jm * 8 + (i + 1)) with (jm * 8 + i + 1) by lia.
    apply u32_pow2_double. lia.
  - intros Hclear. unfold jm_iteration. rewrite group_mask_test by done.
    assert (Hex : existsb (fun i => Z.testbit (r_imask r)
                                      (jm * c_nbnxnGpuNumClusterPerSupercluster + i))
                          (seqZ 0 c_nbnxnGpuNumClusterPerSupercluster) = false).
    { apply not_true_is_false. intros Hex.
      apply existsb_exists in Hex as (i & Hi & Hb).
      apply list_elem_of_In, elem_of_seqZ in Hi.
      unfold c_nbnxnGpuNumClusterPerSupercluster in *.
      rewrite Hclear in Hb by lia. done. }
    by rewrite Hex.
  - intros (i & Hi & Hb). unfold jm_iteration. rewrite group_mask_test by done.
    assert (Hex : existsb (fun i => Z.testbit (r_imask r)
                                      (jm * c_nbnxnGpuNumClusterPerSupercluster + i))
                          (seqZ 0 c_nbnxnGpuNumClusterPerSupercluster) = true).
    { apply existsb_exists. exists i. split; [|done].
      apply list_elem_of_In, elem_of_seqZ. unfold c_nbnxnGpuNumClusterPerSupercluster. lia. }
    rewrite Hex. cbn [negb].
    destruct (foldl _ _ _) as [r1 m1]. by exists r1.
Qed.
End ClearBits.

Section PruningFacts.
Variable D : DeviceLib.
Variable fl : Flavor.
Variable args : KernelArgs.
Variable bidx : Z.
Variable t : Thread.
Variable nb_any : Z -> Z -> Z -> bool.
Variable sh : Shmem.
Variable j4 : Z.
Variable wexcl : Z.

(** The bit of the cluster pair [(jm, i)] after pruning. *)
Let kept (jm i : Z) : bool := negb (PRUNE_NBL fl) || nb_any j4 jm i.

Lemma i_step_mask (jm cj_ : Z) (xj : fast_float3) (qj_f : float) (typej : Z)
      (ljcp_j : float2) (r : Regs) (i : Z) :
  0 <= jm < 4 -> 0 <= i < 8 -> 0 <= r_imask r < 2 ^ 32 ->
  let st' := i_iteration D fl args bidx t nb_any sh j4 jm cj_ xj qj_f typej ljcp_j wexcl
                         (r, u32 (2 ^ (jm * 8 + i))) i in
  st'.2 = u32 (2 ^ (jm * 8 + (i + 1)))
  /\ 0 <= r_imask st'.1 < 2 ^ 32
  /\ Z.testbit (r_imask st'.1) (jm * 8 + i)
     = Z.testbit (r_imask r) (jm * 8 + i) && kept jm i
  /\ (forall m, 0 <= m -> m <> jm * 8 + i ->
                Z.testbit (r_imask st'.1) m = Z.testbit (r_imask r) m).
Proof.
  intros Hjm Hi Hr st'. subst st'. unfold i_iteration, kept.
  rewrite mask_test by lia. cbn [fst snd].
  split.
  { replace (jm * 8 + (i + 1)) with (jm * 8 + i + 1) by lia.
    apply u32_pow2_double. lia. }
  destruct (Z.testbit (r_imask r) (jm * 8 + i)) eqn:Hb; cbn [negb andb]; [|done].
  assert (Hmask : forall F : Z -> Regs,
             (forall x, r_imask (F x) = x) ->
             let m' := if PRUNE_NBL fl && negb (nb_any j4 jm i)
                       then Z.land (r_imask r) (u32_not (u32 (2 ^ (jm * 8 + i))))
                       else r_imask r in
             0 <= r_imask (F m') < 2 ^ 32
             /\ Z.testbit (r_imask (F m')) (jm * 8 + i)
                = (negb (PRUNE_NBL fl) || nb_any j4 jm i)
             /\ (forall m, 0 <= m -> m <> jm * 8 + i ->
                           Z.testbit (r_imask (F m')) m = Z.testbit (r_imask r) m)).
  { intros F HF m'. subst m'. rewrite HF.
    destruct (PRUNE_NBL fl); cbn [andb negb orb]; [|by rewrite Hb].
    destruct (nb_any j4 jm i); cbn [negb]; [by rewrite Hb|].
    split; [by apply prune_range|]. split.
    - rewrite prune_bit by lia. by rewrite Z.eqb_refl, andb_false_r.
    - intros m Hm Hne. rewrite prune_bit by lia.
      apply Z.eqb_neq in Hne. by rewrite Hne, andb_true_r. }
  destruct (cutoff_exclusion_check _ _ _ _ _ _ _ _ _).
  - destruct (pair_interaction _ _ _ _ _ _ _ _ _ _ _ _ _ _) as [[F Elj] Eel].
    exact (Hmask (fun x => {| r_imask := x; fcj_buf := _; fci_buf := _;
                              E_lj := _; E_el := _ |}) (fun _ => eq_refl)).
  - exact (Hmask (fun x => {| r_imask := x; fcj_buf := _; fci_buf := _;
                              E_lj := _; E_el := _ |}) (fun _ => eq_refl)).
Qed.

Lemma i_loop_mask (jm cj_ : Z) (xj : fast_float3) (qj_f : float) (typej : Z)
      (ljcp_j : float2) (n : nat) :
  0 <= jm < 4 ->
  forall (k : Z) (r : Regs),
    0 <= k -> k + Z.of_nat n <= 8 -> 0 <= r_imask r < 2 ^ 32 ->
    let st' := foldl (i_iteration D fl args bidx t nb_any sh j4 jm cj_ xj qj_f typej
                                  ljcp_j wexcl)
                     (r, u32 (2 ^ (jm * 8 + k))) (seqZ k (Z.of_nat n)) in
    0 <= r_imask st'.1 < 2 ^ 32
    /\ (forall i, k <= i < k + Z.of_nat n ->
                  Z.testbit (r_imask st'.1) (jm * 8 + i)
                  = Z.testbit (r_imask r) (jm * 8 + i) && kept jm i)
    /\ (forall m, 0 <= m -> m < jm * 8 + k \/ jm * 8 + k + Z.of_nat n <= m ->
                  Z.testbit (r_imask st'.1) m = Z.testbit (r_imask r) m).
Proof.
  intros Hjm. induction n as [|n IH]; intros k r Hk Hkn Hr st'; subst st'.
  - rewrite seqZ_nil by lia. simpl. split; [done|]. split; [lia|done].
  - rewrite seqZ_cons by lia. cbn [foldl].
    replace (Z.pred (Z.of_nat (S n))) with (Z.of_nat n) by lia.
    destruct (i_step_mask jm cj_ xj qj_f typej ljcp_j r k Hjm ltac:(lia) Hr)
      as (Hm & Hr' & Hbit & Hother).
    destruct (i_iteration _ _ _ _ _ _ _ _ _ _ _ _ _ _ _ _ _) as [r1 m1].
    cbn [fst snd] in *. subst m1.
    replace (jm * 8 + (k + 1)) with (jm * 8 + Z.succ k) by lia.
    destruct (IH (Z.succ k) r1 ltac:(lia) ltac:(lia) Hr') as (IHr & IHbits & IHother).
    split; [done|]. split.
    + intros i Hi. destruct (Z.eq_dec i k) as [->|Hne].
      * rewrite IHother by lia. done.
      * rewrite IHbits by lia. rewrite Hother by lia. done.
    + intros m Hm0 Hout. rewrite IHother by lia. apply Hother; lia.
Qed.

Lemma jm_step_mask (jm : Z) (r : Regs) (out : list (Z * fast_float3)) :
  0 <= jm < 4 -> 0 <= r_imask r < 2 ^ 32 ->
  let st' := jm_iteration D fl args bidx t nb_any sh j4 wexcl (r, out) jm in
  0 <= r_imask st'.1 < 2 ^ 32
  /\ (forall i, 0 <= i < 8 ->
                Z.testbit (r_imask st'.1) (jm * 8 + i)
                = Z.testbit (r_imask r) (jm * 8 + i) && kept jm i)
  /\ (forall m, 0 <= m -> m < jm * 8 \/ jm * 8 + 8 <= m ->
                Z.testbit (r_imask st'.1) m = Z.testbit (r_imask r) m).
Proof.
  intros Hjm Hr st'. subst st'. unfold jm_iteration.
  rewrite group_mask_test by done.
  destruct (existsb _ _) eqn:Hex; cbn [negb].
  - rewrite Z.shiftl_1_l.
    change (jm * c_nbnxnGpuNumClusterPerSupercluster) with (jm * 8).
    change (seqZ 0 c_nbnxnGpuNumClusterPerSupercluster) with (seqZ 0 (Z.of_nat 8)).
    pose proof (i_loop_mask jm (nth (Z.to_nat jm) (cj (pl_cj4 args j4)) 0)
                  (make_fast_float3_4 (k_xq args (nth (Z.to_nat jm) (cj (pl_cj4 args j4)) 0
                                                  * c_clSize + tidxj t)))
                  (f4_w (k_xq args (nth (Z.to_nat jm) (cj (pl_cj4 args j4)) 0
                                    * c_clSize + tidxj t)))
                  (k_atomTypes args (nth (Z.to_nat jm) (cj (pl_cj4 args j4)) 0
                                     * c_clSize + tidxj t))
                  (k_ljComb args (nth (Z.to_nat jm) (cj (pl_cj4 args j4)) 0
                                  * c_clSize + tidxj t))
                  8 Hjm 0 (set_fcj r (make_fast_float3 f0)) ltac:(lia) ltac:(lia) Hr)
      as Hloop.
    cbv zeta in Hloop. rewrite !Z.add_0_r in Hloop.
    set (st1 := foldl _ _ _) in Hloop.
    change (foldl (i_iteration _ _ _ _ _ _ _ _ _ _ _ _ _ _ _) _ _) with st1.
    destruct st1 as [r1 m1]. cbn [fst snd r_imask set_fcj] in *.
    destruct Hloop as (Hr1 & Hbits & Hother).
    split; [done|]. split.
    + intros i Hi. apply Hbits. lia.
    + intros m Hm Hout. apply Hother; lia.
  - cbn [fst]. split; [done|]. split; [|done].
    intros i Hi.
    assert (Hb : Z.testbit (r_imask r) (jm * 8 + i) = false).
    { apply not_true_is_false. intros Hb.
      assert (existsb (fun i0 => Z.testbit (r_imask r)
                                   (jm * c_nbnxnGpuNumClusterPerSupercluster + i0))
                      (seqZ 0 c_nbnxnGpuNumClusterPerSupercluster) = true); [|congruence].
      apply existsb_exists. exists i. split; [|done].
      apply list_elem_of_In, elem_of_seqZ. unfold c_nbnxnGpuNumClusterPerSupercluster. lia. }
    by rewrite Hb.
Qed.

Lemma jm_loop_mask (n : nat) :
  forall (k : Z) (r : Regs) (out : list (Z * fast_float3)),
    0 <= k -> k + Z.of_nat n <= 4 -> 0 <= r_imask r < 2 ^ 32 ->
    let st' := foldl (jm_iteration D fl args bidx t nb_any sh j4 wexcl) (r, out)
                     (seqZ k (Z.of_nat n)) in
    0 <= r_imask st'.1 < 2 ^ 32
    /\ (forall jm i, k <= jm < k + Z.of_nat n -> 0 <= i < 8 ->
                     Z.testbit (r_imask st'.1) (jm * 8 + i)
                     = Z.testbit (r_imask r) (jm * 8 + i) && kept jm i)
    /\ (forall m, 0 <= m -> m < k * 8 \/ (k + Z.of_nat n) * 8 <= m ->
                  Z.testbit (r_imask st'.1) m = Z.testbit (r_imask r) m).
Proof.
  induction n as [|n IH]; intros k r out Hk Hkn Hr st'; subst st'.
  - rewrite seqZ_nil by lia. simpl. split; [done|]. split; [lia|done].
  - rewrite seqZ_cons by lia. cbn [foldl].
    replace (Z.pred (Z.of_nat (S n))) with (Z.of_nat n) by lia.
    destruct (jm_step_mask k r out ltac:(lia) Hr) as (Hr' & Hbits & Hother).
    destruct (jm_iteration _ _ _ _ _ _ _ _ _ _ _) as [r1 out1]. cbn [fst snd] in *.
    destruct (IH (Z.succ k) r1 out1 ltac:(lia) ltac:(lia) Hr') as (IHr & IHbits & IHother).
    split; [done|]. split.
    + intros jm i Hjm Hi. destruct (Z.eq_dec jm k) as [->|Hne].
      * rewrite IHother by lia. by apply Hbits.
      * rewrite IHbits by lia. rewrite Hother by lia. done.
    + intros m Hm0 Hout. rewrite IHother by lia. apply Hother; lia.
Qed.
End PruningFacts.

Section Pruning.
Variable D : DeviceLib.
Variable fl : Flavor.
Variable args : KernelArgs.
Variable bidx : Z.
Variable t : Thread.
Variable nb_any : Z -> Z -> Z -> bool.

(** X8. What one pass of the loop over the groups stores back to
    [pl_cj4[j4].imei[widx].imask]: without [PRUNE_NBL] nothing; with it one
    32-bit value, whose bit [jm * 8 + i] is set exactly when it is set in the
    mask of the list and [__nb_any] found an atom pair of the cluster pair
    within the list cutoff ([nb_any j4 jm i]).  Pruning only clears bits. *)
Theorem stored_mask_is_pruned_mask (sh : Shmem) (st : ThreadOut) (j4 : Z) :
  0 <= imask_of args j4 < 2 ^ 32 ->
  let st' := j4_iteration D fl args bidx t nb_any sh st j4 in
  (PRUNE_NBL fl = false -> imask_out st' = imask_out st)
  /\ (PRUNE_NBL fl = true ->
      exists m', imask_out st' = imask_out st ++ [(j4, m')]
                 /\ 0 <= m' < 2 ^ 32
                 /\ forall jm i, 0 <= jm < 4 -> 0 <= i < 8 ->
                                 Z.testbit m' (jm * 8 + i)
                                 = Z.testbit (imask_of args j4) (jm * 8 + i)
                                   && nb_any j4 jm i).
Proof.
  intros Hm st'. subst st'. unfold j4_iteration.
  change (nth (Z.to_nat (widx t)) (imei (pl_cj4 args j4)) {| imask := 0; excl_ind := 0 |})
    with (cj4_entry args j4).
  fold (imask_of args j4).
  split.
  - intros Hp. rewrite Hp. cbn [negb andb].
    destruct (imask_of args j4 =? 0); [done|].
    by destruct (foldl _ _ _).
  - intros Hp. rewrite Hp. cbn [negb andb].
    change (seqZ 0 c_nbnxnGpuJgroupSize) with (seqZ 0 (Z.of_nat 4)).
    pose proof (jm_loop_mask D fl args bidx t nb_any sh j4
                  (nth (Z.to_nat (Z.land (tidx t) (c_subWarp - 1)))
                       (pair (pl_excl args (excl_ind (cj4_entry args j4)))) 0)
                  4 0 (set_imask (regs st) (imask_of args j4)) (j_out st)
                  ltac:(lia) ltac:(lia) Hm) as Hloop.
    cbv zeta in Hloop.
    set (st1 := foldl _ _ _) in Hloop.
    change (foldl (jm_iteration _ _ _ _ _ _ _ _ _) _ _) with st1.
    destruct st1 as [r1 out1]. cbn [fst snd r_imask set_imask imask_out] in *.
    destruct Hloop as (Hr1 & Hbits & _).
    exists (r_imask r1). split; [done|]. split; [done|].
    intros jm i Hjm Hi. rewrite Hbits by lia. by rewrite Hp.
Qed.
End Pruning.

Section IdleBlock.
Variable D : DeviceLib.
Variable fl : Flavor.
Variable mm : bool.
Variable args : KernelArgs.
Variable bidx : Z.
Hypothesis Hidle : idle_block D fl args bidx = true.

Let j4s := seqZ (cij4_start args bidx) (cj4_length (nb_sci args bidx)).

Lemma idle_masks (j4 : Z) : j4 ∈ j4s -> 0 <= imask_of args j4 < 2 ^ 32.
Proof.
  intros Hj4. unfold idle_block in Hidle. rewrite forallb_forall in Hidle.
  specialize (Hidle j4 (proj1 (list_elem_of_In _ _) Hj4)).
  rewrite !andb_true_iff in Hidle. destruct Hidle as [[H1 H2] _]. lia.
Qed.

Lemma idle_evaluates (t : Thread) (j4 jm i : Z) :
  t ∈ block_threads -> j4 ∈ j4s -> jm ∈ seqZ 0 4 -> i ∈ seqZ 0 8 ->
  evaluates D fl args bidx t j4 jm i = false.
Proof.
  intros Ht Hj4 Hjm Hi. unfold idle_block in Hidle. rewrite forallb_forall in Hidle.
  specialize (Hidle j4 (proj1 (list_elem_of_In _ _) Hj4)).
  rewrite !andb_true_iff in Hidle. destruct Hidle as [_ Hall].
  rewrite forallb_forall in Hall.
  specialize (Hall t (proj1 (list_elem_of_In _ _) Ht)).
  rewrite forallb_forall in Hall.
  specialize (Hall jm (proj1 (list_elem_of_In _ _) Hjm)).
  rewrite forallb_forall in Hall.
  specialize (Hall i (proj1 (list_elem_of_In _ _) Hi)).
  by apply negb_true_iff in Hall.
Qed.

Lemma idle_fcj (t : Thread) (j4 jm : Z) :
  t ∈ block_threads -> j4 ∈ j4s -> jm ∈ seqZ 0 4 ->
  fcj_of D fl args bidx t j4 jm = zero3.
Proof.
  intros Ht Hj4 Hjm. unfold fcj_of. apply foldl_id. intros i Hi a.
  unfold fcj_step. by rewrite idle_evaluates.
Qed.

Lemma idle_fci (t : Thread) :
  t ∈ block_threads -> fci_buf (regs (run D fl args bidx t)) = zeros8.
Proof.
  intros Ht. rewrite fci_run by exact idle_masks.
  apply foldl_id. intros j4 Hj4 l. unfold fci_j4.
  apply foldl_id. intros jm Hjm l'. unfold fci_group.
  apply foldl_id. intros i Hi l''. unfold fci_step. by rewrite idle_evaluates.
Qed.

Lemma lane_sum_zeros (g : Z -> float) :
  (forall x, x ∈ lanes -> g x = f0) -> lane_sum (g <$> lanes) = f0.
Proof.
  intros Hg.
  rewrite (fmap_ext_elem g (fun x => if (x =? 0) && false then f0 else f0)).
  - by rewrite lane_sum_single.
  - intros x Hx. rewrite Hg by done. by rewrite andb_false_r.
Qed.

Lemma in_block_threads (ti tj : Z) :
  ti ∈ lanes -> tj ∈ lanes -> thread_at ti tj ∈ block_threads.
Proof.
  intros Hi Hj. unfold block_threads. apply list_elem_of_bind. exists tj.
  split; [|done]. apply list_elem_of_bind. exists ti. split; [|done].
  by apply list_elem_of_singleton.
Qed.

Lemma idle_fci_reduced (i c a : Z) :
  i ∈ seqZ 0 8 -> a ∈ lanes -> fci_reduced D fl args bidx i c a = f0.
Proof.
  intros Hi Ha. unfold fci_reduced. apply lane_sum_zeros. intros tj Htj.
  rewrite idle_fci by by apply in_block_threads.
  apply elem_of_seqZ in Hi.
  unfold zeros8. rewrite lookup_total_replicate_2 by lia.
  unfold component. by destruct (c =? 0), (c =? 1).
Qed.

Lemma processed_elem (e : Z * Z) :
  e ∈ processed args bidx -> e.1 ∈ j4s /\ e.2 ∈ seqZ 0 4.
Proof.
  unfold processed. intros H.
  apply list_elem_of_bind in H as (j4 & H & Hj4).
  apply list_elem_of_bind in H as (jm & H & Hjm).
  destruct (group_on args j4 jm); [|by apply elem_of_nil in H].
  apply list_elem_of_singleton in H as ->. done.
Qed.

Lemma idle_effects (e : Effect) :
  e ∈ nbnxn_kernel D fl mm args bidx -> adds_zero e.
Proof.
  unfold nbnxn_kernel. rewrite !elem_of_app. intros [H|[H|[H|[H|H]]]].
  - rewrite j_force_effects_processed in H by exact idle_masks.
    apply list_elem_of_bind in H as (p & H & Hp).
    apply processed_elem in Hp as [Hj4 Hjm].
    unfold j_effects_of in H.
    apply list_elem_of_bind in H as (tj & H & Htj).
    apply list_elem_of_bind in H as (c & H & Hc).
    apply list_elem_of_singleton in H as ->. cbn [adds_zero].
    unfold fcj_reduced. apply lane_sum_zeros. intros ti Hti.
    rewrite idle_fcj by (done || by apply in_block_threads).
    unfold component. by destruct (c =? 0), (c =? 1).
  - unfold i_force_effects in H.
    apply list_elem_of_bind in H as (a & H & Ha).
    apply list_elem_of_bind in H as (c & H & Hc).
    apply list_elem_of_bind in H as (i & H & Hi).
    apply list_elem_of_singleton in H as ->. cbn [adds_zero].
    change c_nbnxnGpuNumClusterPerSupercluster with 8 in Hi.
    by apply idle_fci_reduced.
  - unfold fshift_effects in H.
    destruct (calc_fshift D args bidx); [|by apply elem_of_nil in H].
    apply list_elem_of_bind in H as (a & H & Ha).
    apply list_elem_of_bind in H as (c & H & Hc).
    apply list_elem_of_singleton in H as ->. cbn [adds_zero].
    apply (foldl_id_inv (fun x => x = f0)); [done|].
    intros i Hi a' ->.
    change c_nbnxnGpuNumClusterPerSupercluster with 8 in Hi.
    by rewrite idle_fci_reduced.
  - unfold energy_effects in H. destruct (CALC_ENERGIES fl); [|by apply elem_of_nil in H].
    apply elem_of_cons in H as [->|H]; [done|].
    by apply list_elem_of_singleton in H as ->.
  - unfold imask_effects in H. by apply list_elem_of_fmap in H as (? & -> & _).
Qed.
End IdleBlock.

Section IdleBlockTheorem.
(** X9. A block none of whose threads evaluates a pair (for every
    cluster pair the mask bit is clear or the cutoff and exclusion check
    fails) adds only [+0] to the force and to the shift-force buffer, and the
    force it accumulates on every atom is [+0]. *)
Theorem idle_block_adds_no_force (D : DeviceLib) (fl : Flavor) (mm : bool)
        (args : KernelArgs) (bidx : Z) :
  idle_block D fl args bidx = true ->
  (forall e, e ∈ nbnxn_kernel D fl mm args bidx -> adds_zero e)
  /\ (forall atom c, force_after (nbnxn_kernel D fl mm args bidx) atom c = f0).
Proof.
  intros Hidle. split; [intros e; by apply idle_effects|].
  intros atom c. unfold force_after.
  apply (foldl_id_inv normal_zero); [done|].
  intros e He a Ha. apply (idle_effects D fl mm args bidx Hidle) in He.
  destruct e; simpl in *; try done. subst v.
  destruct (_ && _); [|done]. by rewrite fadd_0_r.
Qed.
End IdleBlockTheorem.

Section UniformClusters.
(** X10. Every thread of a block writes the forces of the same
    j-clusters: with 32-bit masks in the list, the atoms a thread writes the
    j-forces of are, in order, [cj * c_clSize + tidxj] for the cluster groups
    [processed] of the block, whatever the coordinates, the flavour and the
    outcome of the pruning test. *)
Theorem threads_process_same_j_clusters (D : DeviceLib) (fl : Flavor)
        (args : KernelArgs) (bidx : Z) (nb_any : Z -> Z -> Z -> bool) (t : Thread) :
  (forall j4, j4 ∈ seqZ (cij4_start args bidx) (cj4_length (nb_sci args bidx)) ->
              0 <= imask_of args j4 < 2 ^ 32) ->
  (j_out (thread_run D fl args bidx t nb_any)).*1
  = (fun e => cj_of args e.1 e.2 * c_clSize + tidxj t) <$> processed args bidx.
Proof.
  intros Hmasks.
  rewrite (proj1 (thread_run_forces D fl args bidx t nb_any Hmasks)).
  unfold processed. rewrite !fmap_bind_comm. apply bind_ext_elem. intros j4 _.
  unfold j4_out_of. rewrite !fmap_bind_comm. apply bind_ext_elem. intros jm _.
  unfold j_out_of. by destruct (group_on args j4 jm).
Qed.
End UniformClusters.

Section AccumulatorSlots.

Lemma land_63_range (bidx : Z) : 0 <= Z.land bidx 63 < 64.
Proof.
  change 63 with (Z.ones 6). rewrite Z.land_ones by lia.
  apply Z.mod_pos_bound. lia.
Qed.

Lemma energy_index_base_range (mm : bool) (bidx : Z) :
  0 <= energy_index_base mm bidx < c_clEnergyMemorySize mm
  /\ (mm = true -> 1 <= energy_index_base mm bidx).
Proof.
  unfold energy_index_base, c_clEnergyMemorySize, c_clEnergyMemoryMultiplier.
  destruct mm; [|split; [done|done]].
  pose proof (land_63_range bidx). change (64 - 1) with 63.
  unfold u32. rewrite Z.mod_small by lia. simpl. lia.
Qed.

Lemma atomic_add_cell_in_bounds (cells : list (option float)) (i : Z) (v : float) :
  0 <= i < len cells ->
  exists cells', atomic_add_cell (Some cells) i v = Done (Some cells')
                 /\ len cells' = len cells.
Proof.
  intros Hi. unfold atomic_add_cell.
  assert (H : (0 <=? i) && (i <? len cells) = true).
  { apply andb_true_iff. split; [apply Z.leb_le | apply Z.ltb_lt]; lia. }
  rewrite H. eexists. split; [done|]. unfold len. by rewrite length_alter.
Qed.

Lemma apply_energy_effects_in_bounds (es : list Effect) (n : Z) :
  (forall e i, e ∈ es -> effect_energy_index e = Some i -> 0 <= i < n) ->
  forall c1 c2 : list (option float),
    len c1 = n -> len c2 = n ->
    exists c1' c2', apply_energy_effects (Some c1, Some c2) es = Done (Some c1', Some c2')
                    /\ len c1' = n /\ len c2' = n.
Proof.
  induction es as [|e es IH]; intros Hes c1 c2 H1 H2; cbn [apply_energy_effects].
  - by exists c1, c2.
  - assert (Hrest : forall e' i, e' ∈ es -> effect_energy_index e' = Some i -> 0 <= i < n).
    { intros e' i He'. apply Hes. by right. }
    destruct e; cbn [apply_energy_effect fst snd]; try (by apply IH).
    + destruct (atomic_add_cell_in_bounds c1 index v) as (c1' & Hadd & Hl).
      { rewrite H1. apply (Hes (atomic_add_eLJ index v)); [left|done]. }
      rewrite Hadd. apply IH; [done|congruence|done].
    + destruct (atomic_add_cell_in_bounds c2 index v) as (c2' & Hadd & Hl).
      { rewrite H2. apply (Hes (atomic_add_eElec index v)); [left|done]. }
      rewrite Hadd. apply IH; [done|done|congruence].
Qed.

(** X11. On the accumulators [initAtomdataFirst] allocates, the energy
    additions of every block of the kernel land inside the buffers: applying
    them succeeds, and both buffers keep their [c_clEnergyMemorySize]
    cells. *)
Theorem energy_additions_stay_in_bounds
        (D : DeviceLib) (fl : Flavor) (mm : bool) (args : KernelArgs) (bidx : Z)
        (nsv : Z) (a0 a : NBAtomDataGpu) (ntypes : Z) :
  initAtomdataFirst nsv mm a0 ntypes = Done a ->
  exists c1 c2 c1' c2',
    eLJ a = Some c1 /\ eElec a = Some c2
    /\ apply_energy_effects (eLJ a, eElec a) (nbnxn_kernel D fl mm args bidx)
       = Done (Some c1', Some c2')
    /\ len c1' = len c1 /\ len c2' = len c2
    /\ len c1 = c_clEnergyMemorySize mm /\ len c2 = c_clEnergyMemorySize mm.
Proof.
  unfold initAtomdataFirst. intros H.
  assert (Hsize : 0 < c_clEnergyMemorySize mm) by by destruct mm.
  assert (Hclear : clearDeviceBufferAsync f0
                     (allocateDeviceBuffer (c_clEnergyMemorySize mm)) 0
                     (c_clEnergyMemorySize mm)
                   = Done (Some (replicate (Z.to_nat (c_clEnergyMemorySize mm)) (Some f0)))).
  { by destruct mm. }
  rewrite Hclear in H.
  destruct (clearDeviceBufferAsync zero_Float3 _ 0 _) as [fs| |]; try done.
  simpl in H. injection H as <-. cbn [eLJ eElec].
  set (c := replicate (Z.to_nat (c_clEnergyMemorySize mm)) (Some f0)).
  assert (Hlen : len c = c_clEnergyMemorySize mm).
  { unfold len, c. rewrite length_replicate. lia. }
  destruct (apply_energy_effects_in_bounds (nbnxn_kernel D fl mm args bidx)
              (c_clEnergyMemorySize mm)) with (c1 := c) (c2 := c)
    as (c1' & c2' & Happ & Hl1 & Hl2); [|done|done|].
  - intros e i He Hi.
    rewrite (kernel_energy_effects_slot D fl mm args bidx e i He Hi).
    apply energy_index_base_range.
  - exists c, c, c1', c2'. split; [done|]. split; [done|]. split; [exact Happ|].
    rewrite Hl1, Hl2, Hlen. done.
Qed.

Lemma shift_index_base_range (D : DeviceLib) (bidx : Z) :
  0 < c_numShiftVectors D -> c_numShiftVectors D * 65 < 2 ^ 32 ->
  c_numShiftVectors D <= shift_index_base D true bidx <= c_numShiftVectors D * 64.
Proof.
  intros Hpos Hsmall. unfold shift_index_base, c_clShiftMemoryMultiplier.
  pose proof (land_63_range bidx) as HL. change (64 - 1) with 63.
  set (N := c_numShiftVectors D) in *. set (L := Z.land bidx 63) in *.
  assert (H1 : N * 1 <= N * (1 + L)) by (apply Z.mul_le_mono_nonneg_l; lia).
  assert (H2 : N * (1 + L) <= N * 64) by (apply Z.mul_le_mono_nonneg_l; lia).
  unfold u32. rewrite Z.mod_small by lia. lia.
Qed.

(** X12. The kernel adds to the shift-force buffer only when
    [bCalcFshift] is set and the shift of the super-cluster is not the
    central one, and then at index [shift + shift_index_base]; with the
    memory multiplier this index is at or above [c_numShiftVectors] and inside
    the [c_clShiftMemorySize * c_numShiftVectors] cells of the buffer. *)
Theorem shift_force_additions
        (D : DeviceLib) (fl : Flavor) (mm : bool) (args : KernelArgs) (bidx : Z)
        (idx c : Z) (v : float) :
  atomic_add_fShift idx c v ∈ nbnxn_kernel D fl mm args bidx ->
  bCalcFshift args = true
  /\ shift (nb_sci args bidx) <> c_centralShiftIndex D
  /\ idx = shift (nb_sci args bidx) + shift_index_base D mm bidx
  /\ (mm = true -> 0 < c_numShiftVectors D -> c_numShiftVectors D * 65 < 2 ^ 32 ->
      0 <= shift (nb_sci args bidx) < c_numShiftVectors D ->
      c_numShiftVectors D <= idx < c_clShiftMemorySize mm * c_numShiftVectors D).
Proof.
  unfold nbnxn_kernel. rewrite !elem_of_app. intros [H|[H|[H|[H|H]]]].
  - unfold j_force_effects in H.
    repeat (apply list_elem_of_bind in H as (? & H & _)).
    by apply list_elem_of_singleton in H.
  - unfold i_force_effects in H.
    repeat (apply list_elem_of_bind in H as (? & H & _)).
    by apply list_elem_of_singleton in H.
  - unfold fshift_effects in H.
    destruct (calc_fshift D args bidx) eqn:Hcalc; [|by apply elem_of_nil in H].
    unfold calc_fshift in Hcalc. apply andb_true_iff in Hcalc as [Hb Hs].
    apply negb_true_iff, Z.eqb_neq in Hs.
    apply list_elem_of_bind in H as (a & H & _).
    apply list_elem_of_bind in H as (c' & H & _).
    apply list_elem_of_singleton in H.
    assert (Hidx : idx = shift (nb_sci args bidx) + shift_index_base D mm bidx).
    { exact (f_equal (fun e => match e with atomic_add_fShift i _ _ => i | _ => 0 end) H). }
    clear H. subst idx.
    split; [done|]. split; [done|]. split; [done|].
    intros -> Hpos Hsmall Hshift.
    pose proof (shift_index_base_range D bidx Hpos Hsmall).
    change (c_clShiftMemorySize true) with 65. lia.
  - unfold energy_effects in H. destruct (CALC_ENERGIES fl); [|by apply elem_of_nil in H].
    apply elem_of_cons in H as [H|H]; [done|].
    by apply list_elem_of_singleton in H.
  - unfold imask_effects in H. by apply list_elem_of_fmap in H as (? & ? & _).
Qed.
End AccumulatorSlots.

Section Displacement.

Lemma fadd_comm (x y : float) : (x + y)%f32 = (y + x)%f32.
Proof.
  destruct x as [[]|[]| |s m e], y as [[]|[]| |s' m' e']; try done.
  unfold fadd, SFadd. by rewrite Z.min_comm, Z.add_comm.
Qed.

Lemma fadd_fneg_l (a b : float) : (- a + b)%f32 = (b - a)%f32.
Proof.
  destruct a as [[]|[]| |s m e], b as [[]|[]| |s' m' e']; try done.
  unfold fadd, fsub, fneg, SFadd, SFsub, SFopp.
  rewrite (Z.min_comm e e'). f_equal.
  destruct s, s'; cbn [negb cond_Zopp]; lia.
Qed.

(** X13. The vector [rv] of a pair is the position of the j-atom minus
    the shifted position of the i-atom: the preload stores
    [-(xq[ai] + shiftVec[shift])] at the slot the thread reads for i-cluster
    [i], so [rv = xj - (xq[ai] + shiftVec[shift])] in each component. *)
Theorem pair_rv_is_displacement (args : KernelArgs) (bidx : Z) (t : Thread)
        (i : Z) (xj : fast_float3) :
  0 <= i -> 0 <= tidxi t < 8 ->
  let xi := k_xq args (ai_of args bidx t i) in
  let sv := k_shiftVec args (shift (nb_sci args bidx)) in
  let rv := pair_rv t (preload args bidx) i xj in
  ff_x rv = (ff_x xj - (f4_x xi + f3_x sv))%f32
  /\ ff_y rv = (ff_y xj - (f4_y xi + f3_y sv))%f32
  /\ ff_z rv = (ff_z xj - (f4_z xi + f3_z sv))%f32.
Proof.
  intros Hi Ht xi sv rv. subst rv. unfold pair_rv, preload. cbn [xqib].
  unfold preload_xq.
  assert (Hdiv : (i * c_clSize + tidxi t) / c_clSize = i).
  { unfold c_clSize. rewrite Z.add_comm, Z.div_add by lia.
    rewrite Z.div_small by lia. lia. }
  assert (Hmod : (i * c_clSize + tidxi t) mod c_clSize = tidxi t).
  { unfold c_clSize. rewrite Z.add_comm, Z.mod_add by lia.
    apply Z.mod_small. lia. }
  rewrite Hdiv, Hmod. fold (ai_of args bidx t i). fold xi. fold sv.
  cbn. rewrite !fadd_fneg_l. done.
Qed.
End Displacement.

(* ===================================================================== *)
(** * Further properties: the data-management layer                      *)
(* ===================================================================== *)

Section KernelTypeFacts.

(** X14. When [nbnxn_gpu_pick_ewald_kernel_type] returns, it returns
    one of the four Ewald kernel types; the twin cut-off variant exactly when
    the two cut-offs differ or GMX_GPU_NB_EWALD_TWINCUT is set; and
    [gpu_is_kernel_ewald_analytical] then answers as the selection went: with
    HIP exactly when GMX_GPU_NB_ANA_EWALD is set; with CUDA when it is set, or
    GMX_GPU_NB_TAB_EWALD is not set and the compute capability is neither 7.0
    nor 8.0; with another backend exactly when GMX_GPU_NB_TAB_EWALD is not
    set. *)
Theorem ewald_kernel_choice (backend : GpuBackend) (env : Environment)
        (ic : interaction_const_t) (dev : DeviceInformation) (nb : NbnxmGpu)
        (e : ElecType.t) :
  nbnxn_gpu_pick_ewald_kernel_type backend env ic dev = Done e ->
  let ana := getenv_set env "GMX_GPU_NB_ANA_EWALD" in
  let tab := getenv_set env "GMX_GPU_NB_TAB_EWALD" in
  (e = ElecType.EwaldAna \/ e = ElecType.EwaldTab
   \/ e = ElecType.EwaldAnaTwin \/ e = ElecType.EwaldTabTwin)
  /\ is_twin_cutoff e
     = fne (rcoulomb ic) (rvdw ic) || getenv_set env "GMX_GPU_NB_EWALD_TWINCUT"
  /\ gpu_is_kernel_ewald_analytical (set_elecType nb e)
     = match backend with
       | GMX_GPU_HIP => ana
       | GMX_GPU_OTHER => negb tab
       | GMX_GPU_CUDA =>
           ana || negb tab
                  && negb ((prop_major dev =? 7) && (prop_minor dev =? 0)
                           || (prop_major dev =? 8) && (prop_minor dev =? 0))
       end.
Proof.
  unfold nbnxn_gpu_pick_ewald_kernel_type, gpu_is_kernel_ewald_analytical. cbn [elecType set_elecType].
  destruct (getenv_set env "GMX_GPU_NB_ANA_EWALD") eqn:Ha;
    destruct (getenv_set env "GMX_GPU_NB_TAB_EWALD") eqn:Hb; cbn [andb]; [done|..];
    destruct (fne (rcoulomb ic) (rvdw ic));
    destruct (getenv_set env "GMX_GPU_NB_EWALD_TWINCUT"); cbn [negb andb orb];
    destruct backend; cbn [negb];
    try (destruct ((prop_major dev =? 7) && (prop_minor dev =? 0)
                   || (prop_major dev =? 8) && (prop_minor dev =? 0)); cbn [negb]);
    intros [= <-]; cbn; auto 10.
Qed.

(** X15. The kernel type [nbnxmGpuPickVdwKernelType] returns agrees
    with the combination rule of the atom data; an Ewald type is returned
    exactly for [VanDerWaalsType::Pme], and [EwaldGeom] exactly when the
    LJ-PME combination rule is [LongRangeVdW::Geom]. *)
Theorem vdw_kernel_matches_combination_rule (ic : interaction_const_types)
        (rule : LJCombinationRule.t) (v : VdwType.t) :
  nbnxmGpuPickVdwKernelType ic rule = Done v ->
  vdw_rule_consistent v rule
  /\ (vdwtype ic = VanDerWaalsType.Pme <-> v = VdwType.EwaldGeom \/ v = VdwType.EwaldLB)
  /\ (v = VdwType.EwaldGeom <-> vdwtype ic = VanDerWaalsType.Pme
                                /\ ljpme_comb_rule ic = LongRangeVdW.Geom).
Proof.
  unfold nbnxmGpuPickVdwKernelType.
  destruct (vdwtype ic) eqn:Hv; [| |done].
  - destruct (vdw_modifier ic); [| | | |done];
      try (destruct rule; [| | |done]); intros [= <-]; cbn; intuition congruence.
  - destruct (ljpme_comb_rule ic) eqn:Hl.
    + destruct rule; try done. intros [= <-]. cbn. intuition congruence.
    + destruct rule; try done. intros [= <-]. cbn. intuition congruence.
Qed.

(** X16. For plain cut-off and for reaction-field electrostatics
    [nbnxmGpuPickElectrostaticsKernelType] does not depend on the
    environment: it returns [Cut] or [RF], also where the two Ewald overrides
    are both set. *)
Theorem environment_matters_for_ewald_only
        (EEL_RF EEL_PME : CoulombInteractionType.t -> bool)
        (backend : GpuBackend) (env env' : Environment)
        (ic : interaction_const_types) (dev : DeviceInformation) :
  eeltype ic = CoulombInteractionType.Cut \/ EEL_RF (eeltype ic) = true ->
  nbnxmGpuPickElectrostaticsKernelType EEL_RF EEL_PME backend env ic dev
  = nbnxmGpuPickElectrostaticsKernelType EEL_RF EEL_PME backend env' ic dev
  /\ (nbnxmGpuPickElectrostaticsKernelType EEL_RF EEL_PME backend env ic dev
      = Done ElecType.Cut
      \/ nbnxmGpuPickElectrostaticsKernelType EEL_RF EEL_PME backend env ic dev
         = Done ElecType.RF).
Proof.
  unfold nbnxmGpuPickElectrostaticsKernelType.
  intros [-> | Hrf]; [by auto|].
  destruct (eeltype ic); [by auto| |]; rewrite Hrf; by auto.
Qed.
End KernelTypeFacts.

Section BufferRangeFacts.
Context {A : Type}.

Lemma copyTo_range (buf buf' : DeviceBuffer A) (host : list A) (start n : Z) :
  copyToDeviceBuffer buf host start n = Done buf' ->
  n <> 0 ->
  exists cells cells',
    buf = Some cells /\ buf' = Some cells'
    /\ length cells' = length cells
    /\ 0 <= start /\ 0 < n /\ start + n <= len cells /\ n <= len host
    /\ (forall k : nat, start <= Z.of_nat k < start + n ->
                        cells' !! k = Some <$> (host !! (k - Z.to_nat start)%nat))
    /\ (forall k : nat, Z.of_nat k < start \/ start + n <= Z.of_nat k ->
                        cells' !! k = cells !! k).
Proof.
  unfold copyToDeviceBuffer. intros H Hn.
  apply Z.eqb_neq in Hn. rewrite Hn in H.
  destruct buf as [cells|]; [|done].
  destruct (in_range cells start n && (n <=? Z.of_nat (length host))) eqn:Hr; [|done].
  injection H as <-.
  unfold in_range in Hr. rewrite !andb_true_iff, !Z.leb_le in Hr.
  destruct Hr as [[[H0 Hn0] Hle] Hh]. apply Z.eqb_neq in Hn.
  assert (Hl : length (take (Z.to_nat n) host) = Z.to_nat n).
  { rewrite length_take. lia. }
  exists cells, (write_range cells (Z.to_nat start) (take (Z.to_nat n) host)).
  split; [done|]. split; [done|]. split.
  { apply write_range_length. lia. }
  unfold len. repeat (split; [lia|]). split.
  - intros k Hk. rewrite write_range_lookup_in by lia.
    rewrite lookup_take_lt by lia. done.
  - intros k Hk. apply write_range_lookup_out; lia.
Qed.

Lemma copyFrom_range (host host' : list (option A)) (hstart : Z)
      (buf : DeviceBuffer A) (start n : Z) :
  copyFromDeviceBuffer host hstart buf start n = Done host' ->
  n <> 0 ->
  exists cells,
    buf = Some cells
    /\ length host' = length host
    /\ 0 <= start /\ 0 <= hstart /\ 0 < n
    /\ start + n <= len cells /\ hstart + n <= len host
    /\ (forall k : nat, hstart <= Z.of_nat k < hstart + n ->
                        host' !! k = cells !! (Z.to_nat start + (k - Z.to_nat hstart))%nat)
    /\ (forall k : nat, Z.of_nat k < hstart \/ hstart + n <= Z.of_nat k ->
                        host' !! k = host !! k).
Proof.
  unfold copyFromDeviceBuffer. intros H Hn.
  apply Z.eqb_neq in Hn. rewrite Hn in H.
  destruct buf as [cells|]; [|done].
  destruct (in_range cells start n && in_range host hstart n) eqn:Hr; [|done].
  injection H as <-.
  unfold in_range in Hr. rewrite !andb_true_iff, !Z.leb_le in Hr.
  destruct Hr as [[[H0 Hn0] Hle] [[Hh0 _] Hhle]]. apply Z.eqb_neq in Hn.
  assert (Hl : length (take (Z.to_nat n) (drop (Z.to_nat start) cells)) = Z.to_nat n).
  { rewrite length_take, length_drop. lia. }
  exists cells. split; [done|]. split.
  { rewrite !length_app, length_take, Hl, length_drop. lia. }
  unfold len. repeat (split; [lia|]). split.
  - intros k Hk.
    rewrite lookup_app_r; rewrite length_take; [|lia].
    rewrite lookup_app_l by lia.
    rewrite lookup_take_lt by lia. rewrite lookup_drop. f_equal. lia.
  - intros k [Hk|Hk].
    + rewrite lookup_app_l; [|rewrite length_take; lia].
      by rewrite lookup_take_lt by lia.
    + rewrite lookup_app_r; rewrite length_take; [|lia].
      rewrite lookup_app_r; rewrite Hl; [|lia].
      rewrite lookup_drop. f_equal. lia.
Qed.

Lemma clear_range (zero : A) (buf buf' : DeviceBuffer A) (n : Z) :
  clearDeviceBufferAsync zero buf 0 n = Done buf' ->
  n <> 0 ->
  exists cells cells',
    buf = Some cells /\ buf' = Some cells'
    /\ 0 < n <= len cells
    /\ length cells' = length cells
    /\ take (Z.to_nat n) cells' = replicate (Z.to_nat n) (Some zero)
    /\ drop (Z.to_nat n) cells' = drop (Z.to_nat n) cells.
Proof.
  unfold clearDeviceBufferAsync. intros H Hn.
  apply Z.eqb_neq in Hn. rewrite Hn in H.
  destruct buf as [cells|]; [|done].
  destruct (in_range cells 0 n) eqn:Hr; [|done].
  injection H as <-.
  unfold in_range in Hr. rewrite !andb_true_iff, !Z.leb_le in Hr.
  destruct Hr as [[_ Hn0] Hle]. apply Z.eqb_neq in Hn.
  exists cells, (write_range cells (Z.to_nat 0) (replicate (Z.to_nat n) zero)).
  split; [done|]. split; [done|]. unfold len. split; [lia|].
  split; [apply write_range_length; rewrite length_replicate; lia|].
  unfold write_range. change (Z.to_nat 0) with 0%nat.
  rewrite take_0, app_nil_l, Nat.add_0_l, fmap_replicate, length_replicate. split.
  - rewrite take_app_length'; [done | by rewrite length_replicate].
  - rewrite drop_app_length'; [done | by rewrite length_replicate].
Qed.
End BufferRangeFacts.

Section UploadFacts.

(** X17. After a successful [gpu_upload_shiftvec] the shift vectors
    are marked as uploaded.  With a static box and the vectors uploaded
    before, the call changes nothing; otherwise the first
    [c_numShiftVectors] cells of the device buffer hold the host vectors.
    Any later call with a static box changes nothing. *)
Theorem shift_vectors_are_uploaded_once (nsv : Z) (nb nb1 : NbnxmGpu)
        (h1 : nbnxn_atomdata_xq) :
  gpu_upload_shiftvec nsv nb h1 = Done nb1 ->
  shiftVecUploaded (atdat nb1) = true
  /\ (bDynamicBox h1 = false -> shiftVecUploaded (atdat nb) = true -> nb1 = nb)
  /\ (bDynamicBox h1 = true \/ shiftVecUploaded (atdat nb) = false ->
      device_prefix (shiftVec (atdat nb1)) nsv
      = Some <$> take (Z.to_nat nsv) (shift_vec h1))
  /\ (forall h2, bDynamicBox h2 = false -> gpu_upload_shiftvec nsv nb1 h2 = Done nb1).
Proof.
  unfold gpu_upload_shiftvec. intros H.
  destruct (bDynamicBox h1 || negb (shiftVecUploaded (atdat nb))) eqn:Hup.
  - destruct (copyToDeviceBuffer _ _ 0 nsv) as [sv| |] eqn:Hcp; try done.
    cbn in H. injection H as <-. cbn.
    split; [done|]. split.
    { intros Hd Hu. by rewrite Hd, Hu in Hup. }
    split; [|by intros h2 ->].
    intros _. destruct (Z.eq_dec nsv 0) as [->|Hn].
    + simpl. unfold device_prefix. by destruct sv.
    + destruct (copyTo_range _ _ _ _ _ Hcp Hn)
        as (cells & cells' & Hb & -> & Hlen & _ & Hpos & Hle & Hh & _).
      rewrite Hb in Hcp.
      destruct (copy_params cells (shift_vec h1) nsv ltac:(lia) ltac:(lia) Hh)
        as (cells2 & Hcp2 & _ & Htk & _).
      rewrite Hcp2 in Hcp. injection Hcp as ->. exact Htk.
  - injection H as <-.
    apply orb_false_iff in Hup as [Hd Hu]. apply negb_false_iff in Hu.
    split; [done|]. split; [done|]. split.
    + intros [Hd' | Hu']; congruence.
    + intros h2 ->. by rewrite Hu.
Qed.

(** X18. [gpu_copy_xq_to_gpu].  For non-local atoms without non-local
    work only [haveFreshList] of the pair list is reset and the atom data are
    kept.  Otherwise the pair lists are kept, the cells of the atom range
    receive the host coordinates of the same indices, and all other cells of
    the device buffer are kept. *)
Theorem xq_upload_copies_range
        (atl : AtomLocality.t -> InteractionLocality.t)
        (range : NBAtomDataGpu -> AtomLocality.t -> Z * Z)
        (nb nb' : NbnxmGpu) (nbatom : nbnxn_atomdata_xq) (loc : AtomLocality.t) :
  gpu_copy_xq_to_gpu atl range nb nbatom loc = Done nb' ->
  (transfer_skipped atl nb loc = true ->
   atdat nb' = atdat nb
   /\ exists pl, ea_get (plist nb) (atl loc) = Some pl
                 /\ ea_get (plist nb') (atl loc) = Some (set_haveFreshList pl false))
  /\ (transfer_skipped atl nb loc = false ->
      plist nb' = plist nb
      /\ (forall k : nat,
             (range (atdat nb) loc).1 <= Z.of_nat k
             < (range (atdat nb) loc).1 + (range (atdat nb) loc).2 ->
             device_cell (xq (atdat nb')) k = Some <$> (x_xyzq nbatom !! k))
      /\ (forall k : nat,
             Z.of_nat k < (range (atdat nb) loc).1
             \/ (range (atdat nb) loc).1 + (range (atdat nb) loc).2 <= Z.of_nat k ->
             device_cell (xq (atdat nb')) k = device_cell (xq (atdat nb)) k)).
Proof.
  unfold gpu_copy_xq_to_gpu, transfer_skipped. intros H.
  destruct (locality_eqb (atl loc) InteractionLocality.NonLocal
            && negb (haveGpuShortRangeWork nb (atl loc))) eqn:Hskip.
  - split; [|done]. intros _.
    destruct (ea_get (plist nb) (atl loc)) as [pl|] eqn:Hpl; [|done].
    injection H as <-. cbn. split; [done|]. exists pl. split; [done|].
    by destruct (atl loc).
  - split; [done|]. intros _.
    destruct (range (atdat nb) loc) as [b s] eqn:Hrange. cbn [fst snd].
    destruct (copyToDeviceBuffer _ _ b s) as [xq'| |] eqn:Hcp; try done.
    cbn in H. injection H as <-. cbn. split; [done|].
    destruct (Z.eq_dec s 0) as [->|Hs].
    + unfold copyToDeviceBuffer in Hcp. simpl in Hcp. injection Hcp as <-.
      split; [intros k Hk; lia | done].
    + destruct (copyTo_range _ _ _ _ _ Hcp Hs)
        as (cells & cells' & Hb & -> & Hlen & Hb0 & Hpos & Hle & Hh & Hin & Hout).
      rewrite Hb. cbn [device_cell]. split.
      * intros k Hk. rewrite Hin by done. rewrite lookup_drop. do 2 f_equal. lia.
      * intros k Hk. by apply Hout.
Qed.
End UploadFacts.

Section ClearFacts.

Lemma clear_prefix {A : Type} (zero : A) (cells : list (option A)) (n : Z) :
  0 <= n <= len cells ->
  exists cells',
    clearDeviceBufferAsync zero (Some cells) 0 n = Done (Some cells')
    /\ len cells' = len cells
    /\ take (Z.to_nat n) cells' = replicate (Z.to_nat n) (Some zero)
    /\ drop (Z.to_nat n) cells' = drop (Z.to_nat n) cells.
Proof.
  intros Hn. destruct (Z.eq_dec n 0) as [->|Hne].
  - exists cells. by repeat split.
  - destruct (clearDeviceBufferAsync zero (Some cells) 0 n) as [buf'| |] eqn:Hc.
    + destruct (clear_range zero _ _ _ Hc Hne)
        as (c0 & cells' & [= <-] & -> & _ & Hlen & Htk & Hdr).
      exists cells'. unfold len. rewrite Hlen. done.
    + unfold clearDeviceBufferAsync, in_range in Hc.
      apply Z.eqb_neq in Hne. rewrite Hne in Hc.
      assert (Hr : (0 <=? 0) && (0 <=? n) && (0 + n <=? Z.of_nat (length cells)) = true).
      { unfold len in Hn. rewrite !andb_true_iff, !Z.leb_le. lia. }
      by rewrite Hr in Hc.
    + unfold clearDeviceBufferAsync, in_range in Hc.
      apply Z.eqb_neq in Hne. rewrite Hne in Hc.
      assert (Hr : (0 <=? 0) && (0 <=? n) && (0 + n <=? Z.of_nat (length cells)) = true).
      { unfold len in Hn. rewrite !andb_true_iff, !Z.leb_le. lia. }
      by rewrite Hr in Hc.
Qed.

Lemma clear_all {A : Type} (zero : A) (buf : DeviceBuffer A) (n : Z) :
  0 <= n -> has_capacity buf n ->
  clearDeviceBufferAsync zero buf 0 n = Done (Some (replicate (Z.to_nat n) (Some zero))).
Proof.
  intros Hn (cells & -> & Hlen).
  destruct (clear_prefix zero cells n ltac:(lia)) as (cells' & -> & Hl & Htk & _).
  do 2 f_equal. rewrite <- Htk. symmetry. apply take_ge. unfold len in *. lia.
Qed.

(** The handle [gpu_clear_outputs] returns on allocated outputs. *)
Lemma gpu_clear_outputs_result (nsv : Z) (mm : bool) (nb : NbnxmGpu) (cv : bool) :
  outputs_allocated nsv mm (atdat nb) ->
  let a := atdat nb in
  exists cells cells',
    f a = Some cells
    /\ len cells' = len cells
    /\ take (Z.to_nat (numAtoms a)) cells'
       = replicate (Z.to_nat (numAtoms a)) (Some zero_Float3)
    /\ drop (Z.to_nat (numAtoms a)) cells' = drop (Z.to_nat (numAtoms a)) cells
    /\ gpu_clear_outputs nsv mm nb cv
       = Done (set_atdat nb
                 {| numTypes := numTypes a;
                    numAtoms := numAtoms a;
                    numAtomsLocal := numAtomsLocal a;
                    numAtomsAlloc := numAtomsAlloc a;
                    xq := xq a;
                    f := Some cells';
                    atomTypes := atomTypes a;
                    ljComb := ljComb a;
                    shiftVec := shiftVec a;
                    shiftVecUploaded := shiftVecUploaded a;
                    fShift := if cv
                              then Some (replicate (Z.to_nat (c_clShiftMemorySize mm * nsv))
                                                   (Some zero_Float3))
                              else fShift a;
                    eLJ := if cv
                           then Some (replicate (Z.to_nat (c_clEnergyMemorySize mm)) (Some f0))
                           else eLJ a;
                    eElec := if cv
                             then Some (replicate (Z.to_nat (c_clEnergyMemorySize mm))
                                                  (Some f0))
                             else eElec a |}).
Proof.
  intros (Hnsv & Hn & (cells & Hf & Hcap) & Hfs & Hlj & Hel) a. subst a.
  unfold gpu_clear_outputs. rewrite Hf.
  destruct (clear_prefix zero_Float3 cells (numAtoms (atdat nb)) ltac:(lia))
    as (cells' & -> & Hlen & Htk & Hdr).
  cbn [mbind outcome_bind bind].
  exists cells, cells'. do 4 (split; [done|]).
  assert (Hsz : 0 <= c_clShiftMemorySize mm * nsv).
  { destruct mm; [change (c_clShiftMemorySize true) with 65
                 | change (c_clShiftMemorySize false) with 1]; lia. }
  assert (Hez : 0 <= c_clEnergyMemorySize mm) by by destruct mm.
  destruct cv; [|done].
  by rewrite (clear_all zero_Float3 _ _ Hsz Hfs), (clear_all f0 _ _ Hez Hlj),
    (clear_all f0 _ _ Hez Hel).
Qed.

Lemma has_capacity_replicate {A : Type} (x : option A) (n : Z) :
  0 <= n -> has_capacity (Some (replicate (Z.to_nat n) x)) n.
Proof.
  intros Hn. eexists. split; [done|]. unfold len. rewrite length_replicate. lia.
Qed.

(** X19. On allocated outputs [gpu_clear_outputs] succeeds.  It zeroes
    the forces of the [numAtoms] atoms and keeps the cells after them; with
    [computeVirial] the shift forces and both energies are zero over their
    whole size, without it they are kept; the coordinates and the atom count
    are kept, and the outputs stay allocated. *)
Theorem gpu_clear_outputs_zeroes (nsv : Z) (mm : bool) (nb : NbnxmGpu) (cv : bool) :
  outputs_allocated nsv mm (atdat nb) ->
  exists nb',
    gpu_clear_outputs nsv mm nb cv = Done nb'
    /\ device_prefix (f (atdat nb')) (numAtoms (atdat nb))
       = replicate (Z.to_nat (numAtoms (atdat nb))) (Some zero_Float3)
    /\ device_suffix (f (atdat nb')) (numAtoms (atdat nb))
       = device_suffix (f (atdat nb)) (numAtoms (atdat nb))
    /\ (if cv
        then fShift (atdat nb')
             = Some (replicate (Z.to_nat (c_clShiftMemorySize mm * nsv)) (Some zero_Float3))
             /\ eLJ (atdat nb')
                = Some (replicate (Z.to_nat (c_clEnergyMemorySize mm)) (Some f0))
             /\ eElec (atdat nb')
                = Some (replicate (Z.to_nat (c_clEnergyMemorySize mm)) (Some f0))
        else fShift (atdat nb') = fShift (atdat nb)
             /\ eLJ (atdat nb') = eLJ (atdat nb)
             /\ eElec (atdat nb') = eElec (atdat nb))
    /\ xq (atdat nb') = xq (atdat nb)
    /\ numAtoms (atdat nb') = numAtoms (atdat nb)
    /\ outputs_allocated nsv mm (atdat nb').
Proof.
  intros Hout.
  destruct (gpu_clear_outputs_result nsv mm nb cv Hout)
    as (cells & cells' & Hf & Hlen & Htk & Hdr & Hrun).
  destruct Hout as (Hnsv & Hn & (cells0 & Hf0 & Hcap) & Hfs & Hlj & Hel).
  rewrite Hf in Hf0. injection Hf0 as <-.
  eexists. split; [exact Hrun|]. cbn. rewrite Hf. cbn.
  split; [done|]. split; [done|]. split; [by destruct cv|].
  split; [done|]. split; [done|].
  assert (Hsz : 0 <= c_clShiftMemorySize mm * nsv).
  { destruct mm; [change (c_clShiftMemorySize true) with 65
                 | change (c_clShiftMemorySize false) with 1]; lia. }
  assert (Hez : 0 <= c_clEnergyMemorySize mm) by by destruct mm.
  unfold outputs_allocated. cbn.
  split; [done|]. split; [done|].
  split; [exists cells'; split; [done|lia]|].
  destruct cv; [|done].
  split; [|split]; by apply has_capacity_replicate.
Qed.
End ClearFacts.

Section DownloadFacts.
Variable atl : AtomLocality.t -> InteractionLocality.t.
Variable range : NBAtomDataGpu -> AtomLocality.t -> Z * Z.
Variable nsv : Z.

(** X20. After a successful [gpu_launch_cpyback],
    [bNonLocalStreamDoneMarked] is set exactly for the non-local locality
    with work; atom data, pair lists and work flags are kept; the staging
    area is kept for the non-local locality, its energies without
    [computeEnergy] and its shift forces without [computeVirial]; and the
    host forces are returned as they were when the buffer operations run on
    the GPU or the transfer is skipped. *)
Theorem copyback_marks_the_non_local_stream
        (nb nb' : NbnxmGpu) (nbatom : nbnxn_atomdata_t) (sw : StepWorkload)
        (loc : AtomLocality.t) (out' : list (option Float3)) :
  gpu_launch_cpyback atl range nsv nb nbatom sw loc = Done (nb', out') ->
  bNonLocalStreamDoneMarked nb'
  = locality_eqb (atl loc) InteractionLocality.NonLocal
    && haveGpuShortRangeWork nb (atl loc)
  /\ atdat nb' = atdat nb /\ plist nb' = plist nb /\ haveWork nb' = haveWork nb
  /\ (atl loc = InteractionLocality.NonLocal -> nbst nb' = nbst nb)
  /\ (computeEnergy sw = false ->
      st_eLJ (nbst nb') = st_eLJ (nbst nb) /\ st_eElec (nbst nb') = st_eElec (nbst nb))
  /\ (computeVirial sw = false -> st_fShift (nbst nb') = st_fShift (nbst nb))
  /\ (useGpuFBufferOps sw = true \/ transfer_skipped atl nb loc = true ->
      out' = out_f nbatom).
Proof.
  unfold gpu_launch_cpyback, transfer_skipped. intros H.
  destruct (atl loc) eqn:Hloc;
    destruct (haveGpuShortRangeWork nb _) eqn:Hw;
    destruct (range (atdat nb) loc) as [b s];
    destruct (useGpuFBufferOps sw) eqn:Hfb;
    destruct (computeVirial sw) eqn:Hv;
    destruct (computeEnergy sw) eqn:He;
    destruct (bNonLocalStreamDoneMarked nb) eqn:Hm;
    cbn [locality_eqb andb negb mbind outcome_bind bind] in H;
    repeat match type of H with
           | context [copyFromDeviceBuffer ?a ?b ?c ?d ?e] =>
               destruct (copyFromDeviceBuffer a b c d e);
               cbn [mbind outcome_bind bind] in H; try done
           end;
    injection H as <- <-; cbn; rewrite ?Hm; intuition congruence.
Qed.

(** X21. When the copy-back is not skipped and the buffer operations
    run on the CPU, the host force array keeps its length, receives at the
    indices of the atom range the cells of the device buffer at the same
    indices (which exist), and keeps every entry outside the range. *)
Theorem forces_are_downloaded_in_range
        (nb nb' : NbnxmGpu) (nbatom : nbnxn_atomdata_t) (sw : StepWorkload)
        (loc : AtomLocality.t) (out' : list (option Float3)) :
  gpu_launch_cpyback atl range nsv nb nbatom sw loc = Done (nb', out') ->
  transfer_skipped atl nb loc = false ->
  useGpuFBufferOps sw = false ->
  length out' = length (out_f nbatom)
  /\ (forall k : nat,
         (range (atdat nb) loc).1 <= Z.of_nat k
         < (range (atdat nb) loc).1 + (range (atdat nb) loc).2 ->
         out' !! k = device_cell (f (atdat nb)) k
         /\ is_Some (device_cell (f (atdat nb)) k))
  /\ (forall k : nat,
         Z.of_nat k < (range (atdat nb) loc).1
         \/ (range (atdat nb) loc).1 + (range (atdat nb) loc).2 <= Z.of_nat k ->
         out' !! k = out_f nbatom !! k).
Proof.
  unfold gpu_launch_cpyback, transfer_skipped. intros H Hskip Hfb.
  rewrite Hskip, Hfb in H. cbn [negb] in H.
  destruct (range (atdat nb) loc) as [b s]. cbn [fst snd].
  destruct (copyFromDeviceBuffer (out_f nbatom) b (f (atdat nb)) b s) as [o| |] eqn:Hcp;
    cbn [mbind outcome_bind bind] in H; try done.
  assert (Ho : out' = o).
  { destruct (locality_eqb (atl loc) InteractionLocality.Local);
      destruct (computeVirial sw); destruct (computeEnergy sw);
      cbn [mbind outcome_bind bind] in H;
      repeat match type of H with
             | context [copyFromDeviceBuffer ?a ?b ?c ?d ?e] =>
                 destruct (copyFromDeviceBuffer a b c d e);
                 cbn [mbind outcome_bind bind] in H; try done
             end;
      by injection H as <- <-. }
  subst o. clear H.
  destruct (Z.eq_dec s 0) as [->|Hs].
  - unfold copyFromDeviceBuffer in Hcp. simpl in Hcp. injection Hcp as <-.
    split; [done|]. split; [intros k Hk; lia | done].
  - destruct (copyFrom_range _ _ _ _ _ _ Hcp Hs)
      as (cells & Hb & Hlen & Hb0 & _ & Hpos & Hle & Hhle & Hin & Hout).
    rewrite Hb. cbn [device_cell]. split; [done|]. split.
    + intros k Hk. rewrite Hin by done.
      replace (Z.to_nat b + (k - Z.to_nat b))%nat with k by lia.
      split; [done|].
      apply lookup_lt_is_Some. unfold len in Hle. lia.
    + intros k Hk. by apply Hout.
Qed.
End DownloadFacts.

(* ===================================================================== *)
(** * The copy-back and the summation of the slots                         *)
(* ===================================================================== *)

Section SumUpFacts.



End SumUpFacts.

Section SumUpCopyBack.
Variable atl : AtomLocality.t -> InteractionLocality.t.
Variable range : NBAtomDataGpu -> AtomLocality.t -> Z * Z.
Variable nsv : Z.


End SumUpCopyBack.


Section InitFacts.

(** The atom data [initAtomdataFirst] returns. *)
Lemma initAtomdataFirst_result (nsv : Z) (mm : bool) (a0 : NBAtomDataGpu) (nt : Z) :
  0 <= nsv ->
  initAtomdataFirst nsv mm a0 nt
  = Done {| numTypes := nt;
            numAtoms := -1;
            numAtomsLocal := numAtomsLocal a0;
            numAtomsAlloc := -1;
            xq := None;
            f := None;
            atomTypes := atomTypes a0;
            ljComb := ljComb a0;
            shiftVec := allocateDeviceBuffer nsv;
            shiftVecUploaded := false;
            fShift := Some (replicate (Z.to_nat (c_clShiftMemorySize mm * nsv))
                                      (Some zero_Float3));
            eLJ := Some (replicate (Z.to_nat (c_clEnergyMemorySize mm)) (Some f0));
            eElec := Some (replicate (Z.to_nat (c_clEnergyMemorySize mm)) (Some f0)) |}.
Proof.
  intros Hnsv. unfold initAtomdataFirst.
  assert (Hsz : 0 <= c_clShiftMemorySize mm * nsv).
  { destruct mm; [change (c_clShiftMemorySize true) with 65
                 | change (c_clShiftMemorySize false) with 1]; lia. }
  assert (Hez : 0 <= c_clEnergyMemorySize mm) by by destruct mm.
  by rewrite (clear_fresh zero_Float3 _ Hsz), (clear_fresh f0 _ Hez).
Qed.

Lemma gpu_init_atomdata_keeps (oas : Z -> Z) (useLjCombRule : VdwType.t -> bool)
      (nb nb1 : NbnxmGpu) (nbat : nbnxn_atomdata_t) :
  gpu_init_atomdata oas useLjCombRule nb nbat = Done nb1 ->
  fShift (atdat nb1) = fShift (atdat nb)
  /\ eLJ (atdat nb1) = eLJ (atdat nb)
  /\ eElec (atdat nb1) = eElec (atdat nb)
  /\ shiftVec (atdat nb1) = shiftVec (atdat nb)
  /\ shiftVecUploaded (atdat nb1) = shiftVecUploaded (atdat nb)
  /\ plist nb1 = plist nb /\ haveWork nb1 = haveWork nb.
Proof.
  unfold gpu_init_atomdata. intros H.
  destruct (realloc_atomdata oas useLjCombRule (vdwType nb) (atdat nb) (nbat_numAtoms nbat))
    as [[[[[f1 xq1] lj1] ty1] numAlloc] realloced].
  destruct realloced; destruct (useLjCombRule (vdwType nb));
    repeat match type of H with
           | context [clearDeviceBufferAsync ?a ?b ?c ?d] =>
               destruct (clearDeviceBufferAsync a b c d);
               cbn [mbind outcome_bind bind] in H; try done
           | context [copyToDeviceBuffer ?a ?b ?c ?d] =>
               destruct (copyToDeviceBuffer a b c d);
               cbn [mbind outcome_bind bind] in H; try done
           end;
    cbn [mbind outcome_bind bind] in H; injection H as <-; done.
Qed.

(** X22. For a number of shift vectors that is not negative
    [initAtomdataFirst] succeeds: no atoms and no atom buffers yet
    ([numAtoms = numAtomsAlloc = -1]), the shift vectors allocated and not
    uploaded, and the shift-force and energy accumulators zero over their
    whole size. *)
Theorem initAtomdataFirst_allocates (nsv : Z) (mm : bool) (a0 : NBAtomDataGpu) (nt : Z) :
  0 <= nsv ->
  exists a,
    initAtomdataFirst nsv mm a0 nt = Done a
    /\ numTypes a = nt /\ numAtoms a = -1 /\ numAtomsAlloc a = -1
    /\ xq a = None /\ f a = None
    /\ shiftVecUploaded a = false
    /\ has_capacity (shiftVec a) nsv
    /\ fShift a = Some (replicate (Z.to_nat (c_clShiftMemorySize mm * nsv))
                                  (Some zero_Float3))
    /\ eLJ a = Some (replicate (Z.to_nat (c_clEnergyMemorySize mm)) (Some f0))
    /\ eElec a = Some (replicate (Z.to_nat (c_clEnergyMemorySize mm)) (Some f0))
    /\ forall useLj, atdat_wf useLj a.
Proof.
  intros Hnsv. eexists. split; [by apply initAtomdataFirst_result|]. cbn.
  do 6 (split; [done|]). split.
  { by apply has_capacity_replicate. }
  do 3 (split; [done|]). intros useLj. by left.
Qed.

(** X23. The set-up composes: on a handle fresh from
    [initAtomdataFirst], [gpu_init_atomdata] succeeds and leaves the outputs
    allocated, and [gpu_clear_outputs] then succeeds, with the force buffer
    zero over the whole capacity [over_alloc_small(numAtoms)]. *)
Theorem outputs_are_ready_after_init
        (oas : Z -> Z) (useLjCombRule : VdwType.t -> bool) (nsv : Z) (mm : bool)
        (a0 : NBAtomDataGpu) (nt : Z) (nb : NbnxmGpu) (nbat : nbnxn_atomdata_t)
        (cv : bool) :
  0 <= nsv ->
  initAtomdataFirst nsv mm a0 nt = Done (atdat nb) ->
  host_params_ok (useLjCombRule (vdwType nb)) nbat ->
  nbat_numAtoms nbat <= oas (nbat_numAtoms nbat) ->
  exists nb1 nb2,
    gpu_init_atomdata oas useLjCombRule nb nbat = Done nb1
    /\ outputs_allocated nsv mm (atdat nb1)
    /\ gpu_clear_outputs nsv mm nb1 cv = Done nb2
    /\ f (atdat nb2)
       = Some (replicate (Z.to_nat (oas (nbat_numAtoms nbat))) (Some zero_Float3))
    /\ numAtoms (atdat nb2) = nbat_numAtoms nbat.
Proof.
  intros Hnsv Hinit Hhost Hoas.
  rewrite (initAtomdataFirst_result nsv mm a0 nt Hnsv) in Hinit.
  injection Hinit as Ha.
  assert (Hwf : atdat_wf (useLjCombRule (vdwType nb)) (atdat nb))
    by (left; by rewrite <- Ha).
  destruct (gpu_init_atomdata_step oas useLjCombRule nb nbat Hwf Hhost Hoas)
    as (nb1 & Hrun & Hvdw & Hwf1 & Hspec).
  destruct (gpu_init_atomdata_keeps _ _ _ _ _ Hrun) as (Kfs & Klj & Kel & _).
  destruct Hspec as (Hn & Hcap & _ & Hre & _ & _).
  destruct Hhost as [Hn0 _].
  destruct (Hre ltac:(rewrite <- Ha; cbn; lia)) as (Hal & Hf & _).
  assert (Hsz : 0 <= c_clShiftMemorySize mm * nsv).
  { destruct mm; [change (c_clShiftMemorySize true) with 65
                 | change (c_clShiftMemorySize false) with 1]; lia. }
  assert (Hez : 0 <= c_clEnergyMemorySize mm) by by destruct mm.
  assert (Hout : outputs_allocated nsv mm (atdat nb1)).
  { unfold outputs_allocated. rewrite Hn, Hf, Kfs, Klj, Kel, <- Ha. cbn.
    split; [done|]. split; [done|]. split.
    { eexists. split; [done|]. unfold len. rewrite length_replicate. lia. }
    split; [|split]; by apply has_capacity_replicate. }
  destruct (gpu_clear_outputs_result nsv mm nb1 cv Hout)
    as (cells & cells' & Hf1 & Hlen & Htk & Hdr & Hclr).
  eexists nb1, _. split; [done|]. split; [done|]. split; [exact Hclr|].
  cbn. split; [|done].
  rewrite Hf in Hf1. injection Hf1 as <-.
  f_equal. rewrite <- (take_drop (Z.to_nat (numAtoms (atdat nb1))) cells').
  rewrite Htk, Hdr, Hn, drop_replicate, <- replicate_add. f_equal. lia.
Qed.
End InitFacts.

(* ===================================================================== *)
(** * The further properties at concrete inputs                          *)
(* ===================================================================== *)

Section ExtraWitnesses.

Lemma cos_angle_of_zero_vector_witness :
  cos_angle (__frsqrt_rn Examples.lib) (make_float3 f0 f0 f0) Examples.overflow_a = f1.
Proof.
  apply (cos_angle_of_zero_vector (__frsqrt_rn Examples.lib) (make_float3 f0 f0 f0)
                                  Examples.overflow_a).
  left. reflexivity.
Defined.

Lemma excluded_pair_is_skipped_witness :
  let r' := (i_iteration Examples.lib Examples.cutoff_F Examples.two_atom_args 0
               Examples.thread00 Examples.keep_all
               (preload Examples.two_atom_args 0) 0 0 1 Examples.xj_atom8 fm1 0
               (make_float2 f0 f0) 0 (Examples.regs_at_entry, 1) 0).1 in
  fcj_buf r' = fcj_buf Examples.regs_at_entry
  /\ fci_buf r' = fci_buf Examples.regs_at_entry
  /\ E_lj r' = E_lj Examples.regs_at_entry /\ E_el r' = E_el Examples.regs_at_entry.
Proof.
  apply (excluded_pair_is_skipped Examples.lib Examples.cutoff_F Examples.two_atom_args 0
           Examples.thread00 Examples.keep_all (preload Examples.two_atom_args 0)
           0 0 1 Examples.xj_atom8 fm1 0 (make_float2 f0 f0) 0 Examples.regs_at_entry 1 0).
  - reflexivity.
  - lia.
  - lia.
  - reflexivity.
Defined.

Lemma self_pair_is_skipped_witness :
  let r' := (i_iteration Examples.lib Examples.cutoff_VF Examples.two_atom_args 0
               Examples.thread00 Examples.keep_all
               (preload Examples.two_atom_args 0) 0 0
               (sci (nb_sci Examples.two_atom_args 0) * c_nbnxnGpuNumClusterPerSupercluster + 0)
               Examples.xj_atom8 fm1 0
               (make_float2 f0 f0) 1 (Examples.regs_at_entry, 1) 0).1 in
  fcj_buf r' = fcj_buf Examples.regs_at_entry
  /\ fci_buf r' = fci_buf Examples.regs_at_entry
  /\ E_lj r' = E_lj Examples.regs_at_entry /\ E_el r' = E_el Examples.regs_at_entry.
Proof.
  apply (self_pair_is_skipped Examples.lib Examples.cutoff_VF Examples.two_atom_args 0
           Examples.thread00 Examples.keep_all (preload Examples.two_atom_args 0)
           0 0 Examples.xj_atom8 fm1 0 (make_float2 f0 f0) 1 Examples.regs_at_entry 1 0).
  - reflexivity.
  - reflexivity.
  - simpl. lia.
Defined.

Lemma clear_mask_bits_skip_work_witness :
  let D := Examples.lib in
  let fl := Examples.cutoff_F in
  let args := Examples.two_atom_args in
  let t := Examples.thread00 in
  let sh := preload Examples.two_atom_args 0 in
  let r := Examples.regs_at_entry in
  let cj_ := nth (Z.to_nat 1) (cj (pl_cj4 args 0)) 0 in
  let aj := cj_ * c_clSize + tidxj t in
  (forall i xj qj_f typej ljcp_j,
      0 <= i < 8 ->
      Z.testbit (r_imask r) (1 * 8 + i) = false ->
      i_iteration D fl args 0 t Examples.keep_all sh 0 1 cj_ xj qj_f typej ljcp_j 1
                  (r, u32 (2 ^ (1 * 8 + i))) i
      = (r, u32 (2 ^ (1 * 8 + (i + 1)))))
  /\ ((forall i, 0 <= i < 8 -> Z.testbit (r_imask r) (1 * 8 + i) = false) ->
      jm_iteration D fl args 0 t Examples.keep_all sh 0 1 (r, []) 1 = (r, []))
  /\ ((exists i, 0 <= i < 8 /\ Z.testbit (r_imask r) (1 * 8 + i) = true) ->
      exists r1, jm_iteration D fl args 0 t Examples.keep_all sh 0 1 (r, []) 1
                 = (r1, [] ++ [(aj, fcj_buf r1)])).
Proof.
  apply (clear_mask_bits_skip_work Examples.lib Examples.cutoff_F Examples.two_atom_args 0
           Examples.thread00 Examples.keep_all (preload Examples.two_atom_args 0)
           0 1 1 Examples.regs_at_entry []).
  lia.
Defined.

Lemma stored_mask_is_pruned_mask_witness :
  let st' := j4_iteration Examples.lib Examples.cutoff_F_prune Examples.two_atom_args 0
               Examples.thread00 Examples.keep_first (preload Examples.two_atom_args 0)
               Examples.thread_out_at_entry 0 in
  (PRUNE_NBL Examples.cutoff_F_prune = false ->
   imask_out st' = imask_out Examples.thread_out_at_entry)
  /\ (PRUNE_NBL Examples.cutoff_F_prune = true ->
      exists m', imask_out st' = imask_out Examples.thread_out_at_entry ++ [(0, m')]
                 /\ 0 <= m' < 2 ^ 32
                 /\ forall jm i, 0 <= jm < 4 -> 0 <= i < 8 ->
                                 Z.testbit m' (jm * 8 + i)
                                 = Z.testbit (imask_of Examples.two_atom_args 0) (jm * 8 + i)
                                   && Examples.keep_first 0 jm i).
Proof.
  apply (stored_mask_is_pruned_mask Examples.lib Examples.cutoff_F_prune
           Examples.two_atom_args 0 Examples.thread00 Examples.keep_first
           (preload Examples.two_atom_args 0) Examples.thread_out_at_entry 0).
  vm_compute. split; [discriminate | reflexivity].
Defined.

Lemma idle_block_adds_no_force_witness :
  (forall e, e ∈ nbnxn_kernel Examples.lib Examples.cutoff_F true
                   Examples.two_atom_args_at_cutoff 0 -> adds_zero e)
  /\ (forall atom c,
         force_after (nbnxn_kernel Examples.lib Examples.cutoff_F true
                                   Examples.two_atom_args_at_cutoff 0) atom c = f0).
Proof.
  apply (idle_block_adds_no_force Examples.lib Examples.cutoff_F true
           Examples.two_atom_args_at_cutoff 0).
  vm_compute. reflexivity.
Defined.

Lemma threads_process_same_j_clusters_witness :
  (j_out (thread_run Examples.lib Examples.cutoff_F Examples.two_atom_args 0
                     Examples.thread00 Examples.keep_all)).*1
  = (fun e => cj_of Examples.two_atom_args e.1 e.2 * c_clSize + tidxj Examples.thread00)
      <$> processed Examples.two_atom_args 0.
Proof.
  apply (threads_process_same_j_clusters Examples.lib Examples.cutoff_F
           Examples.two_atom_args 0 Examples.keep_all Examples.thread00).
  intros j4 Hj4. vm_compute. split; [discriminate | reflexivity].
Defined.

Lemma energy_additions_stay_in_bounds_witness :
  exists c1 c2 c1' c2',
    eLJ Examples.atdat_fresh = Some c1 /\ eElec Examples.atdat_fresh = Some c2
    /\ apply_energy_effects (eLJ Examples.atdat_fresh, eElec Examples.atdat_fresh)
         (nbnxn_kernel Examples.lib Examples.cutoff_VF true Examples.two_atom_args 70)
       = Done (Some c1', Some c2')
    /\ len c1' = len c1 /\ len c2' = len c2
    /\ len c1 = c_clEnergyMemorySize true /\ len c2 = c_clEnergyMemorySize true.
Proof.
  apply (energy_additions_stay_in_bounds Examples.lib Examples.cutoff_VF true
           Examples.two_atom_args 70 45 Examples.blank_atdat Examples.atdat_fresh 2).
  reflexivity.
Defined.

Lemma shift_force_additions_witness :
  bCalcFshift Examples.shifted_args = true
  /\ shift (nb_sci Examples.shifted_args 0) <> c_centralShiftIndex Examples.lib
  /\ 45 = shift (nb_sci Examples.shifted_args 0) + shift_index_base Examples.lib true 0
  /\ (true = true -> 0 < c_numShiftVectors Examples.lib ->
      c_numShiftVectors Examples.lib * 65 < 2 ^ 32 ->
      0 <= shift (nb_sci Examples.shifted_args 0) < c_numShiftVectors Examples.lib ->
      c_numShiftVectors Examples.lib <= 45
      < c_clShiftMemorySize true * c_numShiftVectors Examples.lib).
Proof.
  apply (shift_force_additions Examples.lib Examples.cutoff_F true Examples.shifted_args 0
           45 0 f1).
  apply (list_elem_of_lookup_2 _ 216). vm_compute. reflexivity.
Defined.

Lemma pair_rv_is_displacement_witness :
  let xi := k_xq Examples.two_atom_args
                 (ai_of Examples.two_atom_args 0 Examples.thread00 0) in
  let sv := k_shiftVec Examples.two_atom_args (shift (nb_sci Examples.two_atom_args 0)) in
  let rv := pair_rv Examples.thread00 (preload Examples.two_atom_args 0) 0
                    Examples.xj_atom8 in
  ff_x rv = (ff_x Examples.xj_atom8 - (f4_x xi + f3_x sv))%f32
  /\ ff_y rv = (ff_y Examples.xj_atom8 - (f4_y xi + f3_y sv))%f32
  /\ ff_z rv = (ff_z Examples.xj_atom8 - (f4_z xi + f3_z sv))%f32.
Proof.
  apply (pair_rv_is_displacement Examples.two_atom_args 0 Examples.thread00 0
                                 Examples.xj_atom8).
  - lia.
  - simpl. lia.
Defined.

Lemma ewald_kernel_choice_witness :
  let ana := getenv_set Examples.env_tab "GMX_GPU_NB_ANA_EWALD" in
  let tab := getenv_set Examples.env_tab "GMX_GPU_NB_TAB_EWALD" in
  (ElecType.EwaldTab = ElecType.EwaldAna \/ ElecType.EwaldTab = ElecType.EwaldTab
   \/ ElecType.EwaldTab = ElecType.EwaldAnaTwin
   \/ ElecType.EwaldTab = ElecType.EwaldTabTwin)
  /\ is_twin_cutoff ElecType.EwaldTab
     = fne (rcoulomb Examples.ic_1nm) (rvdw Examples.ic_1nm)
       || getenv_set Examples.env_tab "GMX_GPU_NB_EWALD_TWINCUT"
  /\ gpu_is_kernel_ewald_analytical (set_elecType Examples.nb_fresh ElecType.EwaldTab)
     = ana.
Proof.
  apply (ewald_kernel_choice GMX_GPU_HIP Examples.env_tab Examples.ic_1nm Examples.device0
                             Examples.nb_fresh ElecType.EwaldTab).
  vm_compute. reflexivity.
Defined.

Lemma vdw_kernel_matches_combination_rule_witness :
  vdw_rule_consistent VdwType.EwaldGeom LJCombinationRule.Geometric
  /\ (vdwtype Examples.ic_pme = VanDerWaalsType.Pme
      <-> VdwType.EwaldGeom = VdwType.EwaldGeom \/ VdwType.EwaldGeom = VdwType.EwaldLB)
  /\ (VdwType.EwaldGeom = VdwType.EwaldGeom
      <-> vdwtype Examples.ic_pme = VanDerWaalsType.Pme
          /\ ljpme_comb_rule Examples.ic_pme = LongRangeVdW.Geom).
Proof.
  apply (vdw_kernel_matches_combination_rule Examples.ic_pme LJCombinationRule.Geometric
                                             VdwType.EwaldGeom).
  reflexivity.
Defined.

Lemma environment_matters_for_ewald_only_witness :
  nbnxmGpuPickElectrostaticsKernelType Examples.EEL_RF Examples.EEL_PME GMX_GPU_HIP
    Examples.env_both Examples.ic_cut Examples.device0
  = nbnxmGpuPickElectrostaticsKernelType Examples.EEL_RF Examples.EEL_PME GMX_GPU_HIP
      Examples.env_tab Examples.ic_cut Examples.device0
  /\ (nbnxmGpuPickElectrostaticsKernelType Examples.EEL_RF Examples.EEL_PME GMX_GPU_HIP
        Examples.env_both Examples.ic_cut Examples.device0 = Done ElecType.Cut
      \/ nbnxmGpuPickElectrostaticsKernelType Examples.EEL_RF Examples.EEL_PME GMX_GPU_HIP
           Examples.env_both Examples.ic_cut Examples.device0 = Done ElecType.RF).
Proof.
  apply (environment_matters_for_ewald_only Examples.EEL_RF Examples.EEL_PME GMX_GPU_HIP
           Examples.env_both Examples.env_tab Examples.ic_cut Examples.device0).
  left. reflexivity.
Defined.

Lemma shift_vectors_are_uploaded_once_witness :
  shiftVecUploaded (atdat Examples.nb_shifted) = true
  /\ (bDynamicBox Examples.host_xq = false ->
      shiftVecUploaded (atdat Examples.nb_atoms2) = true ->
      Examples.nb_shifted = Examples.nb_atoms2)
  /\ (bDynamicBox Examples.host_xq = true
      \/ shiftVecUploaded (atdat Examples.nb_atoms2) = false ->
      device_prefix (shiftVec (atdat Examples.nb_shifted)) 45
      = Some <$> take (Z.to_nat 45) (shift_vec Examples.host_xq))
  /\ (forall h2, bDynamicBox h2 = false ->
                 gpu_upload_shiftvec 45 Examples.nb_shifted h2 = Done Examples.nb_shifted).
Proof.
  apply (shift_vectors_are_uploaded_once 45 Examples.nb_atoms2 Examples.nb_shifted
                                         Examples.host_xq).
  vm_compute. reflexivity.
Defined.

Lemma xq_upload_copies_range_witness :
  let atl := Examples.atomToInteractionLocality in
  let range := Examples.getGpuAtomRange in
  let nb := Examples.nb_atoms2 in
  let nb' := Examples.nb_with_xq in
  let loc := AtomLocality.Local in
  (transfer_skipped atl nb loc = true ->
   atdat nb' = atdat nb
   /\ exists pl, ea_get (plist nb) (atl loc) = Some pl
                 /\ ea_get (plist nb') (atl loc) = Some (set_haveFreshList pl false))
  /\ (transfer_skipped atl nb loc = false ->
      plist nb' = plist nb
      /\ (forall k : nat,
             (range (atdat nb) loc).1 <= Z.of_nat k
             < (range (atdat nb) loc).1 + (range (atdat nb) loc).2 ->
             device_cell (xq (atdat nb')) k = Some <$> (x_xyzq Examples.host_xq !! k))
      /\ (forall k : nat,
             Z.of_nat k < (range (atdat nb) loc).1
             \/ (range (atdat nb) loc).1 + (range (atdat nb) loc).2 <= Z.of_nat k ->
             device_cell (xq (atdat nb')) k = device_cell (xq (atdat nb)) k)).
Proof.
  apply (xq_upload_copies_range Examples.atomToInteractionLocality Examples.getGpuAtomRange
           Examples.nb_atoms2 Examples.nb_with_xq Examples.host_xq AtomLocality.Local).
  vm_compute. reflexivity.
Defined.

Lemma outputs_allocated_atoms2 : outputs_allocated 45 true (atdat Examples.nb_atoms2).
Proof.
  split; [lia|]. split; [by vm_compute|]. split.
  { eexists. split; [vm_compute; reflexivity|]. by vm_compute. }
  split; [|split]; (eexists; split; [vm_compute; reflexivity|]; by vm_compute).
Qed.

Lemma gpu_clear_outputs_zeroes_witness :
  let nb := Examples.nb_atoms2 in
  exists nb',
    gpu_clear_outputs 45 true nb true = Done nb'
    /\ device_prefix (f (atdat nb')) (numAtoms (atdat nb))
       = replicate (Z.to_nat (numAtoms (atdat nb))) (Some zero_Float3)
    /\ device_suffix (f (atdat nb')) (numAtoms (atdat nb))
       = device_suffix (f (atdat nb)) (numAtoms (atdat nb))
    /\ (fShift (atdat nb')
        = Some (replicate (Z.to_nat (c_clShiftMemorySize true * 45)) (Some zero_Float3))
        /\ eLJ (atdat nb')
           = Some (replicate (Z.to_nat (c_clEnergyMemorySize true)) (Some f0))
        /\ eElec (atdat nb')
           = Some (replicate (Z.to_nat (c_clEnergyMemorySize true)) (Some f0)))
    /\ xq (atdat nb') = xq (atdat nb)
    /\ numAtoms (atdat nb') = numAtoms (atdat nb)
    /\ outputs_allocated 45 true (atdat nb').
Proof.
  apply (gpu_clear_outputs_zeroes 45 true Examples.nb_atoms2 true).
  exact outputs_allocated_atoms2.
Defined.

Lemma copyback_marks_the_non_local_stream_witness :
  let atl := Examples.atomToInteractionLocality in
  let nb := Examples.nb_atoms2 in
  let nb' := Examples.copyback2.1 in
  let sw := Examples.force_step_workload in
  let loc := AtomLocality.Local in
  bNonLocalStreamDoneMarked nb'
  = locality_eqb (atl loc) InteractionLocality.NonLocal
    && haveGpuShortRangeWork nb (atl loc)
  /\ atdat nb' = atdat nb /\ plist nb' = plist nb /\ haveWork nb' = haveWork nb
  /\ (atl loc = InteractionLocality.NonLocal -> nbst nb' = nbst nb)
  /\ (computeEnergy sw = false ->
      st_eLJ (nbst nb') = st_eLJ (nbst nb) /\ st_eElec (nbst nb') = st_eElec (nbst nb))
  /\ (computeVirial sw = false -> st_fShift (nbst nb') = st_fShift (nbst nb))
  /\ (useGpuFBufferOps sw = true \/ transfer_skipped atl nb loc = true ->
      Examples.copyback2.2 = out_f Examples.host2).
Proof.
  apply (copyback_marks_the_non_local_stream Examples.atomToInteractionLocality
           Examples.getGpuAtomRange 45 Examples.nb_atoms2 Examples.copyback2.1
           Examples.host2 Examples.force_step_workload AtomLocality.Local
           Examples.copyback2.2).
  vm_compute. reflexivity.
Defined.

Lemma forces_are_downloaded_in_range_witness :
  let range := Examples.getGpuAtomRange in
  let nb := Examples.nb_atoms2 in
  let loc := AtomLocality.Local in
  length Examples.copyback2.2 = length (out_f Examples.host2)
  /\ (forall k : nat,
         (range (atdat nb) loc).1 <= Z.of_nat k
         < (range (atdat nb) loc).1 + (range (atdat nb) loc).2 ->
         Examples.copyback2.2 !! k = device_cell (f (atdat nb)) k
         /\ is_Some (device_cell (f (atdat nb)) k))
  /\ (forall k : nat,
         Z.of_nat k < (range (atdat nb) loc).1
         \/ (range (atdat nb) loc).1 + (range (atdat nb) loc).2 <= Z.of_nat k ->
         Examples.copyback2.2 !! k = out_f Examples.host2 !! k).
Proof.
  apply (forces_are_downloaded_in_range Examples.atomToInteractionLocality
           Examples.getGpuAtomRange 45 Examples.nb_atoms2 Examples.copyback2.1
           Examples.host2 Examples.force_step_workload AtomLocality.Local
           Examples.copyback2.2).
  - vm_compute. reflexivity.
  - reflexivity.
  - reflexivity.
Defined.

Lemma initAtomdataFirst_allocates_witness :
  exists a,
    initAtomdataFirst 45 true Examples.blank_atdat 2 = Done a
    /\ numTypes a = 2 /\ numAtoms a = -1 /\ numAtomsAlloc a = -1
    /\ xq a = None /\ f a = None
    /\ shiftVecUploaded a = false
    /\ has_capacity (shiftVec a) 45
    /\ fShift a = Some (replicate (Z.to_nat (c_clShiftMemorySize true * 45))
                                  (Some zero_Float3))
    /\ eLJ a = Some (replicate (Z.to_nat (c_clEnergyMemorySize true)) (Some f0))
    /\ eElec a = Some (replicate (Z.to_nat (c_clEnergyMemorySize true)) (Some f0))
    /\ forall useLj, atdat_wf useLj a.
Proof.
  apply (initAtomdataFirst_allocates 45 true Examples.blank_atdat 2). lia.
Defined.

Lemma outputs_are_ready_after_init_witness :
  exists nb1 nb2,
    gpu_init_atomdata Examples.over_alloc Examples.useLjCombRule Examples.nb_fresh
                      Examples.host2 = Done nb1
    /\ outputs_allocated 45 true (atdat nb1)
    /\ gpu_clear_outputs 45 true nb1 false = Done nb2
    /\ f (atdat nb2)
       = Some (replicate (Z.to_nat (Examples.over_alloc (nbat_numAtoms Examples.host2)))
                         (Some zero_Float3))
    /\ numAtoms (atdat nb2) = nbat_numAtoms Examples.host2.
Proof.
  apply (outputs_are_ready_after_init Examples.over_alloc Examples.useLjCombRule 45 true
           Examples.blank_atdat 2 Examples.nb_fresh Examples.host2 false).
  - lia.
  - reflexivity.
  - vm_compute. split; discriminate.
  - vm_compute. discriminate.
Defined.

End ExtraWitnesses.
